(** * The rule-scoring engine of the resume screener (streamlit_app.py)

    A shallow embedding of the text helpers ([normalize_text],
    [clean_email], [split_skills], [encode_education]), of the global
    knockout evaluator ([_apply_global_knockout]), of the rule engine
    ([rule_score]) and of the score blender ([bucket_level] and the
    blending line of the screening loop), with the properties the
    specification states about them; and of the tokenizer
    ([thai_tokenize]), the address test ([is_valid_email]), the message
    templates ([_render_template]) and the sending loop, with properties of
    their own.

    Modelling conventions.
    - A Python [str] is a list of Unicode code points ([list N]); literals
      are written as UTF-8 strings and decoded by [u].  [str.lower],
      [str.title] and the class [\w] follow the tables of Unicode 14.0,
      the version of CPython 3.11.
    - The numbers read from the cells of a row, the thresholds they are
      compared with and the numbers of the blender are binary64 floats
      ([PrimFloat.float]), with their NaN and infinities; [int(x)] raises
      on the latter.
    - The weights and the running score of the rule engine are exact
      rationals ([Q]): the rounding of the sums is outside the model.
    - A call that raises returns [None].
    - A reason string is a value of the tagged type [Reason], one
      constructor per f-string of [rule_score]; the constructor keeps the
      values the f-string interpolates. *)

From Stdlib Require Import Floats.
From Stdlib Require Import Strings.String Strings.Ascii.
From Stdlib Require Import List Bool NArith ZArith QArith Qpower Lia Lqa.
From Stdlib Require Import Sorting.Sorted.
Import ListNotations.

#[local] Set Warnings "-inexact-float".

Set Implicit Arguments.

(* ================================================================== *)
(** ** Strings as lists of code points *)

Module Text.

Definition str := list N.

(** UTF-8 decoding, used only to write literals. *)
Fixpoint utf8_decode (bs : list N) : str :=
  match bs with
  | [] => []
  | b :: r =>
      if (b <? 128)%N then b :: utf8_decode r
      else match r with
      | [] => [b]
      | b1 :: r1 =>
          if (b <? 224)%N then ((b - 192) * 64 + (b1 - 128))%N :: utf8_decode r1
          else match r1 with
          | [] => [b]
          | b2 :: r2 =>
              if (b <? 240)%N
              then ((b - 224) * 4096 + (b1 - 128) * 64 + (b2 - 128))%N
                     :: utf8_decode r2
              else match r2 with
              | [] => [b]
              | b3 :: r3 =>
                  ((b - 240) * 262144 + (b1 - 128) * 4096
                   + (b2 - 128) * 64 + (b3 - 128))%N :: utf8_decode r3
              end
          end
      end
  end.

Definition u (s : string) : str :=
  utf8_decode (map N_of_ascii (list_ascii_of_string s)).

Definition in_range (lo hi c : N) : bool := ((lo <=? c) && (c <=? hi))%N.

(** The characters [\s] matches in a [str] pattern and [str.strip()]
    removes: Python's Unicode white space. *)
Definition is_space (c : N) : bool :=
  in_range 9 13 c || in_range 28 32 c || (c =? 133)%N || (c =? 160)%N
  || (c =? 5760)%N || in_range 8192 8202 c || in_range 8232 8233 c
  || (c =? 8239)%N || (c =? 8287)%N || (c =? 12288)%N.

(** The classes [[A-Z]] and [[a-z]] of a pattern. *)
Definition is_upper (c : N) : bool := in_range 65 90 c.
Definition is_lower (c : N) : bool := in_range 97 122 c.

(** ** Unicode data

    The tables of the Unicode Character Database that [str.lower],
    [str.title] and the class [\w] consult, in the version CPython 3.11
    ships (Unicode 14.0).  A range [(lo, hi)] holds the code points from
    [lo] to [hi]; the ranges of a table are sorted and disjoint. *)

Module Unicode.

(** The code points with the property Cased. *)
Definition Cased : list (N * N) :=
  [
   (0x41, 0x5A); (0x61, 0x7A); (0xAA, 0xAA); (0xB5, 0xB5); (0xBA, 0xBA);
   (0xC0, 0xD6); (0xD8, 0xF6); (0xF8, 0x1BA); (0x1BC, 0x1BF); (0x1C4, 0x293);
   (0x295, 0x2B8); (0x2C0, 0x2C1); (0x2E0, 0x2E4); (0x345, 0x345);
   (0x370, 0x373); (0x376, 0x377); (0x37A, 0x37D); (0x37F, 0x37F);
   (0x386, 0x386); (0x388, 0x38A); (0x38C, 0x38C); (0x38E, 0x3A1);
   (0x3A3, 0x3F5); (0x3F7, 0x481); (0x48A, 0x52F); (0x531, 0x556);
   (0x560, 0x588); (0x10A0, 0x10C5); (0x10C7, 0x10C7); (0x10CD, 0x10CD);
   (0x10D0, 0x10FA); (0x10FD, 0x10FF); (0x13A0, 0x13F5); (0x13F8, 0x13FD);
   (0x1C80, 0x1C88); (0x1C90, 0x1CBA); (0x1CBD, 0x1CBF); (0x1D00, 0x1DBF);
   (0x1E00, 0x1F15); (0x1F18, 0x1F1D); (0x1F20, 0x1F45); (0x1F48, 0x1F4D);
   (0x1F50, 0x1F57); (0x1F59, 0x1F59); (0x1F5B, 0x1F5B); (0x1F5D, 0x1F5D);
   (0x1F5F, 0x1F7D); (0x1F80, 0x1FB4); (0x1FB6, 0x1FBC); (0x1FBE, 0x1FBE);
   (0x1FC2, 0x1FC4); (0x1FC6, 0x1FCC); (0x1FD0, 0x1FD3); (0x1FD6, 0x1FDB);
   (0x1FE0, 0x1FEC); (0x1FF2, 0x1FF4); (0x1FF6, 0x1FFC); (0x2071, 0x2071);
   (0x207F, 0x207F); (0x2090, 0x209C); (0x2102, 0x2102); (0x2107, 0x2107);
   (0x210A, 0x2113); (0x2115, 0x2115); (0x2119, 0x211D); (0x2124, 0x2124);
   (0x2126, 0x2126); (0x2128, 0x2128); (0x212A, 0x212D); (0x212F, 0x2134);
   (0x2139, 0x2139); (0x213C, 0x213F); (0x2145, 0x2149); (0x214E, 0x214E);
   (0x2160, 0x217F); (0x2183, 0x2184); (0x24B6, 0x24E9); (0x2C00, 0x2CE4);
   (0x2CEB, 0x2CEE); (0x2CF2, 0x2CF3); (0x2D00, 0x2D25); (0x2D27, 0x2D27);
   (0x2D2D, 0x2D2D); (0xA640, 0xA66D); (0xA680, 0xA69D); (0xA722, 0xA787);
   (0xA78B, 0xA78E); (0xA790, 0xA7CA); (0xA7D0, 0xA7D1); (0xA7D3, 0xA7D3);
   (0xA7D5, 0xA7D9); (0xA7F5, 0xA7F6); (0xA7F8, 0xA7FA); (0xAB30, 0xAB5A);
   (0xAB5C, 0xAB68); (0xAB70, 0xABBF); (0xFB00, 0xFB06); (0xFB13, 0xFB17);
   (0xFF21, 0xFF3A); (0xFF41, 0xFF5A); (0x10400, 0x1044F); (0x104B0, 0x104D3);
   (0x104D8, 0x104FB); (0x10570, 0x1057A); (0x1057C, 0x1058A);
   (0x1058C, 0x10592); (0x10594, 0x10595); (0x10597, 0x105A1);
   (0x105A3, 0x105B1); (0x105B3, 0x105B9); (0x105BB, 0x105BC);
   (0x10780, 0x10780); (0x10783, 0x10785); (0x10787, 0x107B0);
   (0x107B2, 0x107BA); (0x10C80, 0x10CB2); (0x10CC0, 0x10CF2);
   (0x118A0, 0x118DF); (0x16E40, 0x16E7F); (0x1D400, 0x1D454);
   (0x1D456, 0x1D49C); (0x1D49E, 0x1D49F); (0x1D4A2, 0x1D4A2);
   (0x1D4A5, 0x1D4A6); (0x1D4A9, 0x1D4AC); (0x1D4AE, 0x1D4B9);
   (0x1D4BB, 0x1D4BB); (0x1D4BD, 0x1D4C3); (0x1D4C5, 0x1D505);
   (0x1D507, 0x1D50A); (0x1D50D, 0x1D514); (0x1D516, 0x1D51C);
   (0x1D51E, 0x1D539); (0x1D53B, 0x1D53E); (0x1D540, 0x1D544);
   (0x1D546, 0x1D546); (0x1D54A, 0x1D550); (0x1D552, 0x1D6A5);
   (0x1D6A8, 0x1D6C0); (0x1D6C2, 0x1D6DA); (0x1D6DC, 0x1D6FA);
   (0x1D6FC, 0x1D714); (0x1D716, 0x1D734); (0x1D736, 0x1D74E);
   (0x1D750, 0x1D76E); (0x1D770, 0x1D788); (0x1D78A, 0x1D7A8);
   (0x1D7AA, 0x1D7C2); (0x1D7C4, 0x1D7CB); (0x1DF00, 0x1DF09);
   (0x1DF0B, 0x1DF1E); (0x1E900, 0x1E943); (0x1F130, 0x1F149);
   (0x1F150, 0x1F169); (0x1F170, 0x1F189) ]%N.

(** The code points with the property Case_Ignorable. *)
Definition Case_Ignorable : list (N * N) :=
  [
   (0x27, 0x27); (0x2E, 0x2E); (0x3A, 0x3A); (0x5E, 0x5E); (0x60, 0x60);
   (0xA8, 0xA8); (0xAD, 0xAD); (0xAF, 0xAF); (0xB4, 0xB4); (0xB7, 0xB8);
   (0x2B0, 0x36F); (0x374, 0x375); (0x37A, 0x37A); (0x384, 0x385);
   (0x387, 0x387); (0x483, 0x489); (0x559, 0x559); (0x55F, 0x55F);
   (0x591, 0x5BD); (0x5BF, 0x5BF); (0x5C1, 0x5C2); (0x5C4, 0x5C5);
   (0x5C7, 0x5C7); (0x5F4, 0x5F4); (0x600, 0x605); (0x610, 0x61A);
   (0x61C, 0x61C); (0x640, 0x640); (0x64B, 0x65F); (0x670, 0x670);
   (0x6D6, 0x6DD); (0x6DF, 0x6E8); (0x6EA, 0x6ED); (0x70F, 0x70F);
   (0x711, 0x711); (0x730, 0x74A); (0x7A6, 0x7B0); (0x7EB, 0x7F5);
   (0x7FA, 0x7FA); (0x7FD, 0x7FD); (0x816, 0x82D); (0x859, 0x85B);
   (0x888, 0x888); (0x890, 0x891); (0x898, 0x89F); (0x8C9, 0x902);
   (0x93A, 0x93A); (0x93C, 0x93C); (0x941, 0x948); (0x94D, 0x94D);
   (0x951, 0x957); (0x962, 0x963); (0x971, 0x971); (0x981, 0x981);
   (0x9BC, 0x9BC); (0x9C1, 0x9C4); (0x9CD, 0x9CD); (0x9E2, 0x9E3);
   (0x9FE, 0x9FE); (0xA01, 0xA02); (0xA3C, 0xA3C); (0xA41, 0xA42);
   (0xA47, 0xA48); (0xA4B, 0xA4D); (0xA51, 0xA51); (0xA70, 0xA71);
   (0xA75, 0xA75); (0xA81, 0xA82); (0xABC, 0xABC); (0xAC1, 0xAC5);
   (0xAC7, 0xAC8); (0xACD, 0xACD); (0xAE2, 0xAE3); (0xAFA, 0xAFF);
   (0xB01, 0xB01); (0xB3C, 0xB3C); (0xB3F, 0xB3F); (0xB41, 0xB44);
   (0xB4D, 0xB4D); (0xB55, 0xB56); (0xB62, 0xB63); (0xB82, 0xB82);
   (0xBC0, 0xBC0); (0xBCD, 0xBCD); (0xC00, 0xC00); (0xC04, 0xC04);
   (0xC3C, 0xC3C); (0xC3E, 0xC40); (0xC46, 0xC48); (0xC4A, 0xC4D);
   (0xC55, 0xC56); (0xC62, 0xC63); (0xC81, 0xC81); (0xCBC, 0xCBC);
   (0xCBF, 0xCBF); (0xCC6, 0xCC6); (0xCCC, 0xCCD); (0xCE2, 0xCE3);
   (0xD00, 0xD01); (0xD3B, 0xD3C); (0xD41, 0xD44); (0xD4D, 0xD4D);
   (0xD62, 0xD63); (0xD81, 0xD81); (0xDCA, 0xDCA); (0xDD2, 0xDD4);
   (0xDD6, 0xDD6); (0xE31, 0xE31); (0xE34, 0xE3A); (0xE46, 0xE4E);
   (0xEB1, 0xEB1); (0xEB4, 0xEBC); (0xEC6, 0xEC6); (0xEC8, 0xECD);
   (0xF18, 0xF19); (0xF35, 0xF35); (0xF37, 0xF37); (0xF39, 0xF39);
   (0xF71, 0xF7E); (0xF80, 0xF84); (0xF86, 0xF87); (0xF8D, 0xF97);
   (0xF99, 0xFBC); (0xFC6, 0xFC6); (0x102D, 0x1030); (0x1032, 0x1037);
   (0x1039, 0x103A); (0x103D, 0x103E); (0x1058, 0x1059); (0x105E, 0x1060);
   (0x1071, 0x1074); (0x1082, 0x1082); (0x1085, 0x1086); (0x108D, 0x108D);
   (0x109D, 0x109D); (0x10FC, 0x10FC); (0x135D, 0x135F); (0x1712, 0x1714);
   (0x1732, 0x1733); (0x1752, 0x1753); (0x1772, 0x1773); (0x17B4, 0x17B5);
   (0x17B7, 0x17BD); (0x17C6, 0x17C6); (0x17C9, 0x17D3); (0x17D7, 0x17D7);
   (0x17DD, 0x17DD); (0x180B, 0x180F); (0x1843, 0x1843); (0x1885, 0x1886);
   (0x18A9, 0x18A9); (0x1920, 0x1922); (0x1927, 0x1928); (0x1932, 0x1932);
   (0x1939, 0x193B); (0x1A17, 0x1A18); (0x1A1B, 0x1A1B); (0x1A56, 0x1A56);
   (0x1A58, 0x1A5E); (0x1A60, 0x1A60); (0x1A62, 0x1A62); (0x1A65, 0x1A6C);
   (0x1A73, 0x1A7C); (0x1A7F, 0x1A7F); (0x1AA7, 0x1AA7); (0x1AB0, 0x1ACE);
   (0x1B00, 0x1B03); (0x1B34, 0x1B34); (0x1B36, 0x1B3A); (0x1B3C, 0x1B3C);
   (0x1B42, 0x1B42); (0x1B6B, 0x1B73); (0x1B80, 0x1B81); (0x1BA2, 0x1BA5);
   (0x1BA8, 0x1BA9); (0x1BAB, 0x1BAD); (0x1BE6, 0x1BE6); (0x1BE8, 0x1BE9);
   (0x1BED, 0x1BED); (0x1BEF, 0x1BF1); (0x1C2C, 0x1C33); (0x1C36, 0x1C37);
   (0x1C78, 0x1C7D); (0x1CD0, 0x1CD2); (0x1CD4, 0x1CE0); (0x1CE2, 0x1CE8);
   (0x1CED, 0x1CED); (0x1CF4, 0x1CF4); (0x1CF8, 0x1CF9); (0x1D2C, 0x1D6A);
   (0x1D78, 0x1D78); (0x1D9B, 0x1DFF); (0x1FBD, 0x1FBD); (0x1FBF, 0x1FC1);
   (0x1FCD, 0x1FCF); (0x1FDD, 0x1FDF); (0x1FED, 0x1FEF); (0x1FFD, 0x1FFE);
   (0x200B, 0x200F); (0x2018, 0x2019); (0x2024, 0x2024); (0x2027, 0x2027);
   (0x202A, 0x202E); (0x2060, 0x2064); (0x2066, 0x206F); (0x2071, 0x2071);
   (0x207F, 0x207F); (0x2090, 0x209C); (0x20D0, 0x20F0); (0x2C7C, 0x2C7D);
   (0x2CEF, 0x2CF1); (0x2D6F, 0x2D6F); (0x2D7F, 0x2D7F); (0x2DE0, 0x2DFF);
   (0x2E2F, 0x2E2F); (0x3005, 0x3005); (0x302A, 0x302D); (0x3031, 0x3035);
   (0x303B, 0x303B); (0x3099, 0x309E); (0x30FC, 0x30FE); (0xA015, 0xA015);
   (0xA4F8, 0xA4FD); (0xA60C, 0xA60C); (0xA66F, 0xA672); (0xA674, 0xA67D);
   (0xA67F, 0xA67F); (0xA69C, 0xA69F); (0xA6F0, 0xA6F1); (0xA700, 0xA721);
   (0xA770, 0xA770); (0xA788, 0xA78A); (0xA7F2, 0xA7F4); (0xA7F8, 0xA7F9);
   (0xA802, 0xA802); (0xA806, 0xA806); (0xA80B, 0xA80B); (0xA825, 0xA826);
   (0xA82C, 0xA82C); (0xA8C4, 0xA8C5); (0xA8E0, 0xA8F1); (0xA8FF, 0xA8FF);
   (0xA926, 0xA92D); (0xA947, 0xA951); (0xA980, 0xA982); (0xA9B3, 0xA9B3);
   (0xA9B6, 0xA9B9); (0xA9BC, 0xA9BD); (0xA9CF, 0xA9CF); (0xA9E5, 0xA9E6);
   (0xAA29, 0xAA2E); (0xAA31, 0xAA32); (0xAA35, 0xAA36); (0xAA43, 0xAA43);
   (0xAA4C, 0xAA4C); (0xAA70, 0xAA70); (0xAA7C, 0xAA7C); (0xAAB0, 0xAAB0);
   (0xAAB2, 0xAAB4); (0xAAB7, 0xAAB8); (0xAABE, 0xAABF); (0xAAC1, 0xAAC1);
   (0xAADD, 0xAADD); (0xAAEC, 0xAAED); (0xAAF3, 0xAAF4); (0xAAF6, 0xAAF6);
   (0xAB5B, 0xAB5F); (0xAB69, 0xAB6B); (0xABE5, 0xABE5); (0xABE8, 0xABE8);
   (0xABED, 0xABED); (0xFB1E, 0xFB1E); (0xFBB2, 0xFBC2); (0xFE00, 0xFE0F);
   (0xFE13, 0xFE13); (0xFE20, 0xFE2F); (0xFE52, 0xFE52); (0xFE55, 0xFE55);
   (0xFEFF, 0xFEFF); (0xFF07, 0xFF07); (0xFF0E, 0xFF0E); (0xFF1A, 0xFF1A);
   (0xFF3E, 0xFF3E); (0xFF40, 0xFF40); (0xFF70, 0xFF70); (0xFF9E, 0xFF9F);
   (0xFFE3, 0xFFE3); (0xFFF9, 0xFFFB); (0x101FD, 0x101FD); (0x102E0, 0x102E0);
   (0x10376, 0x1037A); (0x10780, 0x10785); (0x10787, 0x107B0);
   (0x107B2, 0x107BA); (0x10A01, 0x10A03); (0x10A05, 0x10A06);
   (0x10A0C, 0x10A0F); (0x10A38, 0x10A3A); (0x10A3F, 0x10A3F);
   (0x10AE5, 0x10AE6); (0x10D24, 0x10D27); (0x10EAB, 0x10EAC);
   (0x10F46, 0x10F50); (0x10F82, 0x10F85); (0x11001, 0x11001);
   (0x11038, 0x11046); (0x11070, 0x11070); (0x11073, 0x11074);
   (0x1107F, 0x11081); (0x110B3, 0x110B6); (0x110B9, 0x110BA);
   (0x110BD, 0x110BD); (0x110C2, 0x110C2); (0x110CD, 0x110CD);
   (0x11100, 0x11102); (0x11127, 0x1112B); (0x1112D, 0x11134);
   (0x11173, 0x11173); (0x11180, 0x11181); (0x111B6, 0x111BE);
   (0x111C9, 0x111CC); (0x111CF, 0x111CF); (0x1122F, 0x11231);
   (0x11234, 0x11234); (0x11236, 0x11237); (0x1123E, 0x1123E);
   (0x112DF, 0x112DF); (0x112E3, 0x112EA); (0x11300, 0x11301);
   (0x1133B, 0x1133C); (0x11340, 0x11340); (0x11366, 0x1136C);
   (0x11370, 0x11374); (0x11438, 0x1143F); (0x11442, 0x11444);
   (0x11446, 0x11446); (0x1145E, 0x1145E); (0x114B3, 0x114B8);
   (0x114BA, 0x114BA); (0x114BF, 0x114C0); (0x114C2, 0x114C3);
   (0x115B2, 0x115B5); (0x115BC, 0x115BD); (0x115BF, 0x115C0);
   (0x115DC, 0x115DD); (0x11633, 0x1163A); (0x1163D, 0x1163D);
   (0x1163F, 0x11640); (0x116AB, 0x116AB); (0x116AD, 0x116AD);
   (0x116B0, 0x116B5); (0x116B7, 0x116B7); (0x1171D, 0x1171F);
   (0x11722, 0x11725); (0x11727, 0x1172B); (0x1182F, 0x11837);
   (0x11839, 0x1183A); (0x1193B, 0x1193C); (0x1193E, 0x1193E);
   (0x11943, 0x11943); (0x119D4, 0x119D7); (0x119DA, 0x119DB);
   (0x119E0, 0x119E0); (0x11A01, 0x11A0A); (0x11A33, 0x11A38);
   (0x11A3B, 0x11A3E); (0x11A47, 0x11A47); (0x11A51, 0x11A56);
   (0x11A59, 0x11A5B); (0x11A8A, 0x11A96); (0x11A98, 0x11A99);
   (0x11C30, 0x11C36); (0x11C38, 0x11C3D); (0x11C3F, 0x11C3F);
   (0x11C92, 0x11CA7); (0x11CAA, 0x11CB0); (0x11CB2, 0x11CB3);
   (0x11CB5, 0x11CB6); (0x11D31, 0x11D36); (0x11D3A, 0x11D3A);
   (0x11D3C, 0x11D3D); (0x11D3F, 0x11D45); (0x11D47, 0x11D47);
   (0x11D90, 0x11D91); (0x11D95, 0x11D95); (0x11D97, 0x11D97);
   (0x11EF3, 0x11EF4); (0x13430, 0x13438); (0x16AF0, 0x16AF4);
   (0x16B30, 0x16B36); (0x16B40, 0x16B43); (0x16F4F, 0x16F4F);
   (0x16F8F, 0x16F9F); (0x16FE0, 0x16FE1); (0x16FE3, 0x16FE4);
   (0x1AFF0, 0x1AFF3); (0x1AFF5, 0x1AFFB); (0x1AFFD, 0x1AFFE);
   (0x1BC9D, 0x1BC9E); (0x1BCA0, 0x1BCA3); (0x1CF00, 0x1CF2D);
   (0x1CF30, 0x1CF46); (0x1D167, 0x1D169); (0x1D173, 0x1D182);
   (0x1D185, 0x1D18B); (0x1D1AA, 0x1D1AD); (0x1D242, 0x1D244);
   (0x1DA00, 0x1DA36); (0x1DA3B, 0x1DA6C); (0x1DA75, 0x1DA75);
   (0x1DA84, 0x1DA84); (0x1DA9B, 0x1DA9F); (0x1DAA1, 0x1DAAF);
   (0x1E000, 0x1E006); (0x1E008, 0x1E018); (0x1E01B, 0x1E021);
   (0x1E023, 0x1E024); (0x1E026, 0x1E02A); (0x1E130, 0x1E13D);
   (0x1E2AE, 0x1E2AE); (0x1E2EC, 0x1E2EF); (0x1E8D0, 0x1E8D6);
   (0x1E944, 0x1E94B); (0x1F3FB, 0x1F3FF); (0xE0001, 0xE0001);
   (0xE0020, 0xE007F); (0xE0100, 0xE01EF) ]%N.

(** The code points [str.isalnum] accepts. *)
Definition Alphanumeric : list (N * N) :=
  [
   (0x30, 0x39); (0x41, 0x5A); (0x61, 0x7A); (0xAA, 0xAA); (0xB2, 0xB3);
   (0xB5, 0xB5); (0xB9, 0xBA); (0xBC, 0xBE); (0xC0, 0xD6); (0xD8, 0xF6);
   (0xF8, 0x2C1); (0x2C6, 0x2D1); (0x2E0, 0x2E4); (0x2EC, 0x2EC);
   (0x2EE, 0x2EE); (0x370, 0x374); (0x376, 0x377); (0x37A, 0x37D);
   (0x37F, 0x37F); (0x386, 0x386); (0x388, 0x38A); (0x38C, 0x38C);
   (0x38E, 0x3A1); (0x3A3, 0x3F5); (0x3F7, 0x481); (0x48A, 0x52F);
   (0x531, 0x556); (0x559, 0x559); (0x560, 0x588); (0x5D0, 0x5EA);
   (0x5EF, 0x5F2); (0x620, 0x64A); (0x660, 0x669); (0x66E, 0x66F);
   (0x671, 0x6D3); (0x6D5, 0x6D5); (0x6E5, 0x6E6); (0x6EE, 0x6FC);
   (0x6FF, 0x6FF); (0x710, 0x710); (0x712, 0x72F); (0x74D, 0x7A5);
   (0x7B1, 0x7B1); (0x7C0, 0x7EA); (0x7F4, 0x7F5); (0x7FA, 0x7FA);
   (0x800, 0x815); (0x81A, 0x81A); (0x824, 0x824); (0x828, 0x828);
   (0x840, 0x858); (0x860, 0x86A); (0x870, 0x887); (0x889, 0x88E);
   (0x8A0, 0x8C9); (0x904, 0x939); (0x93D, 0x93D); (0x950, 0x950);
   (0x958, 0x961); (0x966, 0x96F); (0x971, 0x980); (0x985, 0x98C);
   (0x98F, 0x990); (0x993, 0x9A8); (0x9AA, 0x9B0); (0x9B2, 0x9B2);
   (0x9B6, 0x9B9); (0x9BD, 0x9BD); (0x9CE, 0x9CE); (0x9DC, 0x9DD);
   (0x9DF, 0x9E1); (0x9E6, 0x9F1); (0x9F4, 0x9F9); (0x9FC, 0x9FC);
   (0xA05, 0xA0A); (0xA0F, 0xA10); (0xA13, 0xA28); (0xA2A, 0xA30);
   (0xA32, 0xA33); (0xA35, 0xA36); (0xA38, 0xA39); (0xA59, 0xA5C);
   (0xA5E, 0xA5E); (0xA66, 0xA6F); (0xA72, 0xA74); (0xA85, 0xA8D);
   (0xA8F, 0xA91); (0xA93, 0xAA8); (0xAAA, 0xAB0); (0xAB2, 0xAB3);
   (0xAB5, 0xAB9); (0xABD, 0xABD); (0xAD0, 0xAD0); (0xAE0, 0xAE1);
   (0xAE6, 0xAEF); (0xAF9, 0xAF9); (0xB05, 0xB0C); (0xB0F, 0xB10);
   (0xB13, 0xB28); (0xB2A, 0xB30); (0xB32, 0xB33); (0xB35, 0xB39);
   (0xB3D, 0xB3D); (0xB5C, 0xB5D); (0xB5F, 0xB61); (0xB66, 0xB6F);
   (0xB71, 0xB77); (0xB83, 0xB83); (0xB85, 0xB8A); (0xB8E, 0xB90);
   (0xB92, 0xB95); (0xB99, 0xB9A); (0xB9C, 0xB9C); (0xB9E, 0xB9F);
   (0xBA3, 0xBA4); (0xBA8, 0xBAA); (0xBAE, 0xBB9); (0xBD0, 0xBD0);
   (0xBE6, 0xBF2); (0xC05, 0xC0C); (0xC0E, 0xC10); (0xC12, 0xC28);
   (0xC2A, 0xC39); (0xC3D, 0xC3D); (0xC58, 0xC5A); (0xC5D, 0xC5D);
   (0xC60, 0xC61); (0xC66, 0xC6F); (0xC78, 0xC7E); (0xC80, 0xC80);
   (0xC85, 0xC8C); (0xC8E, 0xC90); (0xC92, 0xCA8); (0xCAA, 0xCB3);
   (0xCB5, 0xCB9); (0xCBD, 0xCBD); (0xCDD, 0xCDE); (0xCE0, 0xCE1);
   (0xCE6, 0xCEF); (0xCF1, 0xCF2); (0xD04, 0xD0C); (0xD0E, 0xD10);
   (0xD12, 0xD3A); (0xD3D, 0xD3D); (0xD4E, 0xD4E); (0xD54, 0xD56);
   (0xD58, 0xD61); (0xD66, 0xD78); (0xD7A, 0xD7F); (0xD85, 0xD96);
   (0xD9A, 0xDB1); (0xDB3, 0xDBB); (0xDBD, 0xDBD); (0xDC0, 0xDC6);
   (0xDE6, 0xDEF); (0xE01, 0xE30); (0xE32, 0xE33); (0xE40, 0xE46);
   (0xE50, 0xE59); (0xE81, 0xE82); (0xE84, 0xE84); (0xE86, 0xE8A);
   (0xE8C, 0xEA3); (0xEA5, 0xEA5); (0xEA7, 0xEB0); (0xEB2, 0xEB3);
   (0xEBD, 0xEBD); (0xEC0, 0xEC4); (0xEC6, 0xEC6); (0xED0, 0xED9);
   (0xEDC, 0xEDF); (0xF00, 0xF00); (0xF20, 0xF33); (0xF40, 0xF47);
   (0xF49, 0xF6C); (0xF88, 0xF8C); (0x1000, 0x102A); (0x103F, 0x1049);
   (0x1050, 0x1055); (0x105A, 0x105D); (0x1061, 0x1061); (0x1065, 0x1066);
   (0x106E, 0x1070); (0x1075, 0x1081); (0x108E, 0x108E); (0x1090, 0x1099);
   (0x10A0, 0x10C5); (0x10C7, 0x10C7); (0x10CD, 0x10CD); (0x10D0, 0x10FA);
   (0x10FC, 0x1248); (0x124A, 0x124D); (0x1250, 0x1256); (0x1258, 0x1258);
   (0x125A, 0x125D); (0x1260, 0x1288); (0x128A, 0x128D); (0x1290, 0x12B0);
   (0x12B2, 0x12B5); (0x12B8, 0x12BE); (0x12C0, 0x12C0); (0x12C2, 0x12C5);
   (0x12C8, 0x12D6); (0x12D8, 0x1310); (0x1312, 0x1315); (0x1318, 0x135A);
   (0x1369, 0x137C); (0x1380, 0x138F); (0x13A0, 0x13F5); (0x13F8, 0x13FD);
   (0x1401, 0x166C); (0x166F, 0x167F); (0x1681, 0x169A); (0x16A0, 0x16EA);
   (0x16EE, 0x16F8); (0x1700, 0x1711); (0x171F, 0x1731); (0x1740, 0x1751);
   (0x1760, 0x176C); (0x176E, 0x1770); (0x1780, 0x17B3); (0x17D7, 0x17D7);
   (0x17DC, 0x17DC); (0x17E0, 0x17E9); (0x17F0, 0x17F9); (0x1810, 0x1819);
   (0x1820, 0x1878); (0x1880, 0x1884); (0x1887, 0x18A8); (0x18AA, 0x18AA);
   (0x18B0, 0x18F5); (0x1900, 0x191E); (0x1946, 0x196D); (0x1970, 0x1974);
   (0x1980, 0x19AB); (0x19B0, 0x19C9); (0x19D0, 0x19DA); (0x1A00, 0x1A16);
   (0x1A20, 0x1A54); (0x1A80, 0x1A89); (0x1A90, 0x1A99); (0x1AA7, 0x1AA7);
   (0x1B05, 0x1B33); (0x1B45, 0x1B4C); (0x1B50, 0x1B59); (0x1B83, 0x1BA0);
   (0x1BAE, 0x1BE5); (0x1C00, 0x1C23); (0x1C40, 0x1C49); (0x1C4D, 0x1C7D);
   (0x1C80, 0x1C88); (0x1C90, 0x1CBA); (0x1CBD, 0x1CBF); (0x1CE9, 0x1CEC);
   (0x1CEE, 0x1CF3); (0x1CF5, 0x1CF6); (0x1CFA, 0x1CFA); (0x1D00, 0x1DBF);
   (0x1E00, 0x1F15); (0x1F18, 0x1F1D); (0x1F20, 0x1F45); (0x1F48, 0x1F4D);
   (0x1F50, 0x1F57); (0x1F59, 0x1F59); (0x1F5B, 0x1F5B); (0x1F5D, 0x1F5D);
   (0x1F5F, 0x1F7D); (0x1F80, 0x1FB4); (0x1FB6, 0x1FBC); (0x1FBE, 0x1FBE);
   (0x1FC2, 0x1FC4); (0x1FC6, 0x1FCC); (0x1FD0, 0x1FD3); (0x1FD6, 0x1FDB);
   (0x1FE0, 0x1FEC); (0x1FF2, 0x1FF4); (0x1FF6, 0x1FFC); (0x2070, 0x2071);
   (0x2074, 0x2079); (0x207F, 0x2089); (0x2090, 0x209C); (0x2102, 0x2102);
   (0x2107, 0x2107); (0x210A, 0x2113); (0x2115, 0x2115); (0x2119, 0x211D);
   (0x2124, 0x2124); (0x2126, 0x2126); (0x2128, 0x2128); (0x212A, 0x212D);
   (0x212F, 0x2139); (0x213C, 0x213F); (0x2145, 0x2149); (0x214E, 0x214E);
   (0x2150, 0x2189); (0x2460, 0x249B); (0x24EA, 0x24FF); (0x2776, 0x2793);
   (0x2C00, 0x2CE4); (0x2CEB, 0x2CEE); (0x2CF2, 0x2CF3); (0x2CFD, 0x2CFD);
   (0x2D00, 0x2D25); (0x2D27, 0x2D27); (0x2D2D, 0x2D2D); (0x2D30, 0x2D67);
   (0x2D6F, 0x2D6F); (0x2D80, 0x2D96); (0x2DA0, 0x2DA6); (0x2DA8, 0x2DAE);
   (0x2DB0, 0x2DB6); (0x2DB8, 0x2DBE); (0x2DC0, 0x2DC6); (0x2DC8, 0x2DCE);
   (0x2DD0, 0x2DD6); (0x2DD8, 0x2DDE); (0x2E2F, 0x2E2F); (0x3005, 0x3007);
   (0x3021, 0x3029); (0x3031, 0x3035); (0x3038, 0x303C); (0x3041, 0x3096);
   (0x309D, 0x309F); (0x30A1, 0x30FA); (0x30FC, 0x30FF); (0x3105, 0x312F);
   (0x3131, 0x318E); (0x3192, 0x3195); (0x31A0, 0x31BF); (0x31F0, 0x31FF);
   (0x3220, 0x3229); (0x3248, 0x324F); (0x3251, 0x325F); (0x3280, 0x3289);
   (0x32B1, 0x32BF); (0x3400, 0x4DBF); (0x4E00, 0xA48C); (0xA4D0, 0xA4FD);
   (0xA500, 0xA60C); (0xA610, 0xA62B); (0xA640, 0xA66E); (0xA67F, 0xA69D);
   (0xA6A0, 0xA6EF); (0xA717, 0xA71F); (0xA722, 0xA788); (0xA78B, 0xA7CA);
   (0xA7D0, 0xA7D1); (0xA7D3, 0xA7D3); (0xA7D5, 0xA7D9); (0xA7F2, 0xA801);
   (0xA803, 0xA805); (0xA807, 0xA80A); (0xA80C, 0xA822); (0xA830, 0xA835);
   (0xA840, 0xA873); (0xA882, 0xA8B3); (0xA8D0, 0xA8D9); (0xA8F2, 0xA8F7);
   (0xA8FB, 0xA8FB); (0xA8FD, 0xA8FE); (0xA900, 0xA925); (0xA930, 0xA946);
   (0xA960, 0xA97C); (0xA984, 0xA9B2); (0xA9CF, 0xA9D9); (0xA9E0, 0xA9E4);
   (0xA9E6, 0xA9FE); (0xAA00, 0xAA28); (0xAA40, 0xAA42); (0xAA44, 0xAA4B);
   (0xAA50, 0xAA59); (0xAA60, 0xAA76); (0xAA7A, 0xAA7A); (0xAA7E, 0xAAAF);
   (0xAAB1, 0xAAB1); (0xAAB5, 0xAAB6); (0xAAB9, 0xAABD); (0xAAC0, 0xAAC0);
   (0xAAC2, 0xAAC2); (0xAADB, 0xAADD); (0xAAE0, 0xAAEA); (0xAAF2, 0xAAF4);
   (0xAB01, 0xAB06); (0xAB09, 0xAB0E); (0xAB11, 0xAB16); (0xAB20, 0xAB26);
   (0xAB28, 0xAB2E); (0xAB30, 0xAB5A); (0xAB5C, 0xAB69); (0xAB70, 0xABE2);
   (0xABF0, 0xABF9); (0xAC00, 0xD7A3); (0xD7B0, 0xD7C6); (0xD7CB, 0xD7FB);
   (0xF900, 0xFA6D); (0xFA70, 0xFAD9); (0xFB00, 0xFB06); (0xFB13, 0xFB17);
   (0xFB1D, 0xFB1D); (0xFB1F, 0xFB28); (0xFB2A, 0xFB36); (0xFB38, 0xFB3C);
   (0xFB3E, 0xFB3E); (0xFB40, 0xFB41); (0xFB43, 0xFB44); (0xFB46, 0xFBB1);
   (0xFBD3, 0xFD3D); (0xFD50, 0xFD8F); (0xFD92, 0xFDC7); (0xFDF0, 0xFDFB);
   (0xFE70, 0xFE74); (0xFE76, 0xFEFC); (0xFF10, 0xFF19); (0xFF21, 0xFF3A);
   (0xFF41, 0xFF5A); (0xFF66, 0xFFBE); (0xFFC2, 0xFFC7); (0xFFCA, 0xFFCF);
   (0xFFD2, 0xFFD7); (0xFFDA, 0xFFDC); (0x10000, 0x1000B); (0x1000D, 0x10026);
   (0x10028, 0x1003A); (0x1003C, 0x1003D); (0x1003F, 0x1004D);
   (0x10050, 0x1005D); (0x10080, 0x100FA); (0x10107, 0x10133);
   (0x10140, 0x10178); (0x1018A, 0x1018B); (0x10280, 0x1029C);
   (0x102A0, 0x102D0); (0x102E1, 0x102FB); (0x10300, 0x10323);
   (0x1032D, 0x1034A); (0x10350, 0x10375); (0x10380, 0x1039D);
   (0x103A0, 0x103C3); (0x103C8, 0x103CF); (0x103D1, 0x103D5);
   (0x10400, 0x1049D); (0x104A0, 0x104A9); (0x104B0, 0x104D3);
   (0x104D8, 0x104FB); (0x10500, 0x10527); (0x10530, 0x10563);
   (0x10570, 0x1057A); (0x1057C, 0x1058A); (0x1058C, 0x10592);
   (0x10594, 0x10595); (0x10597, 0x105A1); (0x105A3, 0x105B1);
   (0x105B3, 0x105B9); (0x105BB, 0x105BC); (0x10600, 0x10736);
   (0x10740, 0x10755); (0x10760, 0x10767); (0x10780, 0x10785);
   (0x10787, 0x107B0); (0x107B2, 0x107BA); (0x10800, 0x10805);
   (0x10808, 0x10808); (0x1080A, 0x10835); (0x10837, 0x10838);
   (0x1083C, 0x1083C); (0x1083F, 0x10855); (0x10858, 0x10876);
   (0x10879, 0x1089E); (0x108A7, 0x108AF); (0x108E0, 0x108F2);
   (0x108F4, 0x108F5); (0x108FB, 0x1091B); (0x10920, 0x10939);
   (0x10980, 0x109B7); (0x109BC, 0x109CF); (0x109D2, 0x10A00);
   (0x10A10, 0x10A13); (0x10A15, 0x10A17); (0x10A19, 0x10A35);
   (0x10A40, 0x10A48); (0x10A60, 0x10A7E); (0x10A80, 0x10A9F);
   (0x10AC0, 0x10AC7); (0x10AC9, 0x10AE4); (0x10AEB, 0x10AEF);
   (0x10B00, 0x10B35); (0x10B40, 0x10B55); (0x10B58, 0x10B72);
   (0x10B78, 0x10B91); (0x10BA9, 0x10BAF); (0x10C00, 0x10C48);
   (0x10C80, 0x10CB2); (0x10CC0, 0x10CF2); (0x10CFA, 0x10D23);
   (0x10D30, 0x10D39); (0x10E60, 0x10E7E); (0x10E80, 0x10EA9);
   (0x10EB0, 0x10EB1); (0x10F00, 0x10F27); (0x10F30, 0x10F45);
   (0x10F51, 0x10F54); (0x10F70, 0x10F81); (0x10FB0, 0x10FCB);
   (0x10FE0, 0x10FF6); (0x11003, 0x11037); (0x11052, 0x1106F);
   (0x11071, 0x11072); (0x11075, 0x11075); (0x11083, 0x110AF);
   (0x110D0, 0x110E8); (0x110F0, 0x110F9); (0x11103, 0x11126);
   (0x11136, 0x1113F); (0x11144, 0x11144); (0x11147, 0x11147);
   (0x11150, 0x11172); (0x11176, 0x11176); (0x11183, 0x111B2);
   (0x111C1, 0x111C4); (0x111D0, 0x111DA); (0x111DC, 0x111DC);
   (0x111E1, 0x111F4); (0x11200, 0x11211); (0x11213, 0x1122B);
   (0x11280, 0x11286); (0x11288, 0x11288); (0x1128A, 0x1128D);
   (0x1128F, 0x1129D); (0x1129F, 0x112A8); (0x112B0, 0x112DE);
   (0x112F0, 0x112F9); (0x11305, 0x1130C); (0x1130F, 0x11310);
   (0x11313, 0x11328); (0x1132A, 0x11330); (0x11332, 0x11333);
   (0x11335, 0x11339); (0x1133D, 0x1133D); (0x11350, 0x11350);
   (0x1135D, 0x11361); (0x11400, 0x11434); (0x11447, 0x1144A);
   (0x11450, 0x11459); (0x1145F, 0x11461); (0x11480, 0x114AF);
   (0x114C4, 0x114C5); (0x114C7, 0x114C7); (0x114D0, 0x114D9);
   (0x11580, 0x115AE); (0x115D8, 0x115DB); (0x11600, 0x1162F);
   (0x11644, 0x11644); (0x11650, 0x11659); (0x11680, 0x116AA);
   (0x116B8, 0x116B8); (0x116C0, 0x116C9); (0x11700, 0x1171A);
   (0x11730, 0x1173B); (0x11740, 0x11746); (0x11800, 0x1182B);
   (0x118A0, 0x118F2); (0x118FF, 0x11906); (0x11909, 0x11909);
   (0x1190C, 0x11913); (0x11915, 0x11916); (0x11918, 0x1192F);
   (0x1193F, 0x1193F); (0x11941, 0x11941); (0x11950, 0x11959);
   (0x119A0, 0x119A7); (0x119AA, 0x119D0); (0x119E1, 0x119E1);
   (0x119E3, 0x119E3); (0x11A00, 0x11A00); (0x11A0B, 0x11A32);
   (0x11A3A, 0x11A3A); (0x11A50, 0x11A50); (0x11A5C, 0x11A89);
   (0x11A9D, 0x11A9D); (0x11AB0, 0x11AF8); (0x11C00, 0x11C08);
   (0x11C0A, 0x11C2E); (0x11C40, 0x11C40); (0x11C50, 0x11C6C);
   (0x11C72, 0x11C8F); (0x11D00, 0x11D06); (0x11D08, 0x11D09);
   (0x11D0B, 0x11D30); (0x11D46, 0x11D46); (0x11D50, 0x11D59);
   (0x11D60, 0x11D65); (0x11D67, 0x11D68); (0x11D6A, 0x11D89);
   (0x11D98, 0x11D98); (0x11DA0, 0x11DA9); (0x11EE0, 0x11EF2);
   (0x11FB0, 0x11FB0); (0x11FC0, 0x11FD4); (0x12000, 0x12399);
   (0x12400, 0x1246E); (0x12480, 0x12543); (0x12F90, 0x12FF0);
   (0x13000, 0x1342E); (0x14400, 0x14646); (0x16800, 0x16A38);
   (0x16A40, 0x16A5E); (0x16A60, 0x16A69); (0x16A70, 0x16ABE);
   (0x16AC0, 0x16AC9); (0x16AD0, 0x16AED); (0x16B00, 0x16B2F);
   (0x16B40, 0x16B43); (0x16B50, 0x16B59); (0x16B5B, 0x16B61);
   (0x16B63, 0x16B77); (0x16B7D, 0x16B8F); (0x16E40, 0x16E96);
   (0x16F00, 0x16F4A); (0x16F50, 0x16F50); (0x16F93, 0x16F9F);
   (0x16FE0, 0x16FE1); (0x16FE3, 0x16FE3); (0x17000, 0x187F7);
   (0x18800, 0x18CD5); (0x18D00, 0x18D08); (0x1AFF0, 0x1AFF3);
   (0x1AFF5, 0x1AFFB); (0x1AFFD, 0x1AFFE); (0x1B000, 0x1B122);
   (0x1B150, 0x1B152); (0x1B164, 0x1B167); (0x1B170, 0x1B2FB);
   (0x1BC00, 0x1BC6A); (0x1BC70, 0x1BC7C); (0x1BC80, 0x1BC88);
   (0x1BC90, 0x1BC99); (0x1D2E0, 0x1D2F3); (0x1D360, 0x1D378);
   (0x1D400, 0x1D454); (0x1D456, 0x1D49C); (0x1D49E, 0x1D49F);
   (0x1D4A2, 0x1D4A2); (0x1D4A5, 0x1D4A6); (0x1D4A9, 0x1D4AC);
   (0x1D4AE, 0x1D4B9); (0x1D4BB, 0x1D4BB); (0x1D4BD, 0x1D4C3);
   (0x1D4C5, 0x1D505); (0x1D507, 0x1D50A); (0x1D50D, 0x1D514);
   (0x1D516, 0x1D51C); (0x1D51E, 0x1D539); (0x1D53B, 0x1D53E);
   (0x1D540, 0x1D544); (0x1D546, 0x1D546); (0x1D54A, 0x1D550);
   (0x1D552, 0x1D6A5); (0x1D6A8, 0x1D6C0); (0x1D6C2, 0x1D6DA);
   (0x1D6DC, 0x1D6FA); (0x1D6FC, 0x1D714); (0x1D716, 0x1D734);
   (0x1D736, 0x1D74E); (0x1D750, 0x1D76E); (0x1D770, 0x1D788);
   (0x1D78A, 0x1D7A8); (0x1D7AA, 0x1D7C2); (0x1D7C4, 0x1D7CB);
   (0x1D7CE, 0x1D7FF); (0x1DF00, 0x1DF1E); (0x1E100, 0x1E12C);
   (0x1E137, 0x1E13D); (0x1E140, 0x1E149); (0x1E14E, 0x1E14E);
   (0x1E290, 0x1E2AD); (0x1E2C0, 0x1E2EB); (0x1E2F0, 0x1E2F9);
   (0x1E7E0, 0x1E7E6); (0x1E7E8, 0x1E7EB); (0x1E7ED, 0x1E7EE);
   (0x1E7F0, 0x1E7FE); (0x1E800, 0x1E8C4); (0x1E8C7, 0x1E8CF);
   (0x1E900, 0x1E943); (0x1E94B, 0x1E94B); (0x1E950, 0x1E959);
   (0x1EC71, 0x1ECAB); (0x1ECAD, 0x1ECAF); (0x1ECB1, 0x1ECB4);
   (0x1ED01, 0x1ED2D); (0x1ED2F, 0x1ED3D); (0x1EE00, 0x1EE03);
   (0x1EE05, 0x1EE1F); (0x1EE21, 0x1EE22); (0x1EE24, 0x1EE24);
   (0x1EE27, 0x1EE27); (0x1EE29, 0x1EE32); (0x1EE34, 0x1EE37);
   (0x1EE39, 0x1EE39); (0x1EE3B, 0x1EE3B); (0x1EE42, 0x1EE42);
   (0x1EE47, 0x1EE47); (0x1EE49, 0x1EE49); (0x1EE4B, 0x1EE4B);
   (0x1EE4D, 0x1EE4F); (0x1EE51, 0x1EE52); (0x1EE54, 0x1EE54);
   (0x1EE57, 0x1EE57); (0x1EE59, 0x1EE59); (0x1EE5B, 0x1EE5B);
   (0x1EE5D, 0x1EE5D); (0x1EE5F, 0x1EE5F); (0x1EE61, 0x1EE62);
   (0x1EE64, 0x1EE64); (0x1EE67, 0x1EE6A); (0x1EE6C, 0x1EE72);
   (0x1EE74, 0x1EE77); (0x1EE79, 0x1EE7C); (0x1EE7E, 0x1EE7E);
   (0x1EE80, 0x1EE89); (0x1EE8B, 0x1EE9B); (0x1EEA1, 0x1EEA3);
   (0x1EEA5, 0x1EEA9); (0x1EEAB, 0x1EEBB); (0x1F100, 0x1F10C);
   (0x1FBF0, 0x1FBF9); (0x20000, 0x2A6DF); (0x2A700, 0x2B738);
   (0x2B740, 0x2B81D); (0x2B820, 0x2CEA1); (0x2CEB0, 0x2EBE0);
   (0x2F800, 0x2FA1D); (0x30000, 0x3134A) ]%N.

(** The lower-case mappings of one code point to one code point, U+03A3 left out: the code points [lo], [lo + stride], ... up to [hi] go to [to], [to + stride], ... *)
Definition Lowercase_Mapping : list (N * N * N * N) :=
  [
   (0x41, 0x5A, 1, 0x61); (0xC0, 0xD6, 1, 0xE0); (0xD8, 0xDE, 1, 0xF8);
   (0x100, 0x12E, 2, 0x101); (0x132, 0x136, 2, 0x133);
   (0x139, 0x147, 2, 0x13A); (0x14A, 0x176, 2, 0x14B);
   (0x178, 0x178, 1, 0xFF); (0x179, 0x17D, 2, 0x17A);
   (0x181, 0x181, 1, 0x253); (0x182, 0x184, 2, 0x183);
   (0x186, 0x186, 1, 0x254); (0x187, 0x187, 1, 0x188);
   (0x189, 0x18A, 1, 0x256); (0x18B, 0x18B, 1, 0x18C);
   (0x18E, 0x18E, 1, 0x1DD); (0x18F, 0x18F, 1, 0x259);
   (0x190, 0x190, 1, 0x25B); (0x191, 0x191, 1, 0x192);
   (0x193, 0x193, 1, 0x260); (0x194, 0x194, 1, 0x263);
   (0x196, 0x196, 1, 0x269); (0x197, 0x197, 1, 0x268);
   (0x198, 0x198, 1, 0x199); (0x19C, 0x19C, 1, 0x26F);
   (0x19D, 0x19D, 1, 0x272); (0x19F, 0x19F, 1, 0x275);
   (0x1A0, 0x1A4, 2, 0x1A1); (0x1A6, 0x1A6, 1, 0x280);
   (0x1A7, 0x1A7, 1, 0x1A8); (0x1A9, 0x1A9, 1, 0x283);
   (0x1AC, 0x1AC, 1, 0x1AD); (0x1AE, 0x1AE, 1, 0x288);
   (0x1AF, 0x1AF, 1, 0x1B0); (0x1B1, 0x1B2, 1, 0x28A);
   (0x1B3, 0x1B5, 2, 0x1B4); (0x1B7, 0x1B7, 1, 0x292);
   (0x1B8, 0x1B8, 1, 0x1B9); (0x1BC, 0x1BC, 1, 0x1BD);
   (0x1C4, 0x1C4, 1, 0x1C6); (0x1C5, 0x1C5, 1, 0x1C6);
   (0x1C7, 0x1C7, 1, 0x1C9); (0x1C8, 0x1C8, 1, 0x1C9);
   (0x1CA, 0x1CA, 1, 0x1CC); (0x1CB, 0x1DB, 2, 0x1CC);
   (0x1DE, 0x1EE, 2, 0x1DF); (0x1F1, 0x1F1, 1, 0x1F3);
   (0x1F2, 0x1F4, 2, 0x1F3); (0x1F6, 0x1F6, 1, 0x195);
   (0x1F7, 0x1F7, 1, 0x1BF); (0x1F8, 0x21E, 2, 0x1F9);
   (0x220, 0x220, 1, 0x19E); (0x222, 0x232, 2, 0x223);
   (0x23A, 0x23A, 1, 0x2C65); (0x23B, 0x23B, 1, 0x23C);
   (0x23D, 0x23D, 1, 0x19A); (0x23E, 0x23E, 1, 0x2C66);
   (0x241, 0x241, 1, 0x242); (0x243, 0x243, 1, 0x180);
   (0x244, 0x244, 1, 0x289); (0x245, 0x245, 1, 0x28C);
   (0x246, 0x24E, 2, 0x247); (0x370, 0x372, 2, 0x371);
   (0x376, 0x376, 1, 0x377); (0x37F, 0x37F, 1, 0x3F3);
   (0x386, 0x386, 1, 0x3AC); (0x388, 0x38A, 1, 0x3AD);
   (0x38C, 0x38C, 1, 0x3CC); (0x38E, 0x38F, 1, 0x3CD);
   (0x391, 0x3A1, 1, 0x3B1); (0x3A4, 0x3AB, 1, 0x3C4);
   (0x3CF, 0x3CF, 1, 0x3D7); (0x3D8, 0x3EE, 2, 0x3D9);
   (0x3F4, 0x3F4, 1, 0x3B8); (0x3F7, 0x3F7, 1, 0x3F8);
   (0x3F9, 0x3F9, 1, 0x3F2); (0x3FA, 0x3FA, 1, 0x3FB);
   (0x3FD, 0x3FF, 1, 0x37B); (0x400, 0x40F, 1, 0x450);
   (0x410, 0x42F, 1, 0x430); (0x460, 0x480, 2, 0x461);
   (0x48A, 0x4BE, 2, 0x48B); (0x4C0, 0x4C0, 1, 0x4CF);
   (0x4C1, 0x4CD, 2, 0x4C2); (0x4D0, 0x52E, 2, 0x4D1);
   (0x531, 0x556, 1, 0x561); (0x10A0, 0x10C5, 1, 0x2D00);
   (0x10C7, 0x10C7, 1, 0x2D27); (0x10CD, 0x10CD, 1, 0x2D2D);
   (0x13A0, 0x13EF, 1, 0xAB70); (0x13F0, 0x13F5, 1, 0x13F8);
   (0x1C90, 0x1CBA, 1, 0x10D0); (0x1CBD, 0x1CBF, 1, 0x10FD);
   (0x1E00, 0x1E94, 2, 0x1E01); (0x1E9E, 0x1E9E, 1, 0xDF);
   (0x1EA0, 0x1EFE, 2, 0x1EA1); (0x1F08, 0x1F0F, 1, 0x1F00);
   (0x1F18, 0x1F1D, 1, 0x1F10); (0x1F28, 0x1F2F, 1, 0x1F20);
   (0x1F38, 0x1F3F, 1, 0x1F30); (0x1F48, 0x1F4D, 1, 0x1F40);
   (0x1F59, 0x1F5F, 2, 0x1F51); (0x1F68, 0x1F6F, 1, 0x1F60);
   (0x1F88, 0x1F8F, 1, 0x1F80); (0x1F98, 0x1F9F, 1, 0x1F90);
   (0x1FA8, 0x1FAF, 1, 0x1FA0); (0x1FB8, 0x1FB9, 1, 0x1FB0);
   (0x1FBA, 0x1FBB, 1, 0x1F70); (0x1FBC, 0x1FBC, 1, 0x1FB3);
   (0x1FC8, 0x1FCB, 1, 0x1F72); (0x1FCC, 0x1FCC, 1, 0x1FC3);
   (0x1FD8, 0x1FD9, 1, 0x1FD0); (0x1FDA, 0x1FDB, 1, 0x1F76);
   (0x1FE8, 0x1FE9, 1, 0x1FE0); (0x1FEA, 0x1FEB, 1, 0x1F7A);
   (0x1FEC, 0x1FEC, 1, 0x1FE5); (0x1FF8, 0x1FF9, 1, 0x1F78);
   (0x1FFA, 0x1FFB, 1, 0x1F7C); (0x1FFC, 0x1FFC, 1, 0x1FF3);
   (0x2126, 0x2126, 1, 0x3C9); (0x212A, 0x212A, 1, 0x6B);
   (0x212B, 0x212B, 1, 0xE5); (0x2132, 0x2132, 1, 0x214E);
   (0x2160, 0x216F, 1, 0x2170); (0x2183, 0x2183, 1, 0x2184);
   (0x24B6, 0x24CF, 1, 0x24D0); (0x2C00, 0x2C2F, 1, 0x2C30);
   (0x2C60, 0x2C60, 1, 0x2C61); (0x2C62, 0x2C62, 1, 0x26B);
   (0x2C63, 0x2C63, 1, 0x1D7D); (0x2C64, 0x2C64, 1, 0x27D);
   (0x2C67, 0x2C6B, 2, 0x2C68); (0x2C6D, 0x2C6D, 1, 0x251);
   (0x2C6E, 0x2C6E, 1, 0x271); (0x2C6F, 0x2C6F, 1, 0x250);
   (0x2C70, 0x2C70, 1, 0x252); (0x2C72, 0x2C72, 1, 0x2C73);
   (0x2C75, 0x2C75, 1, 0x2C76); (0x2C7E, 0x2C7F, 1, 0x23F);
   (0x2C80, 0x2CE2, 2, 0x2C81); (0x2CEB, 0x2CED, 2, 0x2CEC);
   (0x2CF2, 0x2CF2, 1, 0x2CF3); (0xA640, 0xA66C, 2, 0xA641);
   (0xA680, 0xA69A, 2, 0xA681); (0xA722, 0xA72E, 2, 0xA723);
   (0xA732, 0xA76E, 2, 0xA733); (0xA779, 0xA77B, 2, 0xA77A);
   (0xA77D, 0xA77D, 1, 0x1D79); (0xA77E, 0xA786, 2, 0xA77F);
   (0xA78B, 0xA78B, 1, 0xA78C); (0xA78D, 0xA78D, 1, 0x265);
   (0xA790, 0xA792, 2, 0xA791); (0xA796, 0xA7A8, 2, 0xA797);
   (0xA7AA, 0xA7AA, 1, 0x266); (0xA7AB, 0xA7AB, 1, 0x25C);
   (0xA7AC, 0xA7AC, 1, 0x261); (0xA7AD, 0xA7AD, 1, 0x26C);
   (0xA7AE, 0xA7AE, 1, 0x26A); (0xA7B0, 0xA7B0, 1, 0x29E);
   (0xA7B1, 0xA7B1, 1, 0x287); (0xA7B2, 0xA7B2, 1, 0x29D);
   (0xA7B3, 0xA7B3, 1, 0xAB53); (0xA7B4, 0xA7C2, 2, 0xA7B5);
   (0xA7C4, 0xA7C4, 1, 0xA794); (0xA7C5, 0xA7C5, 1, 0x282);
   (0xA7C6, 0xA7C6, 1, 0x1D8E); (0xA7C7, 0xA7C9, 2, 0xA7C8);
   (0xA7D0, 0xA7D0, 1, 0xA7D1); (0xA7D6, 0xA7D8, 2, 0xA7D7);
   (0xA7F5, 0xA7F5, 1, 0xA7F6); (0xFF21, 0xFF3A, 1, 0xFF41);
   (0x10400, 0x10427, 1, 0x10428); (0x104B0, 0x104D3, 1, 0x104D8);
   (0x10570, 0x1057A, 1, 0x10597); (0x1057C, 0x1058A, 1, 0x105A3);
   (0x1058C, 0x10592, 1, 0x105B3); (0x10594, 0x10595, 1, 0x105BB);
   (0x10C80, 0x10CB2, 1, 0x10CC0); (0x118A0, 0x118BF, 1, 0x118C0);
   (0x16E40, 0x16E5F, 1, 0x16E60); (0x1E900, 0x1E921, 1, 0x1E922) ]%N.

(** The title-case mappings of one code point to one code point. *)
Definition Titlecase_Mapping : list (N * N * N * N) :=
  [
   (0x61, 0x7A, 1, 0x41); (0xB5, 0xB5, 1, 0x39C); (0xE0, 0xF6, 1, 0xC0);
   (0xF8, 0xFE, 1, 0xD8); (0xFF, 0xFF, 1, 0x178); (0x101, 0x12F, 2, 0x100);
   (0x131, 0x131, 1, 0x49); (0x133, 0x137, 2, 0x132);
   (0x13A, 0x148, 2, 0x139); (0x14B, 0x177, 2, 0x14A);
   (0x17A, 0x17E, 2, 0x179); (0x17F, 0x17F, 1, 0x53);
   (0x180, 0x180, 1, 0x243); (0x183, 0x185, 2, 0x182);
   (0x188, 0x188, 1, 0x187); (0x18C, 0x18C, 1, 0x18B);
   (0x192, 0x192, 1, 0x191); (0x195, 0x195, 1, 0x1F6);
   (0x199, 0x199, 1, 0x198); (0x19A, 0x19A, 1, 0x23D);
   (0x19E, 0x19E, 1, 0x220); (0x1A1, 0x1A5, 2, 0x1A0);
   (0x1A8, 0x1A8, 1, 0x1A7); (0x1AD, 0x1AD, 1, 0x1AC);
   (0x1B0, 0x1B0, 1, 0x1AF); (0x1B4, 0x1B6, 2, 0x1B3);
   (0x1B9, 0x1B9, 1, 0x1B8); (0x1BD, 0x1BD, 1, 0x1BC);
   (0x1BF, 0x1BF, 1, 0x1F7); (0x1C4, 0x1C4, 1, 0x1C5);
   (0x1C6, 0x1C6, 1, 0x1C5); (0x1C7, 0x1C7, 1, 0x1C8);
   (0x1C9, 0x1C9, 1, 0x1C8); (0x1CA, 0x1CA, 1, 0x1CB);
   (0x1CC, 0x1DC, 2, 0x1CB); (0x1DD, 0x1DD, 1, 0x18E);
   (0x1DF, 0x1EF, 2, 0x1DE); (0x1F1, 0x1F1, 1, 0x1F2);
   (0x1F3, 0x1F5, 2, 0x1F2); (0x1F9, 0x21F, 2, 0x1F8);
   (0x223, 0x233, 2, 0x222); (0x23C, 0x23C, 1, 0x23B);
   (0x23F, 0x240, 1, 0x2C7E); (0x242, 0x242, 1, 0x241);
   (0x247, 0x24F, 2, 0x246); (0x250, 0x250, 1, 0x2C6F);
   (0x251, 0x251, 1, 0x2C6D); (0x252, 0x252, 1, 0x2C70);
   (0x253, 0x253, 1, 0x181); (0x254, 0x254, 1, 0x186);
   (0x256, 0x257, 1, 0x189); (0x259, 0x259, 1, 0x18F);
   (0x25B, 0x25B, 1, 0x190); (0x25C, 0x25C, 1, 0xA7AB);
   (0x260, 0x260, 1, 0x193); (0x261, 0x261, 1, 0xA7AC);
   (0x263, 0x263, 1, 0x194); (0x265, 0x265, 1, 0xA78D);
   (0x266, 0x266, 1, 0xA7AA); (0x268, 0x268, 1, 0x197);
   (0x269, 0x269, 1, 0x196); (0x26A, 0x26A, 1, 0xA7AE);
   (0x26B, 0x26B, 1, 0x2C62); (0x26C, 0x26C, 1, 0xA7AD);
   (0x26F, 0x26F, 1, 0x19C); (0x271, 0x271, 1, 0x2C6E);
   (0x272, 0x272, 1, 0x19D); (0x275, 0x275, 1, 0x19F);
   (0x27D, 0x27D, 1, 0x2C64); (0x280, 0x280, 1, 0x1A6);
   (0x282, 0x282, 1, 0xA7C5); (0x283, 0x283, 1, 0x1A9);
   (0x287, 0x287, 1, 0xA7B1); (0x288, 0x288, 1, 0x1AE);
   (0x289, 0x289, 1, 0x244); (0x28A, 0x28B, 1, 0x1B1);
   (0x28C, 0x28C, 1, 0x245); (0x292, 0x292, 1, 0x1B7);
   (0x29D, 0x29D, 1, 0xA7B2); (0x29E, 0x29E, 1, 0xA7B0);
   (0x345, 0x345, 1, 0x399); (0x371, 0x373, 2, 0x370);
   (0x377, 0x377, 1, 0x376); (0x37B, 0x37D, 1, 0x3FD);
   (0x3AC, 0x3AC, 1, 0x386); (0x3AD, 0x3AF, 1, 0x388);
   (0x3B1, 0x3C1, 1, 0x391); (0x3C2, 0x3C2, 1, 0x3A3);
   (0x3C3, 0x3CB, 1, 0x3A3); (0x3CC, 0x3CC, 1, 0x38C);
   (0x3CD, 0x3CE, 1, 0x38E); (0x3D0, 0x3D0, 1, 0x392);
   (0x3D1, 0x3D1, 1, 0x398); (0x3D5, 0x3D5, 1, 0x3A6);
   (0x3D6, 0x3D6, 1, 0x3A0); (0x3D7, 0x3D7, 1, 0x3CF);
   (0x3D9, 0x3EF, 2, 0x3D8); (0x3F0, 0x3F0, 1, 0x39A);
   (0x3F1, 0x3F1, 1, 0x3A1); (0x3F2, 0x3F2, 1, 0x3F9);
   (0x3F3, 0x3F3, 1, 0x37F); (0x3F5, 0x3F5, 1, 0x395);
   (0x3F8, 0x3F8, 1, 0x3F7); (0x3FB, 0x3FB, 1, 0x3FA);
   (0x430, 0x44F, 1, 0x410); (0x450, 0x45F, 1, 0x400);
   (0x461, 0x481, 2, 0x460); (0x48B, 0x4BF, 2, 0x48A);
   (0x4C2, 0x4CE, 2, 0x4C1); (0x4CF, 0x4CF, 1, 0x4C0);
   (0x4D1, 0x52F, 2, 0x4D0); (0x561, 0x586, 1, 0x531);
   (0x13F8, 0x13FD, 1, 0x13F0); (0x1C80, 0x1C80, 1, 0x412);
   (0x1C81, 0x1C81, 1, 0x414); (0x1C82, 0x1C82, 1, 0x41E);
   (0x1C83, 0x1C84, 1, 0x421); (0x1C85, 0x1C85, 1, 0x422);
   (0x1C86, 0x1C86, 1, 0x42A); (0x1C87, 0x1C87, 1, 0x462);
   (0x1C88, 0x1C88, 1, 0xA64A); (0x1D79, 0x1D79, 1, 0xA77D);
   (0x1D7D, 0x1D7D, 1, 0x2C63); (0x1D8E, 0x1D8E, 1, 0xA7C6);
   (0x1E01, 0x1E95, 2, 0x1E00); (0x1E9B, 0x1E9B, 1, 0x1E60);
   (0x1EA1, 0x1EFF, 2, 0x1EA0); (0x1F00, 0x1F07, 1, 0x1F08);
   (0x1F10, 0x1F15, 1, 0x1F18); (0x1F20, 0x1F27, 1, 0x1F28);
   (0x1F30, 0x1F37, 1, 0x1F38); (0x1F40, 0x1F45, 1, 0x1F48);
   (0x1F51, 0x1F57, 2, 0x1F59); (0x1F60, 0x1F67, 1, 0x1F68);
   (0x1F70, 0x1F71, 1, 0x1FBA); (0x1F72, 0x1F75, 1, 0x1FC8);
   (0x1F76, 0x1F77, 1, 0x1FDA); (0x1F78, 0x1F79, 1, 0x1FF8);
   (0x1F7A, 0x1F7B, 1, 0x1FEA); (0x1F7C, 0x1F7D, 1, 0x1FFA);
   (0x1F80, 0x1F87, 1, 0x1F88); (0x1F90, 0x1F97, 1, 0x1F98);
   (0x1FA0, 0x1FA7, 1, 0x1FA8); (0x1FB0, 0x1FB1, 1, 0x1FB8);
   (0x1FB3, 0x1FB3, 1, 0x1FBC); (0x1FBE, 0x1FBE, 1, 0x399);
   (0x1FC3, 0x1FC3, 1, 0x1FCC); (0x1FD0, 0x1FD1, 1, 0x1FD8);
   (0x1FE0, 0x1FE1, 1, 0x1FE8); (0x1FE5, 0x1FE5, 1, 0x1FEC);
   (0x1FF3, 0x1FF3, 1, 0x1FFC); (0x214E, 0x214E, 1, 0x2132);
   (0x2170, 0x217F, 1, 0x2160); (0x2184, 0x2184, 1, 0x2183);
   (0x24D0, 0x24E9, 1, 0x24B6); (0x2C30, 0x2C5F, 1, 0x2C00);
   (0x2C61, 0x2C61, 1, 0x2C60); (0x2C65, 0x2C65, 1, 0x23A);
   (0x2C66, 0x2C66, 1, 0x23E); (0x2C68, 0x2C6C, 2, 0x2C67);
   (0x2C73, 0x2C73, 1, 0x2C72); (0x2C76, 0x2C76, 1, 0x2C75);
   (0x2C81, 0x2CE3, 2, 0x2C80); (0x2CEC, 0x2CEE, 2, 0x2CEB);
   (0x2CF3, 0x2CF3, 1, 0x2CF2); (0x2D00, 0x2D25, 1, 0x10A0);
   (0x2D27, 0x2D27, 1, 0x10C7); (0x2D2D, 0x2D2D, 1, 0x10CD);
   (0xA641, 0xA66D, 2, 0xA640); (0xA681, 0xA69B, 2, 0xA680);
   (0xA723, 0xA72F, 2, 0xA722); (0xA733, 0xA76F, 2, 0xA732);
   (0xA77A, 0xA77C, 2, 0xA779); (0xA77F, 0xA787, 2, 0xA77E);
   (0xA78C, 0xA78C, 1, 0xA78B); (0xA791, 0xA793, 2, 0xA790);
   (0xA794, 0xA794, 1, 0xA7C4); (0xA797, 0xA7A9, 2, 0xA796);
   (0xA7B5, 0xA7C3, 2, 0xA7B4); (0xA7C8, 0xA7CA, 2, 0xA7C7);
   (0xA7D1, 0xA7D1, 1, 0xA7D0); (0xA7D7, 0xA7D9, 2, 0xA7D6);
   (0xA7F6, 0xA7F6, 1, 0xA7F5); (0xAB53, 0xAB53, 1, 0xA7B3);
   (0xAB70, 0xABBF, 1, 0x13A0); (0xFF41, 0xFF5A, 1, 0xFF21);
   (0x10428, 0x1044F, 1, 0x10400); (0x104D8, 0x104FB, 1, 0x104B0);
   (0x10597, 0x105A1, 1, 0x10570); (0x105A3, 0x105B1, 1, 0x1057C);
   (0x105B3, 0x105B9, 1, 0x1058C); (0x105BB, 0x105BC, 1, 0x10594);
   (0x10CC0, 0x10CF2, 1, 0x10C80); (0x118C0, 0x118DF, 1, 0x118A0);
   (0x16E60, 0x16E7F, 1, 0x16E40); (0x1E922, 0x1E943, 1, 0x1E900) ]%N.

(** The title-case mappings to more than one code point. *)
Definition Titlecase_Special : list (N * list N) :=
  [
   (0xDF, [0x53; 0x73]); (0x149, [0x2BC; 0x4E]); (0x1F0, [0x4A; 0x30C]);
   (0x390, [0x399; 0x308; 0x301]); (0x3B0, [0x3A5; 0x308; 0x301]);
   (0x587, [0x535; 0x582]); (0x1E96, [0x48; 0x331]); (0x1E97, [0x54; 0x308]);
   (0x1E98, [0x57; 0x30A]); (0x1E99, [0x59; 0x30A]); (0x1E9A, [0x41; 0x2BE]);
   (0x1F50, [0x3A5; 0x313]); (0x1F52, [0x3A5; 0x313; 0x300]);
   (0x1F54, [0x3A5; 0x313; 0x301]); (0x1F56, [0x3A5; 0x313; 0x342]);
   (0x1FB2, [0x1FBA; 0x345]); (0x1FB4, [0x386; 0x345]);
   (0x1FB6, [0x391; 0x342]); (0x1FB7, [0x391; 0x342; 0x345]);
   (0x1FC2, [0x1FCA; 0x345]); (0x1FC4, [0x389; 0x345]);
   (0x1FC6, [0x397; 0x342]); (0x1FC7, [0x397; 0x342; 0x345]);
   (0x1FD2, [0x399; 0x308; 0x300]); (0x1FD3, [0x399; 0x308; 0x301]);
   (0x1FD6, [0x399; 0x342]); (0x1FD7, [0x399; 0x308; 0x342]);
   (0x1FE2, [0x3A5; 0x308; 0x300]); (0x1FE3, [0x3A5; 0x308; 0x301]);
   (0x1FE4, [0x3A1; 0x313]); (0x1FE6, [0x3A5; 0x342]);
   (0x1FE7, [0x3A5; 0x308; 0x342]); (0x1FF2, [0x1FFA; 0x345]);
   (0x1FF4, [0x38F; 0x345]); (0x1FF6, [0x3A9; 0x342]);
   (0x1FF7, [0x3A9; 0x342; 0x345]); (0xFB00, [0x46; 0x66]);
   (0xFB01, [0x46; 0x69]); (0xFB02, [0x46; 0x6C]);
   (0xFB03, [0x46; 0x66; 0x69]); (0xFB04, [0x46; 0x66; 0x6C]);
   (0xFB05, [0x53; 0x74]); (0xFB06, [0x53; 0x74]); (0xFB13, [0x544; 0x576]);
   (0xFB14, [0x544; 0x565]); (0xFB15, [0x544; 0x56B]);
   (0xFB16, [0x54E; 0x576]); (0xFB17, [0x544; 0x56D]) ]%N.

End Unicode.

(** [c] lies in one of the sorted ranges. *)
Fixpoint in_ranges (c : N) (rs : list (N * N)) : bool :=
  match rs with
  | [] => false
  | (lo, hi) :: r => if (c <? lo)%N then false else (c <=? hi)%N || in_ranges c r
  end.

(** The image of [c] under a table of mappings, if it has one. *)
Fixpoint map_lookup (c : N) (tbl : list (N * N * N * N)) : option N :=
  match tbl with
  | [] => None
  | (lo, hi, stride, to) :: r =>
      if (c <? lo)%N then None
      else if (c <=? hi)%N && ((c - lo) mod stride =? 0)%N then Some (to + (c - lo))%N
      else map_lookup c r
  end.

Fixpoint special_lookup (c : N) (tbl : list (N * list N)) : option (list N) :=
  match tbl with
  | [] => None
  | (k, v) :: r => if (c =? k)%N then Some v else special_lookup c r
  end.

Definition is_cased (c : N) : bool := in_ranges c Unicode.Cased.
Definition is_case_ignorable (c : N) : bool := in_ranges c Unicode.Case_Ignorable.

(** The lower-case and title-case mappings of one code point; U+0130 is
    the one code point whose lower case has two. *)
Definition lower_char (c : N) : N :=
  match map_lookup c Unicode.Lowercase_Mapping with Some v => v | None => c end.
Definition lower_full (c : N) : str :=
  if (c =? 0x130)%N then [0x69; 0x307]%N else [lower_char c].
Definition title_char (c : N) : N :=
  match map_lookup c Unicode.Titlecase_Mapping with Some v => v | None => c end.
Definition title_full (c : N) : str :=
  match special_lookup c Unicode.Titlecase_Special with
  | Some l => l
  | None => [title_char c]
  end.

(** The first character of [s] that is not case-ignorable is cased. *)
Fixpoint cased_next (s : str) : bool :=
  match s with
  | [] => false
  | c :: r => if is_case_ignorable c then cased_next r else is_cased c
  end.

(** The capital sigma U+03A3 stands at the end of a word: a cased letter
    before it and none after it, case-ignorable characters apart.
    [before] is the text before it, the nearest character first. *)
Definition final_sigma (before after : str) : bool :=
  cased_next before && negb (cased_next after).

(** The lower case of [c] between [before] (reversed) and [after]. *)
Definition lower_at (before : str) (c : N) (after : str) : str :=
  if (c =? 0x3A3)%N
  then [if final_sigma before after then 0x3C2 else 0x3C3]%N
  else lower_full c.

(** [str.lower()]. *)
Fixpoint lower_from (before s : str) : str :=
  match s with
  | [] => []
  | c :: r => lower_at before c r ++ lower_from (c :: before) r
  end.
Definition lower (s : str) : str := lower_from [] s.

(** [str.title()]: a character that follows a cased one in lower case, the
    others in title case. *)
Fixpoint title_from (before : str) (prev_cased : bool) (s : str) : str :=
  match s with
  | [] => []
  | c :: r =>
      (if prev_cased then lower_at before c r else title_full c)
      ++ title_from (c :: before) (is_cased c) r
  end.
Definition title (s : str) : str := title_from [] false s.

(** [re.sub(r"\s+", " ", text)]: every maximal run of white space becomes
    one ASCII space.  [in_run] says the previous character was white. *)
Fixpoint sub_ws (in_run : bool) (s : str) : str :=
  match s with
  | [] => []
  | c :: r =>
      if is_space c
      then (if in_run then sub_ws true r else 32%N :: sub_ws true r)
      else c :: sub_ws false r
  end.

Fixpoint lstrip (s : str) : str :=
  match s with
  | [] => []
  | c :: r => if is_space c then lstrip r else s
  end.
Definition rstrip (s : str) : str := rev (lstrip (rev s)).
(** [str.strip()], and also [WS_EDGES.sub("", s)] with
    [WS_EDGES = ^\s+|\s+$]. *)
Definition strip (s : str) : str := rstrip (lstrip s).

Definition str_eqb (a b : str) : bool :=
  if list_eq_dec N.eq_dec a b then true else false.

(** [s.startswith(p)]. *)
Fixpoint prefix (p s : str) : bool :=
  match p, s with
  | [], _ => true
  | _ :: _, [] => false
  | a :: p', b :: s' => (a =? b)%N && prefix p' s'
  end.

(** [s.find(p)]: the least index at which [p] occurs in [s], or -1. *)
Fixpoint find_from (i : Z) (s p : str) : Z :=
  if prefix p s then i
  else match s with
       | [] => (-1)%Z
       | _ :: r => find_from (i + 1) r p
       end.
Definition find (s p : str) : Z := find_from 0 s p.

(** [p in s]. *)
Fixpoint str_in (p s : str) : bool :=
  prefix p s || match s with [] => false | _ :: r => str_in p r end.

(** [s[a:b]] with Python's treatment of negative and out-of-range
    indices. *)
Definition slice_index (len i : Z) : Z :=
  if (i <? 0)%Z then Z.max 0 (i + len) else Z.min i len.
Definition slice (s : str) (a b : Z) : str :=
  let len := Z.of_nat (length s) in
  let a' := slice_index len a in
  let b' := slice_index len b in
  firstn (Z.to_nat (b' - a')) (skipn (Z.to_nat a') s).

(** [sep.join(parts)]. *)
Fixpoint join (sep : str) (parts : list str) : str :=
  match parts with
  | [] => []
  | [p] => p
  | p :: rest => p ++ sep ++ join sep rest
  end.

(** [re.split(r"[,/;|\n]", s)] for a one-character separator class. *)
Fixpoint re_split (is_sep : N -> bool) (s : str) : list str :=
  match s with
  | [] => [[]]
  | c :: r =>
      if is_sep c then [] :: re_split is_sep r
      else match re_split is_sep r with
           | h :: t => (c :: h) :: t
           | [] => [[c]]
           end
  end.

(** [\w] of a [str] pattern: alphanumeric or underscore. *)
Definition is_word (c : N) : bool :=
  in_ranges c Unicode.Alphanumeric || (c =? 95)%N.

Definition word_at (s : str) (i : nat) : bool :=
  match nth_error s i with Some c => is_word c | None => false end.

(** [\b] at index [i] of [s]. *)
Definition boundary (s : str) (i : nat) : bool :=
  xorb (match i with O => false | S j => word_at s j end) (word_at s i).

(** The literal [p] occurs in [s] at index [i]. *)
Definition lit_at (s : str) (i : nat) (p : str) : bool :=
  (i <=? length s)%nat && prefix p (skipn i s).

(** [.{k}] matches [s[i:i+k]]: [k] characters, none a line feed. *)
Definition dots_at (s : str) (i k : nat) : bool :=
  (i + k <=? length s)%nat && forallb (fun c => negb (c =? 10)%N) (firstn k (skipn i s)).

End Text.
Export Text.

(* ================================================================== *)
(** ** Numbers *)

Module Num.

(** [x < y] and [x <= y] on the numbers of the score, as booleans. *)
Definition Qleb (x y : Q) : bool := Qle_bool x y.
Definition Qltb (x y : Q) : bool := negb (Qle_bool y x).

(** [max(a, b)] and [min(a, b)] of Python: the first argument unless the
    second is strictly greater (smaller). *)
Definition py_max (a b : Q) : Q := if Qltb a b then b else a.
Definition py_min (a b : Q) : Q := if Qltb b a then b else a.

(** The number a finite float stands for, from its sign, mantissa and
    exponent; an infinity and NaN stand for none. *)
Definition SF_value (x : spec_float) : option Q :=
  match x with
  | S754_zero _ => Some 0
  | S754_finite s m e => Some (inject_Z (if s then Z.neg m else Z.pos m) * 2 ^ e)
  | S754_infinity _ | S754_nan => None
  end.

Definition float_value (x : float) : option Q := SF_value (Prim2SF x).

(** [max(a, b)] on two floats. *)
Definition float_max (a b : float) : float := if (a <? b)%float then b else a.

(** [int(x)] of a float: the integer part, towards zero; it raises
    [OverflowError] on an infinity and [ValueError] on NaN. *)
Definition py_int (x : float) : option Z :=
  match Prim2SF x with
  | S754_zero _ => Some 0%Z
  | S754_finite s m e =>
      let v := if (0 <=? e)%Z then (Z.pos m * 2 ^ e)%Z else (Z.pos m / 2 ^ (- e))%Z in
      Some (if s then (- v)%Z else v)
  | S754_infinity _ | S754_nan => None
  end.

End Num.
Export Num.

(** Sequencing of calls that may raise. *)
Notation "x <- e ;; k" :=
  (match e with Some x => k | None => None end)
  (at level 61, e at next level, right associativity).

(* ================================================================== *)
(** ** Python objects, rows and configurations *)

(** A cell of a row, seen through the three operations the engine applies
    to it: [isinstance(x, str)], [str(x)] and [float(x)] ([None] when
    [float] raises).  An empty cell of a numeric column is the number NaN,
    a cell that reads inf is the number infinity. *)
Record pyobj := {
  is_str : bool;
  py_str : str;
  py_float : option float
}.

(** A [str] that [float] does not read, and a number printed as [repr]. *)
Definition Str (s : str) : pyobj :=
  {| is_str := true; py_str := s; py_float := None |}.
Definition Number (x : float) (repr : str) : pyobj :=
  {| is_str := false; py_str := repr; py_float := Some x |}.

Inductive column :=
| candidate_id | name | email | resume_text | cover_letter_text | skills
| activities | years_experience | months_experience | education_level | age
| label.

(** A row of the screening table; [row c = None] when the row has no
    column [c]. *)
Definition Row := column -> option pyobj.

(** [row.get(c, default)]. *)
Definition row_get (row : Row) (c : column) (default : pyobj) : pyobj :=
  match row c with Some v => v | None => default end.

Inductive Level := hard | soft | review.

Inductive WeightKey :=
| exp_under | exp_meet | edu_under | must_missing | must_all | knockout
| nice_each | training_ctx | low_exp_skill | age_out | age_in.

(** [d.get(k, default)] for a dictionary given as a partial function. *)
Definition dict_get {K V : Type} (d : K -> option V) (k : K) (default : V) : V :=
  match d k with Some v => v | None => default end.

(** [cfg.get(key, default)] for an optional key of the configuration. *)
Definition get {V : Type} (o : option V) (default : V) : V :=
  match o with Some v => v | None => default end.

(** [cfg["global_mitigation"]]. *)
Record Mitigation := {
  whitelist_phrases : option (list str);
  mitigate_terms : option (list str);
  mitigation_factor : option Q;
  context_window : option Z
}.

(** The merged configuration [rule_score] receives.  A field read with
    [cfg[...]] is mandatory; a field read with [cfg.get(...)] is optional. *)
Record Cfg := {
  rule_weights : option (WeightKey -> option Q);
  min_years_experience : float;
  min_education_level : pyobj;
  must_have_skills : list str;
  nice_to_have_skills : option (list str);
  knockout_phrases : option (list str);
  training_indicators : option (list str);
  age_range : option (float * float);
  activity_weights : option (list (str * Q));
  max_activity_bonus : option Q;
  global_knockout : option (Level -> option (list str));
  global_knockout_weights : option (Level -> option Q);
  global_knockout_cap : option Q;
  global_mitigation : option Mitigation;
  text_fields : list column
}.

(* ================================================================== *)
(** ** Text helpers of the source *)

Definition normalize_text (text : pyobj) : str :=
  if negb (is_str text) then []
  else
    let text := lower (py_str text) in
    let text := strip (sub_ws false text) in
    text.

(** An association list read as a dictionary with [str] keys. *)
Fixpoint assoc {V : Type} (d : list (str * V)) (k : str) : option V :=
  match d with
  | [] => None
  | (k', v) :: r => if str_eqb k k' then Some v else assoc r k
  end.

Definition education_mapping : list (str * nat) :=
  [ (u "มัธยม", 0); (u "ม.6", 0); (u "ปวช", 0); (u "hs", 0); (u "high school", 0);
    (u "ปวส", 1); (u "อนุปริญญา", 1); (u "bachelor", 1); (u "ปริญญาตรี", 1);
    (u "ba", 1); (u "b.sc", 1); (u "b.eng", 1);
    (u "master", 2); (u "ปริญญาโท", 2); (u "m.sc", 2); (u "mba", 2);
    (u "phd", 3); (u "doctorate", 3); (u "ปริญญาเอก", 3) ]%nat.

Definition encode_education (level : pyobj) : nat :=
  if negb (is_str level) then 0%nat
  else
    let s := normalize_text level in
    let mapping := assoc education_mapping in
    dict_get mapping s (dict_get mapping (title s) 0%nat).

(** The separator class [[,/;|\n]]. *)
Definition is_skill_sep (c : N) : bool :=
  (c =? 44)%N || (c =? 47)%N || (c =? 59)%N || (c =? 124)%N || (c =? 10)%N.

(** The truth value of a list or of a [str]: it is not empty. *)
Definition nonempty_list {A : Type} (l : list A) : bool :=
  match l with [] => false | _ :: _ => true end.
Definition nonempty (s : str) : bool := nonempty_list s.

Definition split_skills (skills : pyobj) : list str :=
  if negb (is_str skills) then []
  else map (fun s => lower (strip s))
           (filter (fun s => nonempty (strip s))
                   (re_split is_skill_sep (py_str skills))).

(** The two sets of characters, as lists: the loops replace one character
    at a time, and the result does not depend on the order. *)
Definition INVISIBLE : list N := [8203; 65279]%N.
Definition WIDE_SPACES : list N := [160; 8239; 8199; 8201; 8202; 8287; 12288]%N.

(** [s.replace(ch, rep)] for a one-character [ch]. *)
Definition replace (s : str) (ch : N) (rep : str) : str :=
  flat_map (fun c => if (c =? ch)%N then rep else [c]) s.

Definition clean_email (s : pyobj) : str :=
  if negb (is_str s) then []
  else
    let s := py_str s in
    let s := fold_left (fun s ch => replace s ch []) INVISIBLE s in
    let s := fold_left (fun s ch => replace s ch [32%N]) WIDE_SPACES s in
    strip s.

(* ================================================================== *)
(** ** Configuration constants of the source *)

Module DEFAULT_RULES.

Definition rule_weights (k : WeightKey) : option Q :=
  Some match k with
       | exp_under => -1.0 | exp_meet => 0.2 | edu_under => -1.0
       | must_missing => -1.5 | must_all => 0.5 | knockout => -2.0
       | nice_each => 0.3 | training_ctx => -0.5 | low_exp_skill => -0.3
       | age_out => -1.0 | age_in => 0.2
       end.

Definition training_indicators : list str :=
  [u "อบรม"; u "สัมมนา"; u "เวิร์กชอป"; u "workshop"; u "training"; u "คอร์ส";
   u "course"; u "certificate"; u "certification"].

Definition activity_weights : list (str * Q) := [].
Definition max_activity_bonus : Q := 0.0.
Definition default_age_range : float * float := (18, 60)%float.

Definition global_knockout (level : Level) : option (list str) :=
  Some match level with
       | hard => [u "ด่าบริษัทเก่า"; u "ด่าหัวหน้าเก่า"; u "โกง"; u "ทุจริต";
                  u "ปลอมเอกสาร"; u "เปิดเผยความลับบริษัท"; u "เกลียดลูกค้า";
                  u "ก้าวร้าว"; u "ใช้ความรุนแรง"]
       | soft => [u "ไม่ชอบทำงานเป็นทีม"; u "ไม่ชอบเจอคนเยอะ"; u "ไม่ถนัดตัวเลข";
                  u "มาสายบ่อย"; u "ไม่พร้อมทำงานล่วงเวลา"; u "ไม่พร้อมทำงานวันหยุด";
                  u "ไม่ชอบงานซ้ำ ๆ"; u "ไม่อยากเรียนรู้เพิ่ม"; u "ไม่ถนัดแก้โค้ดคนอื่น";
                  u "ไม่ละเอียด"; u "ไม่ละเอียดรอบคอบ"]
       | review => [u "ลาออกเพราะขัดแย้งส่วนตัว"; u "ไม่ถูกกับหัวหน้าเก่า";
                    u "ลาออกทันที"; u "ทำงานไม่นาน"]
       end.

Definition global_knockout_weights (level : Level) : option Q :=
  Some match level with hard => -2.0 | soft => -1.0 | review => 0.0 end.

Definition global_knockout_cap : Q := -2.5.

Definition global_mitigation : Mitigation :=
  {| whitelist_phrases :=
       Some [u "เคยไม่ถนัดตัวเลข แต่กำลังพัฒนา"; u "เคยไม่ถนัดตัวเลข แต่ฝึกจนทำได้";
             u "เคยไม่ชอบทำงานเป็นทีม แต่ปรับตัวได้"; u "แม้ไม่มีประสบการณ์ แต่เรียนรู้เร็ว";
             u "ยอมรับข้อผิดพลาดและปรับปรุง"];
     mitigate_terms :=
       Some [u "แต่"; u "กำลังพัฒนา"; u "กำลังเรียนรู้"; u "พัฒนา"; u "ปรับปรุง";
             u "ตั้งใจฝึก"; u "เรียนเพิ่ม"; u "จนทำได้"; u "แก้ไข"];
     mitigation_factor := Some 0.5;
     context_window := Some 50%Z |}.

End DEFAULT_RULES.

Module DEFAULT_BASE.
Definition text_fields : list column :=
  [resume_text; cover_letter_text; skills; activities].
End DEFAULT_BASE.

(** An entry of [DEPARTMENTS_CFG].  The minimum of experience and the
    bounds of the age are integers there; they are compared with floats
    and divided as the floats of the same value. *)
Record Department := {
  dept_must_have_skills : list str;
  dept_nice_to_have_skills : list str;
  dept_min_years_experience : float;
  dept_min_education_level : str;
  dept_knockout_phrases : option (list str);
  dept_age_range : float * float;
  dept_activity_weights : list (str * Q);
  dept_max_activity_bonus : Q
}.

Module DEPARTMENTS_CFG.

Definition Programmer : Department :=
  {| dept_must_have_skills :=
       [u "php"; u "python"; u "javascript"; u "sql"; u "debugging"; u "agile"];
     dept_nice_to_have_skills :=
       [u "ux/ui"; u "cloud"; u "aws"; u "azure"; u "cybersecurity"];
     dept_min_years_experience := 0%float;
     dept_min_education_level := u "ปริญญาตรี";
     dept_knockout_phrases :=
       Some [u "ไม่ชอบทำงานเป็นทีม"; u "ไม่ถนัดแก้โค้ดคนอื่น";
             u "ไม่อยากเรียนรู้เทคโนโลยีใหม่"];
     dept_age_range := (21, 35)%float;
     dept_activity_weights :=
       [(u "โปรเจกต์", 0.6); (u "project", 0.6); (u "hackathon", 0.6);
        (u "แข่งขันเขียนโปรแกรม", 0.6); (u "open source", 0.6); (u "github", 0.5);
        (u "สร้างแอป", 0.6); (u "web app", 0.5); (u "mobile app", 0.5)];
     dept_max_activity_bonus := 1.2 |}.

Definition Accounting : Department :=
  {| dept_must_have_skills :=
       [u "ทำบัญชีรายวัน"; u "ทำบัญชีรายเดือน"; u "งบการเงิน"; u "ภาษีซื้อ";
        u "ภาษีขาย"; u "excel"; u "express"; u "sap"];
     dept_nice_to_have_skills := [u "power bi"; u "วิเคราะห์ต้นทุน"; u "ภาษาอังกฤษ"];
     dept_min_years_experience := 1%float;
     dept_min_education_level := u "ปริญญาตรี";
     dept_knockout_phrases := None;
     dept_age_range := (22, 35)%float;
     dept_activity_weights :=
       [(u "ฝึกงานสำนักงานบัญชี", 0.3); (u "internship accounting firm", 0.3)];
     dept_max_activity_bonus := 0.6 |}.

End DEPARTMENTS_CFG.

(** [{**DEFAULT_RULES, **DEPARTMENTS_CFG[department], **DEFAULT_BASE}]: the
    department's keys replace the defaults'. *)
Definition merged_cfg (d : Department) : Cfg :=
  {| rule_weights := Some DEFAULT_RULES.rule_weights;
     min_years_experience := dept_min_years_experience d;
     min_education_level := Str (dept_min_education_level d);
     must_have_skills := dept_must_have_skills d;
     nice_to_have_skills := Some (dept_nice_to_have_skills d);
     knockout_phrases := dept_knockout_phrases d;
     training_indicators := Some DEFAULT_RULES.training_indicators;
     age_range := Some (dept_age_range d);
     activity_weights := Some (dept_activity_weights d);
     max_activity_bonus := Some (dept_max_activity_bonus d);
     global_knockout := Some DEFAULT_RULES.global_knockout;
     global_knockout_weights := Some DEFAULT_RULES.global_knockout_weights;
     global_knockout_cap := Some DEFAULT_RULES.global_knockout_cap;
     global_mitigation := Some DEFAULT_RULES.global_mitigation;
     text_fields := DEFAULT_BASE.text_fields |}.

(* ================================================================== *)
(** ** The global knockout evaluator *)

(** An entry of the hit trace: [f"{p}~whitelist"],
    [f"{p}:{level}*{factor:.1f}"] and [f"{p}:{level}"]. *)
Inductive Hit :=
| HitWhitelist (p : str)
| HitMitigated (p : str) (level : Level) (factor : Q)
| HitPlain (p : str) (level : Level).

(** [any(normalize_text(w) in blob for w in wlist)]. *)
Definition whitelisted (blob : str) (wlist : list str) : bool :=
  existsb (fun w => str_in (normalize_text (Str w)) blob) wlist.

(** [blob[start:end]] around the match at [pos]. *)
Definition window (blob : str) (pos : Z) (p : str) (ctx : Z) : str :=
  let start := Z.max 0 (pos - ctx) in
  let end_ := Z.min (Z.of_nat (length blob)) (pos + Z.of_nat (length p) + ctx) in
  slice blob start end_.

(** [any(t in window for t in mterms)]. *)
Definition mitigated (window : str) (mterms : list str) : bool :=
  existsb (fun t => str_in t window) mterms.

(** One iteration of the inner loop, on the pair [(penalty, hits)]. *)
Definition gk_phrase (blob : str) (wlist mterms : list str) (factor : Q)
    (ctx : Z) (weights : Level -> option Q) (level : Level)
    (acc : Q * list Hit) (phrase : str) : Q * list Hit :=
  let '(penalty, hits) := acc in
  let p := normalize_text (Str phrase) in
  if negb (nonempty p) then acc
  else
    let pos := find blob p in
    if (pos =? -1)%Z then acc
    else if whitelisted blob wlist then (penalty, hits ++ [HitWhitelist p])
    else
      let window := window blob pos p ctx in
      let weight := dict_get weights level 0.0 in
      if mitigated window mterms && Qltb weight 0
      then (penalty + weight * factor, hits ++ [HitMitigated p level factor])
      else (penalty + weight, hits ++ [HitPlain p level]).

(** The local variables [gk], [weights], [cap], [wlist], [mterms],
    [factor] and [ctx] of [_apply_global_knockout]. *)
Definition gk_lists (cfg : Cfg) : Level -> option (list str) :=
  get (global_knockout cfg) DEFAULT_RULES.global_knockout.
Definition gk_weights (cfg : Cfg) : Level -> option Q :=
  get (global_knockout_weights cfg) DEFAULT_RULES.global_knockout_weights.
Definition gk_cap (cfg : Cfg) : Q :=
  get (global_knockout_cap cfg) DEFAULT_RULES.global_knockout_cap.
Definition gk_mitig (cfg : Cfg) : Mitigation :=
  get (global_mitigation cfg) DEFAULT_RULES.global_mitigation.
Definition gk_wlist (cfg : Cfg) : list str :=
  map (fun x => normalize_text (Str x)) (get (whitelist_phrases (gk_mitig cfg)) []).
Definition gk_mterms (cfg : Cfg) : list str :=
  map (fun x => normalize_text (Str x)) (get (mitigate_terms (gk_mitig cfg)) []).
Definition gk_factor (cfg : Cfg) : Q :=
  get (mitigation_factor (gk_mitig cfg)) 0.5.
Definition gk_ctx (cfg : Cfg) : Z :=
  get (context_window (gk_mitig cfg)) 50%Z.

(** The two nested loops, before the clamp. *)
Definition gk_scan (blob : str) (cfg : Cfg) : Q * list Hit :=
  fold_left
    (fun acc level =>
       fold_left
         (gk_phrase blob (gk_wlist cfg) (gk_mterms cfg) (gk_factor cfg)
                    (gk_ctx cfg) (gk_weights cfg) level)
         (dict_get (gk_lists cfg) level []) acc)
    [hard; soft; review] (0.0, []).

Definition _apply_global_knockout (blob : str) (cfg : Cfg) : Q * list Hit :=
  let cap := gk_cap cfg in
  let '(penalty, hits) := gk_scan blob cfg in
  let penalty := if Qltb penalty cap then cap else penalty in
  (penalty, hits).

(* ================================================================== *)
(** ** The rule engine *)

(** The reasons [rule_score] appends, one constructor per f-string, in the
    order of the source; a constructor keeps the values its f-string
    interpolates.
    - [ReasonExpUnder]: f"ประสบการณ์ {total:.1f} ปี < {cfg['min_years_experience']} ปี"
    - [ReasonExpMeet]: f"ประสบการณ์ {total:.1f} ปี ≥ เกณฑ์"
    - [ReasonEduUnder]: f"การศึกษา < {cfg['min_education_level']}"
    - [ReasonMustMissing]: "ขาดสกิลจำเป็น: " + ", ".join(miss)
    - [ReasonMustAll]: "ครบสกิลจำเป็น"
    - [ReasonGlobalKnockout]: "คำต้องห้ามรวม: " + ", ".join(gk_hits)
    - [ReasonDeptKnockout]: f"คำต้องห้ามตำแหน่ง: {phrase}"
    - [ReasonTrainingCtx]: f"{s}: พบในบริบทการอบรม/คอร์ส"
    - [ReasonNice]: "มีสกิลเสริม: " + ", ".join(nice)
    - [ReasonLowExpSkill]: f"มี {s} แต่ประสบการณ์รวม < {low_exp:.1f} ปี"
    - [ReasonAgeOut]: f"อายุ {int(age_val)} ปี อยู่นอกช่วง ({age_range[0]}–{age_range[1]})"
    - [ReasonAgeIn]: f"อายุ {int(age_val)} ปี อยู่ในช่วงที่กำหนด"
    - [ReasonAgeUnspecified]: "ไม่ระบุอายุ (ไม่คิดคะแนน)"
    - [ReasonActivityTraining]: "กิจกรรมมีลักษณะอบรม: ไม่ได้โบนัสกิจกรรม"
    - [ReasonActivity]: "กิจกรรม: " + ", ".join(hits) + f" (รวม +{bonus:.1f})" *)
Inductive Reason :=
| ReasonExpUnder (total min_years : float)
| ReasonExpMeet (total : float)
| ReasonEduUnder (min_level : str)
| ReasonMustMissing (miss : list str)
| ReasonMustAll
| ReasonGlobalKnockout (gk_hits : list Hit)
| ReasonDeptKnockout (phrase : str)
| ReasonTrainingCtx (s : str)
| ReasonNice (nice : list str)
| ReasonLowExpSkill (s : str) (low_exp : float)
| ReasonAgeOut (age : Z) (range : float * float)
| ReasonAgeIn (age : Z)
| ReasonAgeUnspecified
| ReasonActivityTraining
| ReasonActivity (hits : list (str * Q)) (bonus : Q).

(** The pair [(score, reasons)] the function builds up. *)
Definition State := (Q * list Reason)%type.

(** [reasons.append(r); score += delta]. *)
Definition emit (st : State) (r : Reason) (delta : Q) : State :=
  (fst st + delta, snd st ++ [r]).

(** [reasons.append(r)] alone. *)
Definition note (st : State) (r : Reason) : State :=
  (fst st, snd st ++ [r]).

Definition _to_num (x : pyobj) : float :=
  match py_float x with Some v => v | None => 0%float end.

(** [s in skills], for the set [skills]. *)
Definition mem (s : str) (skills : list str) : bool :=
  existsb (str_eqb s) skills.

Definition total_years (row : Row) : float :=
  let y := _to_num (row_get row years_experience (Number 0 (u "0"))) in
  let m := _to_num (row_get row months_experience (Number 0 (u "0"))) in
  (y + m / 12)%float.

(** [age_val = _to_num(row.get("age", -1))]. *)
Definition row_age (row : Row) : float :=
  _to_num (row_get row age (Number (-1) (u "-1"))).

Definition row_skills (row : Row) : list str :=
  split_skills (row_get row skills (Str [])).

Definition row_blob (row : Row) (cfg : Cfg) : str :=
  join [32%N]
       (map (fun f => normalize_text (Str (py_str (row_get row f (Str [])))))
            (text_fields cfg)).

Section Rules.

Variable row : Row.
Variable cfg : Cfg.
(** [w = cfg.get("rule_weights", ...)], [total], [skills] and [blob] as
    [rule_score] computes them before the rules that read them. *)
Variable w : WeightKey -> option Q.
Variable total : float.
Variable skill_set : list str.
Variable blob : str.

Definition exp_rule (st : State) : State :=
  if (total <? min_years_experience cfg)%float
  then emit st (ReasonExpUnder total (min_years_experience cfg)) (dict_get w exp_under (-1.0))
  else emit st (ReasonExpMeet total) (dict_get w exp_meet 0.2).

Definition edu_rule (st : State) : State :=
  if (encode_education (row_get row education_level (Str []))
      <? encode_education (min_education_level cfg))%nat
  then emit st (ReasonEduUnder (py_str (min_education_level cfg))) (dict_get w edu_under (-1.0))
  else st.

Definition must_rule (st : State) : State :=
  let miss := filter (fun s => negb (mem s skill_set)) (must_have_skills cfg) in
  if nonempty_list miss
  then emit st (ReasonMustMissing miss) (dict_get w must_missing (-1.5))
  else emit st ReasonMustAll (dict_get w must_all 0.5).

Definition gk_rule (st : State) : State :=
  let '(gk_pen, gk_hits) := _apply_global_knockout blob cfg in
  let reasons :=
    if nonempty_list gk_hits then snd st ++ [ReasonGlobalKnockout gk_hits] else snd st in
  (fst st + gk_pen, reasons).

Definition dept_rule (st : State) : State :=
  fold_left
    (fun st phrase =>
       if str_in (normalize_text (Str phrase)) blob
       then emit st (ReasonDeptKnockout phrase) (dict_get w knockout (-2.0))
       else st)
    (get (knockout_phrases cfg) []) st.

(** The alternatives of [ind_alt]: the indicators, or the empty string
    alone when there is none (the pattern is then ["()"]). *)
Definition ind_alt (training_indicators : list str) : list str :=
  match training_indicators with [] => [[]] | _ => training_indicators end.

(** [ps1.search(blob)] for
    [ps1 = ind_alt + r".{0,40}\b" + s_esc + r"\b"]. *)
Definition ps1_search (alts : list str) (s : str) : bool :=
  existsb
    (fun i =>
       existsb
         (fun t =>
            lit_at blob i t
            && existsb
                 (fun k =>
                    let j := (i + length t + k)%nat in
                    dots_at blob (i + length t) k && boundary blob j
                    && lit_at blob j s && boundary blob (j + length s))
                 (seq 0 41))
         alts)
    (seq 0 (S (length blob))).

(** [ps2.search(blob)] for
    [ps2 = r"\b" + s_esc + r"\b.{0,40}" + ind_alt]. *)
Definition ps2_search (alts : list str) (s : str) : bool :=
  existsb
    (fun i =>
       boundary blob i && lit_at blob i s && boundary blob (i + length s)
       && existsb
            (fun k =>
               let j := (i + length s + k)%nat in
               dots_at blob (i + length s) k
               && existsb (fun t => lit_at blob j t) alts)
            (seq 0 41))
    (seq 0 (S (length blob))).

Definition training_rule (st : State) : State :=
  let training_indicators :=
    get (training_indicators cfg) DEFAULT_RULES.training_indicators in
  let alts := ind_alt training_indicators in
  fold_left
    (fun st s =>
       if ps1_search alts s || ps2_search alts s
       then emit st (ReasonTrainingCtx s) (dict_get w training_ctx (-0.5))
       else st)
    (must_have_skills cfg) st.

Definition nice_rule (st : State) : State :=
  let nice := filter (fun s => mem s skill_set) (get (nice_to_have_skills cfg) []) in
  if nonempty_list nice
  then emit st (ReasonNice nice)
            (dict_get w nice_each 0.3 * inject_Z (Z.of_nat (length nice)))
  else st.

Definition low_exp_threshold : float :=
  float_max 0.5 (min_years_experience cfg / 2).

Definition low_exp_rule (st : State) : State :=
  let low_exp := low_exp_threshold in
  fold_left
    (fun st s =>
       if mem s skill_set && (total <? low_exp)%float
       then emit st (ReasonLowExpSkill s low_exp) (dict_get w low_exp_skill (-0.3))
       else st)
    (must_have_skills cfg) st.

(** The age rule; both f-strings call [int(age_val)] before the reason is
    appended, and the call raises when the age is infinite. *)
Definition age_rule (st : State) : option State :=
  let age_val := row_age row in
  let age_range := get (age_range cfg) DEFAULT_RULES.default_age_range in
  if (0 <=? age_val)%float
  then
    if negb ((fst age_range <=? age_val)%float && (age_val <=? snd age_range)%float)
    then
      n <- py_int age_val ;;
      Some (emit st (ReasonAgeOut n age_range) (dict_get w age_out (-1.0)))
    else
      n <- py_int age_val ;;
      Some (emit st (ReasonAgeIn n) (dict_get w age_in 0.2))
  else Some (note st ReasonAgeUnspecified).

(** The loop over [aw.items()]: the matched phrases and their sum. *)
Definition activity_scan (acts : str) (aw : list (str * Q)) : Q * list (str * Q) :=
  fold_left
    (fun acc kw =>
       if str_in (normalize_text (Str (fst kw))) acts
       then (fst acc + snd kw, snd acc ++ [kw])
       else acc)
    aw (0.0, []).

Definition activity_rule (st : State) : State :=
  let training_indicators :=
    get (training_indicators cfg) DEFAULT_RULES.training_indicators in
  let acts := normalize_text (Str (py_str (row_get row activities (Str [])))) in
  let aw := get (activity_weights cfg) DEFAULT_RULES.activity_weights in
  let max_bonus := get (max_activity_bonus cfg) DEFAULT_RULES.max_activity_bonus in
  let is_training_like_activity :=
    existsb (fun ind => str_in (normalize_text (Str ind)) acts) training_indicators in
  let '(bonus, hits) := activity_scan acts aw in
  if Qltb 0 bonus
  then
    if is_training_like_activity
    then note st ReasonActivityTraining
    else
      let bonus := py_min bonus max_bonus in
      emit st (ReasonActivity hits bonus) bonus
  else st.

End Rules.

(** [rule_score]; [None] when it raises. *)
Definition rule_score (row : Row) (cfg : Cfg) : option State :=
  let w := get (rule_weights cfg) DEFAULT_RULES.rule_weights in
  let st : State := (0.0, []) in
  let total := total_years row in
  let st := exp_rule cfg w total st in
  let st := edu_rule row cfg w st in
  let skill_set := row_skills row in
  let st := must_rule cfg w skill_set st in
  let blob := row_blob row cfg in
  let st := gk_rule cfg blob st in
  let st := dept_rule cfg w blob st in
  let st := training_rule cfg w blob st in
  let st := nice_rule cfg w skill_set st in
  let st := low_exp_rule cfg w total skill_set st in
  st <- age_rule row cfg w st ;;
  let st := activity_rule row cfg st in
  Some st.

(* ================================================================== *)
(** ** The score blender *)

Module Blender.

(** The two labels of [bucket_level]: "ผ่าน" and "ไม่ผ่าน". *)
Inductive Bucket := Pass | NotPass.

Section Blend.

(** [np.exp] on a float. *)
Variable np_exp : float -> float.

(** The blending line of the screening loop:
    [final = 0.7 * float(proba[i]) + 0.3 * (1 / (1 + np.exp(-rscore)))]. *)
Definition final_priority (proba rscore : float) : float :=
  (0.7 * proba + 0.3 * (1 / (1 + np_exp (- rscore))))%float.

End Blend.

(** [bucket_level]: the label of the pass bucket when
    [final_priority >= pass_cut], of the fail bucket otherwise. *)
Definition bucket_level (final_priority pass_cut : float) : Bucket :=
  if (pass_cut <=? final_priority)%float then Pass else NotPass.

End Blender.

(* ================================================================== *)
(** ** Further helpers of the source *)

(** *** The tokenizer *)

(** [text.split()]: the maximal runs of characters that are not white
    space. *)
Fixpoint split_ws (s : str) : list str :=
  match s with
  | [] => []
  | c :: r =>
      if is_space c then split_ws r
      else match r with
           | [] => [[c]]
           | d :: _ =>
               if is_space d then [c] :: split_ws r
               else match split_ws r with
                    | w :: ws => (c :: w) :: ws
                    | [] => [[c]]
                    end
           end
  end.

(** [thai_tokenize].  [word_tokenize] stands for the tokenizer of
    pythainlp, called with [keep_whitespace=False]; it gives [None] when
    the import or the call raises, and the function falls back on
    [text.split()]. *)
Definition thai_tokenize (word_tokenize : str -> option (list str))
    (text : pyobj) : list str :=
  let text := normalize_text text in
  if negb (nonempty text) then []
  else match word_tokenize text with
       | Some tokens => filter (fun t => nonempty (strip t)) tokens
       | None => split_ws text
       end.


(** *** E-mail addresses: the pattern and the validity test *)

Definition is_alnum (c : N) : bool := in_range 48 57 c || is_upper c || is_lower c.
(** [[A-Za-z0-9._%+\-]], [[A-Za-z0-9.\-]] and [[A-Za-z]]. *)
Definition is_local_char (c : N) : bool :=
  is_alnum c || (c =? 46)%N || (c =? 95)%N || (c =? 37)%N || (c =? 43)%N || (c =? 45)%N.
Definition is_domain_char (c : N) : bool :=
  is_alnum c || (c =? 46)%N || (c =? 45)%N.
Definition is_alpha (c : N) : bool := is_upper c || is_lower c.

Fixpoint take_while (p : N -> bool) (s : str) : str :=
  match s with
  | [] => []
  | c :: r => if p c then c :: take_while p r else []
  end.

Fixpoint drop_while (p : N -> bool) (s : str) : str :=
  match s with
  | [] => []
  | c :: r => if p c then drop_while p r else s
  end.

(** What [EMAIL_RE] matches, read off the pattern
    [^[A-Za-z0-9._%+\-]+@[A-Za-z0-9.\-]+\.[A-Za-z]{2,}$]: a local part, an
    at sign, a domain, a dot and at least two letters; [$] also matches
    before a line feed that ends the string. *)
Definition EMAIL_RE_matches (s : str) : Prop :=
  exists local dom tld nl,
    s = local ++ [64%N] ++ dom ++ [46%N] ++ tld ++ nl
    /\ local <> [] /\ forallb is_local_char local = true
    /\ dom <> [] /\ forallb is_domain_char dom = true
    /\ (2 <= length tld)%nat /\ forallb is_alpha tld = true
    /\ (nl = [] \/ nl = [10%N]).

(** [EMAIL_RE.match(s)].  The pattern leaves one way to cut a string: the
    local part is the longest run of its characters, the letters after
    the last dot are the longest run of letters at the end. *)
Definition EMAIL_RE_match (s : str) : bool :=
  nonempty (take_while is_local_char s)
  && match drop_while is_local_char s with
     | c :: rest =>
         (c =? 64)%N
         && let back := match rev rest with
                        | x :: b => if (x =? 10)%N then b else x :: b
                        | [] => []
                        end in
            (2 <=? length (take_while is_alpha back))%nat
            && match drop_while is_alpha back with
               | d :: dom => (d =? 46)%N && nonempty dom && forallb is_domain_char dom
               | [] => false
               end
     | [] => false
     end.

Definition BLOCKED_DEMO_DOMAINS : list str :=
  [u "example.com"; u "test.com"; u "invalid"; u "example.org"; u "example.net"].

(** [s.split("@")[-1]]: what follows the last at sign, the whole string
    when there is none. *)
Definition after_last_at (s : str) : str :=
  rev (take_while (fun c => negb (c =? 64)%N) (rev s)).

Definition is_valid_email (s : pyobj) : bool :=
  let s := clean_email s in
  if negb (nonempty s) || negb (EMAIL_RE_match s) then false
  else negb (mem (lower (after_last_at s)) BLOCKED_DEMO_DOMAINS).


(* ================================================================== *)
(** ** The screening loop and its messages *)


(** *** The notification message *)

(** [s.replace(old, new)] for an [old] that is not empty, as every
    placeholder is: the occurrences of [old] are taken from the left and do
    not overlap; [skip] counts the characters of an occurrence still to be
    passed over. *)
Fixpoint replace_from (old new : str) (skip : nat) (s : str) : str :=
  match s with
  | [] => []
  | c :: r =>
      match skip with
      | S k => replace_from old new k r
      | O =>
          if prefix old s then new ++ replace_from old new (length old - 1) r
          else c :: replace_from old new 0 r
      end
  end.

Definition py_replace (s old new : str) : str := replace_from old new 0 s.

(** [f"{{{{{k}}}}}"]: the key between two pairs of braces. *)
Definition placeholder (k : str) : str := [123; 123]%N ++ k ++ [125; 125]%N.

(** [_render_template]; [ctx] lists the items of the dictionary in their
    order, the values already turned into [str]. *)
Definition _render_template (tpl : str) (ctx : list (str * str)) : str :=
  fold_left (fun out kv => py_replace out (placeholder (fst kv)) (snd kv)) ctx tpl.

(** [s.split(sep)] for a [sep] that is not empty. *)
Fixpoint split_from (sep : str) (skip : nat) (s : str) : list str :=
  match s with
  | [] => [[]]
  | c :: r =>
      match skip with
      | S k => split_from sep k r
      | O =>
          if prefix sep s then [] :: split_from sep (length sep - 1) r
          else match split_from sep 0 r with
               | h :: t => (c :: h) :: t
               | [] => [[c]]
               end
      end
  end.

Definition str_split (s sep : str) : list str := split_from sep 0 s.

(** The entry "reasons" of the context of [_mk_message]:
    ["; ".join(str(rowx.get("reasons","")).split("; ")[:max_reasons])],
    for the cell [reasons] of the row. *)
Definition limit_reasons (max_reasons : nat) (reasons : pyobj) : str :=
  join (u "; ") (firstn max_reasons (str_split (py_str reasons) (u "; "))).

(** The entry "name" of the context:
    [str(rowx.get(name_col, "ผู้สมัคร")).strip() or "ผู้สมัคร"]. *)
Definition message_name (cell : option pyobj) : str :=
  let s := strip (py_str (match cell with
                          | Some v => v
                          | None => Str (u "ผู้สมัคร")
                          end)) in
  if nonempty s then s else u "ผู้สมัคร".


(** *** The sending loop *)

Inductive Status := SENT | FAILED | SKIPPED.

(** An entry of [logs]. *)
Record LogEntry := {
  log_candidate_id : pyobj;
  log_to : str;
  log_status : Status;
  log_reason : str
}.

(** The counters [sent], [failed], [skipped] and the list [logs]. *)
Record Tally := {
  sent : nat;
  failed : nat;
  skipped : nat;
  logs : list LogEntry
}.

Definition no_tally : Tally := {| sent := 0; failed := 0; skipped := 0; logs := [] |}.

Section Sending.

(** [_mk_message], which formats a float, and [_send_email] with the SMTP
    settings of the side bar, which talks to a server, are taken as they
    come: [send_email to subj body] is [None] when the call raises.  The
    pause of one second after each delivery leaves no trace in the
    counters and the log. *)
Variable mk_message : Row -> str * str.
Variable send_email : str -> str -> str -> option (bool * str).

(** The body of the loop [for _, r in out.iterrows()]; [None] when it
    raises ([r["candidate_id"]] on a row without the column, or the
    sender). *)
Definition send_one (t : Tally) (r : Row) : option Tally :=
  let to_email := clean_email (row_get r email (Str [])) in
  if negb (is_valid_email (Str to_email))
  then
    match r candidate_id with
    | None => None
    | Some cid =>
        Some {| sent := sent t; failed := failed t; skipped := skipped t + 1;
                logs := logs t ++ [{| log_candidate_id := cid; log_to := to_email;
                                      log_status := SKIPPED;
                                      log_reason := u "invalid/demo domain" |}] |}
    end
  else
    let '(subj, body) := mk_message r in
    match send_email to_email subj body with
    | None => None
    | Some (ok, info) =>
        match r candidate_id with
        | None => None
        | Some cid =>
            if ok
            then Some {| sent := sent t + 1; failed := failed t; skipped := skipped t;
                         logs := logs t ++ [{| log_candidate_id := cid; log_to := to_email;
                                               log_status := SENT; log_reason := [] |}] |}
            else Some {| sent := sent t; failed := failed t + 1; skipped := skipped t;
                         logs := logs t ++ [{| log_candidate_id := cid; log_to := to_email;
                                               log_status := FAILED;
                                               log_reason := u "refused: " ++ info |}] |}
        end
    end.

Fixpoint send_all (t : Tally) (rows : list Row) : option Tally :=
  match rows with
  | [] => Some t
  | r :: rest =>
      match send_one t r with
      | None => None
      | Some t' => send_all t' rest
      end
  end.

End Sending.

(** [out[email_col].apply(is_valid_email)] and [bad_rows], the rows the
    page announces as not ready to be sent to, for a table that has the
    e-mail column. *)
Definition bad_rows (rows : list Row) : list Row :=
  filter (fun r => negb (is_valid_email (row_get r email (Str [])))) rows.

(* ================================================================== *)
(** * Properties *)

(** ** Comparisons and min/max *)

Lemma Qltb_true (x y : Q) : Qltb x y = true <-> x < y.
Proof.
  unfold Qltb. rewrite negb_true_iff.
  split; intro H.
  - apply Qnot_le_lt. intro L. apply Qle_bool_iff in L. congruence.
  - destruct (Qle_bool y x) eqn:E; [|reflexivity].
    apply Qle_bool_iff in E. exfalso. exact (Qlt_not_le _ _ H E).
Qed.

Lemma Qltb_false (x y : Q) : Qltb x y = false <-> y <= x.
Proof.
  unfold Qltb. rewrite negb_false_iff. apply Qle_bool_iff.
Qed.

Lemma Qleb_true (x y : Q) : Qleb x y = true <-> x <= y.
Proof. apply Qle_bool_iff. Qed.

Lemma py_min_le_r (a b : Q) : py_min a b <= b.
Proof.
  unfold py_min. destruct (Qltb b a) eqn:E.
  - apply Qle_refl.
  - apply Qltb_false in E. exact E.
Qed.

Lemma py_max_ge_l (a b : Q) : a <= py_max a b.
Proof.
  unfold py_max. destruct (Qltb a b) eqn:E.
  - apply Qltb_true in E. apply Qlt_le_weak. exact E.
  - apply Qle_refl.
Qed.

Lemma py_max_ge_r (a b : Q) : b <= py_max a b.
Proof.
  unfold py_max. destruct (Qltb a b) eqn:E.
  - apply Qle_refl.
  - apply Qltb_false in E. exact E.
Qed.

(** ** The order of the floats *)

(** The comparison of two floats the other way round. *)
Lemma SFcompare_swap (x y : spec_float) :
  SFcompare y x = option_map CompOpp (SFcompare x y).
Proof.
  destruct x as [sx|sx| |sx mx ex], y as [sy|sy| |sy my ey]; cbn;
    try reflexivity;
    try (destruct sx; reflexivity); try (destruct sy; reflexivity);
    try (destruct sx, sy; reflexivity).
  destruct sx, sy; try reflexivity;
    rewrite (Z.compare_antisym ey ex);
    destruct (ey ?= ex)%Z; cbn; try reflexivity.
  all: change (PosDef.Pos.compare_cont Eq mx my) with (Pos.compare_cont Eq mx my).
  all: change (PosDef.Pos.compare_cont Eq my mx) with (Pos.compare_cont Eq my mx).
  all: rewrite (Pos.compare_cont_antisym mx my Eq); reflexivity.
Qed.

Lemma SFcompare_refl (x : spec_float) :
  x <> S754_nan -> SFcompare x x = Some Eq.
Proof.
  destruct x as [s|s| |s m e]; cbn; intro H; try reflexivity.
  - destruct s; reflexivity.
  - contradiction.
  - rewrite Z.compare_refl.
    assert (E : Pos.compare_cont Eq m m = Eq) by apply Pos.compare_cont_refl.
    destruct s; rewrite E; reflexivity.
Qed.

(** Two floats do not compare when one of them is NaN, and only then. *)
Lemma SFcompare_None (x y : spec_float) :
  SFcompare x y = None <-> x = S754_nan \/ y = S754_nan.
Proof.
  destruct x as [sx|sx| |sx mx ex], y as [sy|sy| |sy my ey]; cbn;
    split; intro H; try discriminate; try (destruct H; discriminate); auto.
Qed.

Lemma is_nan_spec (x : float) : is_nan x = true <-> Prim2SF x = S754_nan.
Proof.
  unfold is_nan. rewrite FloatAxioms.eqb_spec. unfold SFeqb. split.
  - intro H. destruct (Prim2SF x) eqn:E; try reflexivity; exfalso;
      rewrite SFcompare_refl in H by discriminate; discriminate.
  - intros ->. reflexivity.
Qed.

(** [x >= y] holds unless [x < y] or one of the two is NaN. *)
Lemma float_trichotomy (x y : float) :
  (y <=? x)%float = negb ((x <? y)%float || is_nan x || is_nan y).
Proof.
  rewrite FloatAxioms.leb_spec, FloatAxioms.ltb_spec. unfold SFleb, SFltb.
  rewrite (SFcompare_swap (Prim2SF x) (Prim2SF y)).
  destruct (SFcompare (Prim2SF x) (Prim2SF y)) as [[| |]|] eqn:C; cbn.
  - destruct (is_nan x) eqn:Nx.
    + apply is_nan_spec in Nx. rewrite Nx in C. discriminate.
    + destruct (is_nan y) eqn:Ny; [|reflexivity].
      apply is_nan_spec in Ny. rewrite Ny in C. destruct (Prim2SF x); discriminate.
  - reflexivity.
  - destruct (is_nan x) eqn:Nx.
    + apply is_nan_spec in Nx. rewrite Nx in C. discriminate.
    + destruct (is_nan y) eqn:Ny; [|reflexivity].
      apply is_nan_spec in Ny. rewrite Ny in C. destruct (Prim2SF x); discriminate.
  - apply SFcompare_None in C as [C|C]; apply is_nan_spec in C; rewrite C;
      [|destruct (is_nan x)]; reflexivity.
Qed.

Lemma float_eqb_leb (x y : float) : (x =? y)%float = true -> (y <=? x)%float = true.
Proof.
  rewrite FloatAxioms.eqb_spec, FloatAxioms.leb_spec. unfold SFeqb, SFleb.
  rewrite (SFcompare_swap (Prim2SF x) (Prim2SF y)).
  destruct (SFcompare (Prim2SF x) (Prim2SF y)) as [[| |]|]; cbn; congruence.
Qed.

Lemma float_leb_not_ltb (x y : float) : (x <=? y)%float = true -> (y <? x)%float = false.
Proof.
  rewrite FloatAxioms.leb_spec, FloatAxioms.ltb_spec. unfold SFltb, SFleb.
  rewrite (SFcompare_swap (Prim2SF x) (Prim2SF y)).
  destruct (SFcompare (Prim2SF x) (Prim2SF y)) as [[| |]|]; cbn; congruence.
Qed.

(** NaN is below nothing. *)
Lemma float_nan_not_ltb (x y : float) : is_nan x = true -> (x <? y)%float = false.
Proof.
  intro H. apply is_nan_spec in H.
  rewrite FloatAxioms.ltb_spec. unfold SFltb. rewrite H. reflexivity.
Qed.

(** The mantissa of a float of [d] digits lies between 2^(d-1) and 2^d. *)
Lemma mantissa_bounds (m : positive) :
  (2 ^ (Z.pos (digits2_pos m) - 1) <= Z.pos m < 2 ^ Z.pos (digits2_pos m))%Z.
Proof.
  induction m as [m IH|m IH|]; cbn [digits2_pos].
  - change (PosDef.Pos.succ (digits2_pos m)) with (Pos.succ (digits2_pos m)).
    rewrite Pos2Z.inj_succ.
    replace (Z.succ (Z.pos (digits2_pos m)) - 1)%Z
      with (Z.succ (Z.pos (digits2_pos m) - 1))%Z by lia.
    rewrite !Z.pow_succ_r by lia. lia.
  - change (PosDef.Pos.succ (digits2_pos m)) with (Pos.succ (digits2_pos m)).
    rewrite Pos2Z.inj_succ.
    replace (Z.succ (Z.pos (digits2_pos m)) - 1)%Z
      with (Z.succ (Z.pos (digits2_pos m) - 1))%Z by lia.
    rewrite !Z.pow_succ_r by lia. lia.
  - cbn. lia.
Qed.

(** The exponent of a float is the least one its mantissa allows. *)
Lemma bounded_exponent (m : positive) (e : Z) :
  bounded prec emax m e = true ->
  e = Z.max (Z.pos (digits2_pos m) + e - prec) emin.
Proof.
  unfold bounded, canonical_mantissa, fexp. intro H.
  apply andb_true_iff in H as [H _]. apply Z.eqb_eq in H.
  change IntDef.Z.max with Z.max in H. symmetry. exact H.
Qed.

(** The mantissa above the least exponent, as an integer. *)
Definition scaled (m : positive) (e : Z) : Z := (Z.pos m * 2 ^ (e - emin))%Z.

Lemma scaled_lt (m1 m2 : positive) (e1 e2 : Z) :
  bounded prec emax m1 e1 = true -> bounded prec emax m2 e2 = true ->
  (e1 < e2)%Z -> (scaled m1 e1 < scaled m2 e2)%Z.
Proof.
  intros B1 B2 L.
  assert (Hp : prec = 53%Z) by reflexivity.
  apply bounded_exponent in B1, B2.
  pose proof (mantissa_bounds m1) as [_ U1].
  pose proof (mantissa_bounds m2) as [L2 _].
  assert (D1 : (Z.pos (digits2_pos m1) <= prec)%Z) by lia.
  assert (E1 : (emin <= e1)%Z) by lia.
  assert (D2 : (Z.pos (digits2_pos m2) = prec)%Z) by lia.
  rewrite D2 in L2.
  assert (P1 : (Z.pos m1 < 2 ^ prec)%Z).
  { apply Z.lt_le_trans with (1 := U1). apply Z.pow_le_mono_r; lia. }
  unfold scaled.
  assert (S1 : (0 < 2 ^ (e1 - emin))%Z) by (apply Z.pow_pos_nonneg; lia).
  apply Z.lt_le_trans with (2 ^ prec * 2 ^ (e1 - emin))%Z.
  - apply Z.mul_lt_mono_pos_r; assumption.
  - rewrite <- Z.pow_add_r by lia.
    apply Z.le_trans with (2 ^ (prec - 1) * 2 ^ (e2 - emin))%Z.
    + rewrite <- Z.pow_add_r by lia.
      apply Z.pow_le_mono_r; lia.
    + apply Z.mul_le_mono_nonneg_r; [apply Z.pow_nonneg; lia | exact L2].
Qed.

Lemma scaled_compare (m1 m2 : positive) (e1 e2 : Z) :
  bounded prec emax m1 e1 = true -> bounded prec emax m2 e2 = true ->
  match (e1 ?= e2)%Z with
  | Eq => Pos.compare_cont Eq m1 m2
  | Lt => Lt
  | Gt => Gt
  end = (scaled m1 e1 ?= scaled m2 e2)%Z.
Proof.
  intros B1 B2. destruct (e1 ?= e2)%Z eqn:C.
  - apply Z.compare_eq in C. subst e2. unfold scaled.
    assert (S1 : (0 < 2 ^ (e1 - emin))%Z).
    { apply Z.pow_pos_nonneg; [lia|]. apply bounded_exponent in B1. lia. }
    change (Pos.compare_cont Eq m1 m2) with (Z.pos m1 ?= Z.pos m2)%Z.
    rewrite !(Z.mul_comm _ (2 ^ (e1 - emin))).
    apply Zmult_compare_compat_l. lia.
  - symmetry. apply Z.compare_lt_iff, scaled_lt; assumption.
  - symmetry. apply Z.compare_gt_iff, scaled_lt; try assumption.
    apply Z.compare_gt_iff in C. exact C.
Qed.

Lemma value_scaled (z : Z) (e : Z) :
  (emin <= e)%Z ->
  inject_Z z * 2 ^ e == inject_Z (z * 2 ^ (e - emin)) * 2 ^ emin.
Proof.
  intro H. rewrite inject_Z_mult, Zpower_Qpower by lia.
  change (inject_Z 2) with 2.
  replace e with ((e - emin) + emin)%Z at 1 by lia.
  rewrite Qpower_plus by discriminate. ring.
Qed.

Lemma Qcompare_scale (a b c : Q) : 0 < c -> (a * c ?= b * c) = (a ?= b).
Proof.
  intro H. destruct (a ?= b) eqn:C.
  - apply Qeq_alt in C. apply Qeq_alt. rewrite C. reflexivity.
  - apply Qlt_alt in C. apply Qlt_alt. apply Qmult_lt_compat_r; assumption.
  - apply Qgt_alt in C. apply Qgt_alt. apply Qmult_lt_compat_r; assumption.
Qed.

Lemma Qcompare_inject_Z (a b : Z) : (inject_Z a ?= inject_Z b) = (a ?= b)%Z.
Proof. unfold Qcompare, inject_Z. cbn [Qnum Qden]. rewrite !Z.mul_1_r. reflexivity. Qed.

(** The comparison of two finite floats is the comparison of the numbers
    they stand for. *)
Lemma SFcompare_value (x y : spec_float) (vx vy : Q) :
  valid_binary x = true -> valid_binary y = true ->
  SF_value x = Some vx -> SF_value y = Some vy ->
  SFcompare x y = Some (vx ?= vy).
Proof.
  assert (P : 0 < 2 ^ emin) by (apply Qpower_0_lt; reflexivity).
  assert (V : forall (s : bool) (m : positive) (e : Z), bounded prec emax m e = true ->
                inject_Z (if s then Z.neg m else Z.pos m) * 2 ^ e
                == inject_Z ((if s then -1 else 1) * scaled m e)%Z * 2 ^ emin).
  { intros s m e B. rewrite value_scaled by (apply bounded_exponent in B; lia).
    unfold scaled. destruct s; [|rewrite Z.mul_1_l; reflexivity].
    replace (Z.neg m * 2 ^ (e - emin))%Z with (-1 * (Z.pos m * 2 ^ (e - emin)))%Z
      by lia. reflexivity. }
  assert (S : forall m e, bounded prec emax m e = true -> (0 < scaled m e)%Z).
  { intros m e B. unfold scaled. apply Z.mul_pos_pos; [lia|].
    apply Z.pow_pos_nonneg; [lia|]. apply bounded_exponent in B. lia. }
  assert (Z0 : 0 == inject_Z 0 * 2 ^ emin) by (change (inject_Z 0) with 0; ring).
  destruct x as [sx|sx| |sx mx ex], y as [sy|sy| |sy my ey];
    cbn [SF_value SpecFloat.valid_binary]; intros Bx By Ex Ey;
    try discriminate; injection Ex as <-; injection Ey as <-.
  - reflexivity.
  - cbn [SFcompare]. f_equal. rewrite (V sy my ey By), Z0 at 1.
    rewrite Qcompare_scale by exact P. rewrite Qcompare_inject_Z.
    pose proof (S my ey By). destruct sy; symmetry.
    + apply Z.compare_gt_iff. lia.
    + apply Z.compare_lt_iff. lia.
  - cbn [SFcompare]. f_equal. rewrite (V sx mx ex Bx), Z0.
    rewrite Qcompare_scale by exact P. rewrite Qcompare_inject_Z.
    pose proof (S mx ex Bx). destruct sx; symmetry.
    + apply Z.compare_lt_iff. lia.
    + apply Z.compare_gt_iff. lia.
  - cbn [SFcompare]. f_equal. rewrite (V sx mx ex Bx), (V sy my ey By).
    rewrite Qcompare_scale by exact P. rewrite Qcompare_inject_Z.
    pose proof (S mx ex Bx). pose proof (S my ey By).
    destruct sx, sy.
    + change (PosDef.Pos.compare_cont Eq mx my) with (Pos.compare_cont Eq mx my).
      replace (match (ex ?= ey)%Z with
               | Eq => CompOpp (Pos.compare_cont Eq mx my)
               | Lt => Gt
               | Gt => Lt
               end)
        with (CompOpp (match (ex ?= ey)%Z with
                       | Eq => Pos.compare_cont Eq mx my
                       | Lt => Lt
                       | Gt => Gt
                       end)) by (destruct (ex ?= ey)%Z; reflexivity).
      rewrite (@scaled_compare _ _ _ _ Bx By).
      rewrite <- Z.compare_antisym. rewrite <- Z.compare_opp.
      f_equal; lia.
    + symmetry. apply Z.compare_lt_iff. lia.
    + symmetry. apply Z.compare_gt_iff. lia.
    + change (PosDef.Pos.compare_cont Eq mx my) with (Pos.compare_cont Eq mx my).
      rewrite (@scaled_compare _ _ _ _ Bx By). f_equal; lia.
Qed.

(** On two finite floats [x <= y] is the order of the numbers. *)
Lemma float_leb_value (x y : float) (vx vy : Q) :
  float_value x = Some vx -> float_value y = Some vy ->
  ((x <=? y)%float = true <-> vx <= vy).
Proof.
  unfold float_value. intros Ex Ey.
  rewrite FloatAxioms.leb_spec. unfold SFleb.
  rewrite (@SFcompare_value _ _ _ _ (Prim2SF_valid x) (Prim2SF_valid y) Ex Ey).
  rewrite Qle_alt. destruct (vx ?= vy); split; intro H; try reflexivity;
    try discriminate; try (exfalso; apply H; reflexivity).
Qed.

(** [int] on some floats: towards zero, and no integer for an infinity or
    NaN. *)
Example py_int_examples :
  py_int 35.7 = Some 35%Z /\ py_int (-1.5) = Some (-1)%Z /\ py_int (-0) = Some 0%Z
  /\ py_int 1e22 = Some (10 ^ 22)%Z
  /\ py_int infinity = None /\ py_int neg_infinity = None /\ py_int nan = None.
Proof. repeat split; vm_compute; reflexivity. Qed.

(** [int(x)] raises on a float that is not negative only when it is the
    infinity. *)
Lemma py_int_raises (x : float) :
  (0 <=? x)%float = true -> py_int x = None -> x = infinity.
Proof.
  rewrite FloatAxioms.leb_spec. unfold py_int. intros L H.
  rewrite <- (SF2Prim_Prim2SF x).
  destruct (Prim2SF x) as [s|s| |s m e]; try discriminate.
  destruct s; [discriminate L | reflexivity].
Qed.

(** ** White space at the edges *)

Section Strip.

(** [s] does not start with white space. *)
Definition no_lead (s : str) : Prop :=
  match s with [] => True | c :: _ => is_space c = false end.

Lemma lstrip_no_lead (s : str) : no_lead (lstrip s).
Proof.
  induction s as [|c r IH]; simpl; [exact I|].
  destruct (is_space c) eqn:E; [exact IH | simpl; exact E].
Qed.

Lemma lstrip_fixed (s : str) : no_lead s -> lstrip s = s.
Proof.
  destruct s as [|c r]; simpl; [reflexivity|].
  intros ->. reflexivity.
Qed.

Lemma lstrip_idem (s : str) : lstrip (lstrip s) = lstrip s.
Proof. apply lstrip_fixed, lstrip_no_lead. Qed.

Lemma lstrip_snoc (l : str) (c : N) :
  lstrip (l ++ [c]) = match lstrip l with [] => lstrip [c] | x => x ++ [c] end.
Proof.
  induction l as [|a l IH]; [reflexivity|].
  cbn [app lstrip]. destruct (is_space a); [exact IH | reflexivity].
Qed.

(** [rstrip] one character at a time. *)
Lemma rstrip_cons (c : N) (t : str) :
  rstrip (c :: t) =
  match rstrip t with
  | [] => if is_space c then [] else [c]
  | x => c :: x
  end.
Proof.
  unfold rstrip. cbn [rev]. rewrite lstrip_snoc.
  destruct (lstrip (rev t)) as [|a l] eqn:E.
  - cbn. destruct (is_space c); reflexivity.
  - rewrite rev_app_distr. cbn [rev app].
    destruct (rev l ++ [a]) eqn:E2; [|reflexivity].
    destruct (rev l); discriminate.
Qed.

Lemma rstrip_idem (s : str) : rstrip (rstrip s) = rstrip s.
Proof.
  unfold rstrip. rewrite rev_involutive, lstrip_idem. reflexivity.
Qed.

Lemma rstrip_no_lead (s : str) : no_lead s -> no_lead (rstrip s).
Proof.
  destruct s as [|c t]; [intros _; exact I|].
  cbn [no_lead]. intro E. rewrite rstrip_cons, E.
  destruct (rstrip t); cbn; exact E.
Qed.

Lemma strip_idem (s : str) : strip (strip s) = strip s.
Proof.
  unfold strip.
  rewrite (lstrip_fixed (rstrip (lstrip s))).
  - apply rstrip_idem.
  - apply rstrip_no_lead, lstrip_no_lead.
Qed.

(** The characters of a stripped string are characters of the string. *)
Lemma lstrip_Forall (P : N -> Prop) (s : str) : Forall P s -> Forall P (lstrip s).
Proof.
  induction 1 as [|c r Hc Hr IH]; simpl; [constructor|].
  destruct (is_space c); [exact IH | constructor; assumption].
Qed.

Lemma rstrip_Forall (P : N -> Prop) (s : str) : Forall P s -> Forall P (rstrip s).
Proof.
  intro H. unfold rstrip.
  apply Forall_rev, lstrip_Forall, Forall_rev, H.
Qed.

Lemma strip_Forall (P : N -> Prop) (s : str) : Forall P s -> Forall P (strip s).
Proof. intro H. apply rstrip_Forall, lstrip_Forall, H. Qed.

End Strip.

(** ** Collapsed white space *)

Section Collapse.

(** Every white character of [s] is an ASCII space that follows a
    character which is not white; [prev] says the character before [s]
    was white. *)
Fixpoint collapsed (prev : bool) (s : str) : bool :=
  match s with
  | [] => true
  | c :: r =>
      if is_space c then negb prev && (c =? 32)%N && collapsed true r
      else collapsed false r
  end.

Lemma sub_ws_collapsed (b : bool) (s : str) : collapsed b (sub_ws b s) = true.
Proof.
  revert b. induction s as [|c r IH]; intro b; [reflexivity|].
  cbn [sub_ws]. destruct (is_space c) eqn:E.
  - destruct b; [apply IH|].
    cbn [collapsed]. change (is_space 32) with true. cbn. apply IH.
  - cbn [collapsed]. rewrite E. apply IH.
Qed.

Lemma sub_ws_fixed (b : bool) (s : str) : collapsed b s = true -> sub_ws b s = s.
Proof.
  revert b. induction s as [|c r IH]; intro b; [reflexivity|].
  cbn [collapsed sub_ws]. destruct (is_space c) eqn:E.
  - intro H. apply andb_true_iff in H as [H Hr].
    apply andb_true_iff in H as [Hb Hc].
    apply negb_true_iff in Hb. subst b.
    apply N.eqb_eq in Hc. subst c. f_equal. apply IH, Hr.
  - intro H. f_equal. apply IH, H.
Qed.

Lemma collapsed_weaken (s : str) : collapsed true s = true -> collapsed false s = true.
Proof.
  destruct s as [|c r]; [reflexivity|].
  cbn [collapsed]. destruct (is_space c); [discriminate | exact (fun H => H)].
Qed.

Lemma collapsed_lstrip (s : str) :
  collapsed false s = true -> collapsed false (lstrip s) = true.
Proof.
  destruct s as [|c r]; [reflexivity|].
  cbn [lstrip]. destruct (is_space c) eqn:E; [|exact (fun H => H)].
  cbn [collapsed]. rewrite E. intro H.
  apply andb_true_iff in H as [_ Hr].
  rewrite lstrip_fixed; [apply collapsed_weaken, Hr|].
  destruct r as [|d r]; [exact I|].
  cbn [collapsed] in Hr. cbn. destruct (is_space d); [discriminate | reflexivity].
Qed.

Lemma collapsed_rstrip (b : bool) (s : str) :
  collapsed b s = true -> collapsed b (rstrip s) = true.
Proof.
  revert b. induction s as [|c t IH]; intro b; [reflexivity|].
  rewrite rstrip_cons. cbn [collapsed].
  destruct (is_space c) eqn:E.
  - intro H. apply andb_true_iff in H as [H Ht].
    specialize (IH true Ht).
    destruct (rstrip t) as [|x l]; [reflexivity|].
    cbn [collapsed]. rewrite E. rewrite H. exact IH.
  - intro Ht. specialize (IH false Ht).
    destruct (rstrip t) as [|x l]; cbn [collapsed]; rewrite E; [reflexivity | exact IH].
Qed.

Lemma sub_ws_Forall (P : N -> Prop) (b : bool) (s : str) :
  P 32%N -> Forall P s -> Forall P (sub_ws b s).
Proof.
  intros H32 H. revert b. induction H as [|c r Hc Hr IH]; intro b; [constructor|].
  cbn [sub_ws]. destruct (is_space c); [destruct b|]; auto.
Qed.

End Collapse.

(** ** The case tables *)

(** The pairs of a table of mappings, one by one. *)
Definition expand_entry (e : N * N * N * N) : list (N * N) :=
  let '(lo, hi, stride, to) := e in
  map (fun k => ((lo + N.of_nat k * stride)%N, (to + N.of_nat k * stride)%N))
      (seq 0 (S (N.to_nat ((hi - lo) / stride)))).

Definition expand (tbl : list (N * N * N * N)) : list (N * N) :=
  flat_map expand_entry tbl.

Lemma map_lookup_In (c v : N) (tbl : list (N * N * N * N)) :
  map_lookup c tbl = Some v -> In (c, v) (expand tbl).
Proof.
  induction tbl as [|[[[lo hi] stride] to] tbl IH]; [discriminate|].
  cbn [map_lookup]. unfold expand. cbn [flat_map]. fold (expand tbl).
  destruct (c <? lo)%N eqn:L; [discriminate|].
  destruct ((c <=? hi)%N && ((c - lo) mod stride =? 0)%N) eqn:E.
  - intro H. injection H as <-. apply in_or_app. left.
    apply andb_true_iff in E as [Hi Hm].
    apply N.ltb_ge in L. apply N.leb_le in Hi. apply N.eqb_eq in Hm.
    unfold expand_entry. apply in_map_iff.
    exists (N.to_nat ((c - lo) / stride)).
    assert (D : (N.of_nat (N.to_nat ((c - lo) / stride)) * stride = c - lo)%N).
    { rewrite N2Nat.id. rewrite N.mul_comm. symmetry.
      apply N.Div0.div_exact. exact Hm. }
    split.
    + rewrite D. clear - L. f_equal. lia.
    + apply in_seq. split; [apply Nat.le_0_l|]. cbn [Nat.add].
      assert (Q : ((c - lo) / stride <= (hi - lo) / stride)%N)
        by (apply N.Div0.div_le_mono; clear - L Hi; lia).
      revert Q. generalize ((c - lo) / stride)%N, ((hi - lo) / stride)%N.
      clear. intros q1 q2 Q. lia.
  - intro H. apply in_or_app. right. exact (IH H).
Qed.

(** The code points [str.lower] can put out in place of another one. *)
Definition lower_images : list N :=
  [0x3C2; 0x3C3; 0x69; 0x307]%N ++ map snd (expand Unicode.Lowercase_Mapping).

(** [c] is its own lower case, wherever it stands. *)
Definition lower_fixed (c : N) : bool :=
  negb (c =? 0x3A3)%N && negb (c =? 0x130)%N && (lower_char c =? c)%N.

Lemma lower_at_fixed (before : str) (c : N) (after : str) :
  lower_fixed c = true -> lower_at before c after = [c].
Proof.
  unfold lower_fixed, lower_at, lower_full. intro H.
  apply andb_true_iff in H as [H E]. apply andb_true_iff in H as [S I].
  apply negb_true_iff in S, I. apply N.eqb_eq in E.
  rewrite S, I, E. reflexivity.
Qed.

(** A character [str.lower] puts out is the character it read, which is
    its own lower case, or one of the images. *)
Lemma lower_at_out (before : str) (c : N) (after : str) (x : N) :
  In x (lower_at before c after) ->
  (x = c /\ lower_fixed c = true) \/ In x lower_images.
Proof.
  unfold lower_at, lower_full, lower_images.
  destruct (c =? 0x3A3)%N eqn:S.
  - intros [<-|[]]. right. apply in_or_app. left.
    destruct (final_sigma before after); [left | right; left]; reflexivity.
  - destruct (c =? 0x130)%N eqn:I.
    + intro H. right. apply in_or_app. left.
      destruct H as [<-|[<-|[]]]; [do 2 right; left | do 3 right; left]; reflexivity.
    + intros [<-|[]]. unfold lower_char.
      destruct (map_lookup c Unicode.Lowercase_Mapping) as [v|] eqn:M.
      * right. apply in_or_app. right.
        exact (in_map snd _ _ (@map_lookup_In _ _ _ M)).
      * left. split; [reflexivity|].
        unfold lower_fixed, lower_char. rewrite S, I, M, N.eqb_refl. reflexivity.
Qed.

Lemma lower_images_fixed : forallb lower_fixed lower_images = true.
Proof. vm_compute. reflexivity. Qed.

(** What holds of the images and of the characters of a string holds of
    the characters of its lower case. *)
Lemma lower_from_forallb (P : N -> bool) :
  forallb P lower_images = true ->
  forall before s, forallb P s = true -> forallb P (lower_from before s) = true.
Proof.
  intros Himg before s. revert before.
  induction s as [|c r IH]; intros before H; [reflexivity|].
  cbn [forallb] in H. apply andb_true_iff in H as [Hc Hr].
  cbn [lower_from]. rewrite forallb_app, (IH _ Hr), andb_true_r.
  apply forallb_forall. intros x Hx.
  destruct (@lower_at_out _ _ _ _ Hx) as [[-> _] | Hi]; [exact Hc|].
  exact (proj1 (forallb_forall _ _) Himg x Hi).
Qed.

(** Every character of a lower-cased string is its own lower case. *)
Lemma lower_from_out (before s : str) :
  forallb lower_fixed (lower_from before s) = true.
Proof.
  revert before. induction s as [|c r IH]; intros before; [reflexivity|].
  cbn [lower_from]. rewrite forallb_app, IH, andb_true_r.
  apply forallb_forall. intros x Hx.
  destruct (@lower_at_out _ _ _ _ Hx) as [[-> F] | Hi]; [exact F|].
  exact (proj1 (forallb_forall _ _) lower_images_fixed x Hi).
Qed.

(** A string of such characters is its own lower case. *)
Lemma lower_from_fixed (before s : str) :
  forallb lower_fixed s = true -> lower_from before s = s.
Proof.
  revert before. induction s as [|c r IH]; intros before H; [reflexivity|].
  cbn [forallb] in H. apply andb_true_iff in H as [Hc Hr].
  cbn [lower_from]. rewrite (@lower_at_fixed _ _ _ Hc), (IH _ Hr). reflexivity.
Qed.

Lemma lower_idem (s : str) : lower (lower s) = lower s.
Proof. apply lower_from_fixed, lower_from_out. Qed.

Lemma lower_at_not_nil (before : str) (c : N) (after : str) :
  lower_at before c after <> [].
Proof.
  unfold lower_at, lower_full.
  destruct (c =? 0x3A3)%N; [discriminate|].
  destruct (c =? 0x130)%N; discriminate.
Qed.

Lemma lower_from_not_nil (before s : str) : s <> [] -> lower_from before s <> [].
Proof.
  destruct s as [|c r]; [contradiction|]. intros _ E.
  cbn [lower_from] in E. apply app_eq_nil in E as [E _].
  exact (@lower_at_not_nil _ _ _ E).
Qed.

(** A character that follows from one of [s] which is its own lower case
    is in the lower case of [s]. *)
Lemma lower_from_In (before s : str) (c : N) :
  lower_fixed c = true -> In c s -> In c (lower_from before s).
Proof.
  intro F. revert before. induction s as [|a r IH]; intros before H; [destruct H|].
  cbn [lower_from]. apply in_or_app. destruct H as [->|H].
  - left. rewrite (@lower_at_fixed _ _ _ F). left. reflexivity.
  - right. apply IH, H.
Qed.

(** ** Idempotence of the normalizer and of the identifier cleaner *)

Lemma normalize_text_idem (x : pyobj) :
  normalize_text (Str (normalize_text x)) = normalize_text x.
Proof.
  unfold normalize_text. cbn [is_str py_str Str negb].
  destruct (is_str x); cbn [negb]; [|reflexivity].
  set (r := strip (sub_ws false (lower (py_str x)))).
  assert (Hl : lower r = r).
  { apply lower_from_fixed. apply forallb_forall.
    assert (F : Forall (fun c => lower_fixed c = true) r).
    { apply strip_Forall, sub_ws_Forall; [reflexivity|].
      apply Forall_forall. exact (proj1 (forallb_forall _ _) (lower_from_out [] _)). }
    exact (proj1 (Forall_forall _ _) F). }
  assert (Hc : sub_ws false r = r).
  { apply sub_ws_fixed. unfold r, strip.
    apply collapsed_rstrip, collapsed_lstrip, sub_ws_collapsed. }
  rewrite Hl, Hc. apply strip_idem.
Qed.

(** [replace] and the characters of a string. *)
Lemma replace_absent (s : str) (ch : N) (rep : str) :
  Forall (fun c => c <> ch) s -> replace s ch rep = s.
Proof.
  induction 1 as [|c r Hc Hr IH]; [reflexivity|].
  unfold replace in *. cbn [flat_map]. rewrite IH.
  apply N.eqb_neq in Hc. rewrite Hc. reflexivity.
Qed.

Lemma replace_Forall (P : N -> Prop) (s : str) (ch : N) (rep : str) :
  Forall P rep -> Forall P s -> Forall P (replace s ch rep).
Proof.
  intros Hrep H. induction H as [|c r Hc Hr IH]; [constructor|].
  unfold replace in *. cbn [flat_map].
  apply Forall_app. split; [|exact IH].
  destruct (c =? ch)%N; [exact Hrep | constructor; [exact Hc | constructor]].
Qed.

Lemma replace_removes (s : str) (ch : N) (rep : str) :
  Forall (fun c => c <> ch) rep -> Forall (fun c => c <> ch) (replace s ch rep).
Proof.
  intro Hrep. induction s as [|c r IH]; [constructor|].
  unfold replace in *. cbn [flat_map].
  apply Forall_app. split; [|exact IH].
  destruct (c =? ch)%N eqn:E; [exact Hrep|].
  apply N.eqb_neq in E. constructor; [exact E | constructor].
Qed.

Section ReplaceAll.

Variable rep : str.
Let pass (s : str) (chs : list N) : str :=
  fold_left (fun s ch => replace s ch rep) chs s.

Lemma pass_Forall (P : N -> Prop) (chs : list N) (s : str) :
  Forall P rep -> Forall P s -> Forall P (pass s chs).
Proof.
  intro Hrep. revert s. induction chs as [|a chs IH]; intros s H; [exact H|].
  change (Forall P (pass (replace s a rep) chs)).
  apply IH, replace_Forall; assumption.
Qed.

Lemma pass_removes (chs : list N) (s : str) (ch : N) :
  Forall (fun c => c <> ch) rep -> In ch chs ->
  Forall (fun c => c <> ch) (pass s chs).
Proof.
  intro Hrep. revert s. induction chs as [|a chs IH]; intros s Hin; [destruct Hin|].
  destruct Hin as [->|Hin].
  - change (Forall (fun c => c <> ch) (pass (replace s ch rep) chs)).
    apply pass_Forall; [exact Hrep|].
    apply replace_removes, Hrep.
  - change (Forall (fun c => c <> ch) (pass (replace s a rep) chs)).
    apply IH, Hin.
Qed.

Lemma pass_fixed (chs : list N) (s : str) :
  (forall ch, In ch chs -> Forall (fun c => c <> ch) s) -> pass s chs = s.
Proof.
  induction chs as [|a chs IH]; intro H; [reflexivity|].
  unfold pass in *. cbn [fold_left].
  rewrite replace_absent; [|apply H; left; reflexivity].
  apply IH. intros ch Hin. apply H. right. exact Hin.
Qed.

End ReplaceAll.

Lemma clean_email_idem (x : pyobj) :
  clean_email (Str (clean_email x)) = clean_email x.
Proof.
  unfold clean_email. cbn [is_str py_str Str negb].
  destruct (is_str x); cbn [negb]; [|reflexivity].
  set (s1 := fold_left (fun s ch => replace s ch []) INVISIBLE (py_str x)).
  set (s2 := fold_left (fun s ch => replace s ch [32%N]) WIDE_SPACES s1).
  assert (Hinv : forall ch, In ch INVISIBLE -> Forall (fun c => c <> ch) (strip s2)).
  { intros ch Hin. apply strip_Forall.
    apply (@pass_Forall [32%N] (fun c => c <> ch)).
    - constructor; [|constructor].
      cbn in Hin. intuition (subst; discriminate).
    - apply pass_removes; [constructor | exact Hin]. }
  assert (Hwide : forall ch, In ch WIDE_SPACES -> Forall (fun c => c <> ch) (strip s2)).
  { intros ch Hin. apply strip_Forall.
    apply pass_removes; [|exact Hin].
    constructor; [|constructor].
    cbn in Hin. intuition (subst; discriminate). }
  rewrite (@pass_fixed [] INVISIBLE (strip s2) Hinv).
  rewrite (@pass_fixed [32%N] WIDE_SPACES (strip s2) Hwide).
  apply strip_idem.
Qed.

(** C8. The identifier cleaner and the text normalizer are idempotent:
    cleaning (normalizing) the result of [clean_email] ([normalize_text])
    again gives the same string, for every input, a [str] or not. *)
Theorem clean_and_normalize_idempotent (x : pyobj) :
  clean_email (Str (clean_email x)) = clean_email x
  /\ normalize_text (Str (normalize_text x)) = normalize_text x.
Proof.
  split; [apply clean_email_idem | apply normalize_text_idem].
Qed.

(** ** The global knockout evaluator *)

(** C2. The penalty [_apply_global_knockout] returns is never below the
    configured cap, whatever the blob and the configuration. *)
Theorem global_knockout_penalty_ge_cap (blob : str) (cfg : Cfg) :
  gk_cap cfg <= fst (_apply_global_knockout blob cfg).
Proof.
  unfold _apply_global_knockout.
  destruct (gk_scan blob cfg) as [penalty hits]. cbn [fst].
  destruct (Qltb penalty (gk_cap cfg)) eqn:E.
  - apply Qle_refl.
  - apply Qltb_false, E.
Qed.

(** *** First occurrence *)




(** *** What one configured phrase contributes *)

Fixpoint Qsum (l : list Q) : Q :=
  match l with
  | [] => 0
  | x :: r => x + Qsum r
  end.

(** The phrases of the three tiers, in the order of the two loops. *)
Definition gk_entries (cfg : Cfg) : list (Level * str) :=
  flat_map (fun level => map (pair level) (dict_get (gk_lists cfg) level []))
           [hard; soft; review].

(** The phrase is not empty once normalized and occurs in the blob. *)
Definition gk_matches (blob phrase : str) : bool :=
  let p := normalize_text (Str phrase) in
  nonempty p && negb (find blob p =? -1)%Z.

Section Contribution.

Variable blob : str.
Variables wlist mterms : list str.
Variable factor : Q.
Variable ctx : Z.
Variable weights : Level -> option Q.

(** A mitigating term lies in the window around the first occurrence. *)
Definition gk_in_window (phrase : str) : bool :=
  let p := normalize_text (Str phrase) in
  mitigated (window blob (find blob p) p ctx) mterms.

(** The weight the entry adds to the running penalty. *)
Definition gk_applied (level : Level) (phrase : str) : Q :=
  let weight := dict_get weights level 0.0 in
  if negb (gk_matches blob phrase) then 0
  else if whitelisted blob wlist then 0
  else if gk_in_window phrase && Qltb weight 0 then weight * factor
  else weight.

(** The entry of the hit trace the phrase leaves, if any. *)
Definition gk_trace (level : Level) (phrase : str) : list Hit :=
  let p := normalize_text (Str phrase) in
  let weight := dict_get weights level 0.0 in
  if negb (gk_matches blob phrase) then []
  else if whitelisted blob wlist then [HitWhitelist p]
  else if gk_in_window phrase && Qltb weight 0 then [HitMitigated p level factor]
  else [HitPlain p level].

Lemma gk_phrase_spec (level : Level) (acc : Q * list Hit) (phrase : str) :
  let acc' := gk_phrase blob wlist mterms factor ctx weights level acc phrase in
  fst acc' == fst acc + gk_applied level phrase
  /\ snd acc' = snd acc ++ gk_trace level phrase.
Proof.
  destruct acc as [penalty hits].
  unfold gk_phrase, gk_applied, gk_trace, gk_matches, gk_in_window. cbv zeta.
  destruct (nonempty (normalize_text (Str phrase))); cbn [negb andb fst snd];
    [|split; [ring | symmetry; apply app_nil_r]].
  destruct (find blob (normalize_text (Str phrase)) =? -1)%Z; cbn [negb fst snd];
    [split; [ring | symmetry; apply app_nil_r]|].
  destruct (whitelisted blob wlist); cbn [fst snd]; [split; [ring | reflexivity]|].
  destruct (mitigated _ mterms && Qltb (dict_get weights level 0.0) 0);
    cbn [fst snd]; split; reflexivity.
Qed.

Lemma gk_inner_spec (level : Level) (l : list str) (acc : Q * list Hit) :
  let acc' := fold_left (gk_phrase blob wlist mterms factor ctx weights level) l acc in
  fst acc' == fst acc + Qsum (map (gk_applied level) l)
  /\ snd acc' = snd acc ++ flat_map (gk_trace level) l.
Proof.
  revert acc. induction l as [|phrase l IH]; intro acc; cbn [fold_left map flat_map Qsum].
  - split; [ring | symmetry; apply app_nil_r].
  - destruct (IH (gk_phrase blob wlist mterms factor ctx weights level acc phrase)) as [Hp Hh].
    destruct (gk_phrase_spec level acc phrase) as [Hp1 Hh1].
    cbv zeta in *. split.
    + rewrite Hp, Hp1. ring.
    + rewrite Hh, Hh1. symmetry. apply app_assoc.
Qed.

End Contribution.

Definition gk_contribution (blob : str) (cfg : Cfg) (lp : Level * str) : Q :=
  gk_applied blob (gk_wlist cfg) (gk_mterms cfg) (gk_factor cfg) (gk_ctx cfg)
             (gk_weights cfg) (fst lp) (snd lp).

Definition gk_hit (blob : str) (cfg : Cfg) (lp : Level * str) : list Hit :=
  gk_trace blob (gk_wlist cfg) (gk_mterms cfg) (gk_factor cfg) (gk_ctx cfg)
           (gk_weights cfg) (fst lp) (snd lp).

Lemma Qsum_app (a b : list Q) : Qsum (a ++ b) == Qsum a + Qsum b.
Proof.
  induction a as [|x a IH]; cbn [app Qsum].
  - ring.
  - rewrite IH. ring.
Qed.

(** The scan adds up the contributions of the configured entries, each
    taken once, and concatenates their traces. *)
Lemma gk_scan_spec (blob : str) (cfg : Cfg) :
  fst (gk_scan blob cfg) == Qsum (map (gk_contribution blob cfg) (gk_entries cfg))
  /\ snd (gk_scan blob cfg) = flat_map (gk_hit blob cfg) (gk_entries cfg).
Proof.
  unfold gk_scan, gk_entries. cbn [fold_left flat_map].
  set (step := gk_phrase blob (gk_wlist cfg) (gk_mterms cfg) (gk_factor cfg)
                         (gk_ctx cfg) (gk_weights cfg)).
  set (lh := dict_get (gk_lists cfg) hard []).
  set (ls := dict_get (gk_lists cfg) soft []).
  set (lr := dict_get (gk_lists cfg) review []).
  set (a1 := fold_left (step hard) lh (0.0, [])).
  set (a2 := fold_left (step soft) ls a1).
  destruct (gk_inner_spec blob (gk_wlist cfg) (gk_mterms cfg) (gk_factor cfg)
              (gk_ctx cfg) (gk_weights cfg) hard lh (0.0, [])) as [P1 H1].
  destruct (gk_inner_spec blob (gk_wlist cfg) (gk_mterms cfg) (gk_factor cfg)
              (gk_ctx cfg) (gk_weights cfg) soft ls a1) as [P2 H2].
  destruct (gk_inner_spec blob (gk_wlist cfg) (gk_mterms cfg) (gk_factor cfg)
              (gk_ctx cfg) (gk_weights cfg) review lr a2) as [P3 H3].
  cbv zeta in *. fold step a1 a2 in P1, H1, P2, H2, P3, H3.
  rewrite app_nil_r.
  split.
  - rewrite P3, P2, P1. rewrite !map_app, !Qsum_app, !map_map.
    cbn [fst]. unfold gk_contribution. cbn [fst snd].
    set (app_at := gk_applied blob (gk_wlist cfg) (gk_mterms cfg) (gk_factor cfg)
                              (gk_ctx cfg) (gk_weights cfg)).
    change (0.0 + Qsum (map (app_at hard) lh) + Qsum (map (app_at soft) ls)
            + Qsum (map (app_at review) lr)
            == Qsum (map (app_at hard) lh)
               + (Qsum (map (app_at soft) ls) + Qsum (map (app_at review) lr))).
    ring.
  - rewrite H3, H2, H1. rewrite !flat_map_app. cbn [snd app].
    rewrite !flat_map_concat_map, !map_map. unfold gk_hit. cbn [fst snd].
    rewrite app_assoc. reflexivity.
Qed.

(** *** Whitelist suppression *)

Lemma whitelisted_normalized (blob : str) (phrases : list str) :
  whitelisted blob (map (fun x => normalize_text (Str x)) phrases) = true
  <-> exists x, In x phrases /\ str_in (normalize_text (Str x)) blob = true.
Proof.
  unfold whitelisted. rewrite existsb_exists. split.
  - intros [w [Hin Hw]]. apply in_map_iff in Hin as [x [<- Hx]].
    rewrite normalize_text_idem in Hw. exists x. split; assumption.
  - intros [x [Hx Hs]]. exists (normalize_text (Str x)). split.
    + apply (in_map (fun x => normalize_text (Str x))). exact Hx.
    + rewrite normalize_text_idem. exact Hs.
Qed.

Section Whitelisted.

Variable blob : str.
Variable cfg : Cfg.
Hypothesis Hwl : whitelisted blob (gk_wlist cfg) = true.

Let step := gk_phrase blob (gk_wlist cfg) (gk_mterms cfg) (gk_factor cfg)
                      (gk_ctx cfg) (gk_weights cfg).

Lemma whitelisted_step (level : Level) (acc : Q * list Hit) (phrase : str) :
  fst (step level acc phrase) = fst acc
  /\ snd (step level acc phrase)
     = snd acc ++ (if gk_matches blob phrase
                   then [HitWhitelist (normalize_text (Str phrase))] else []).
Proof.
  destruct acc as [penalty hits].
  unfold step, gk_phrase, gk_matches. cbv zeta. rewrite Hwl.
  destruct (nonempty (normalize_text (Str phrase))); cbn [negb andb fst snd];
    [|split; [reflexivity | symmetry; apply app_nil_r]].
  destruct (find blob (normalize_text (Str phrase)) =? -1)%Z; cbn [negb fst snd];
    split; try reflexivity.
  symmetry; apply app_nil_r.
Qed.

Lemma whitelisted_inner (level : Level) (l : list str) (acc : Q * list Hit) :
  fst (fold_left (step level) l acc) = fst acc.
Proof.
  revert acc. induction l as [|phrase l IH]; intro acc; [reflexivity|].
  cbn [fold_left]. rewrite IH. apply whitelisted_step.
Qed.

Lemma whitelisted_hits (l : list (Level * str)) :
  flat_map (gk_hit blob cfg) l
  = map (fun lp => HitWhitelist (normalize_text (Str (snd lp))))
        (filter (fun lp => gk_matches blob (snd lp)) l).
Proof.
  induction l as [|[level phrase] l IH]; [reflexivity|].
  cbn [flat_map filter snd]. rewrite IH.
  unfold gk_hit, gk_trace. cbn [fst snd]. cbv zeta. rewrite Hwl.
  destruct (gk_matches blob phrase); reflexivity.
Qed.

End Whitelisted.

(** C3. When a normalized whitelist phrase occurs anywhere in the blob,
    every iteration of the scan leaves the running penalty as it is and
    records a matching phrase as neutralized, whatever its tier and
    whatever its window holds; the scan ends with penalty zero and a trace
    of neutralized hits only, and the evaluator returns zero (unless the
    cap itself is positive). *)
Theorem whitelist_suppression_is_total (blob : str) (cfg : Cfg) :
  (exists x, In x (get (whitelist_phrases (gk_mitig cfg)) [])
             /\ str_in (normalize_text (Str x)) blob = true) ->
  (forall level acc phrase,
     let acc' := gk_phrase blob (gk_wlist cfg) (gk_mterms cfg) (gk_factor cfg)
                           (gk_ctx cfg) (gk_weights cfg) level acc phrase in
     fst acc' = fst acc
     /\ snd acc' = snd acc ++ (if gk_matches blob phrase
                               then [HitWhitelist (normalize_text (Str phrase))]
                               else []))
  /\ fst (gk_scan blob cfg) = 0.0
  /\ snd (gk_scan blob cfg)
     = map (fun lp => HitWhitelist (normalize_text (Str (snd lp))))
           (filter (fun lp => gk_matches blob (snd lp)) (gk_entries cfg))
  /\ (gk_cap cfg <= 0 -> fst (_apply_global_knockout blob cfg) = 0.0).
Proof.
  intro Hex.
  assert (Hwl : whitelisted blob (gk_wlist cfg) = true)
    by (apply whitelisted_normalized, Hex).
  assert (Hpen : fst (gk_scan blob cfg) = 0.0).
  { unfold gk_scan. cbn [fold_left].
    rewrite !(@whitelisted_inner blob cfg Hwl). reflexivity. }
  split; [|split; [|split]].
  - intros level acc phrase. apply (@whitelisted_step blob cfg Hwl).
  - exact Hpen.
  - rewrite (proj2 (gk_scan_spec blob cfg)). apply (@whitelisted_hits blob cfg Hwl).
  - intro Hcap. unfold _apply_global_knockout.
    destruct (gk_scan blob cfg) as [penalty hits]. cbn [fst] in *. subst penalty.
    destruct (Qltb 0.0 (gk_cap cfg)) eqn:E; [|reflexivity].
    apply Qltb_true in E. lra.
Qed.

(** *** Mitigation *)

(** The four outcomes of one iteration. *)
Lemma gk_outcome_cases (blob : str) (wlist mterms : list str) (factor : Q)
    (ctx : Z) (weights : Level -> option Q) (level : Level) (phrase : str) :
  let p := normalize_text (Str phrase) in
  let weight := dict_get weights level 0.0 in
  let applied := gk_applied blob wlist mterms factor ctx weights level phrase in
  let trace := gk_trace blob wlist mterms factor ctx weights level phrase in
  (applied = 0 /\ trace = [])
  \/ (applied = 0 /\ trace = [HitWhitelist p])
  \/ (gk_in_window blob mterms ctx phrase = true /\ weight < 0
      /\ applied = weight * factor /\ trace = [HitMitigated p level factor])
  \/ (applied = weight /\ trace = [HitPlain p level]).
Proof.
  cbv zeta. unfold gk_applied, gk_trace.
  destruct (gk_matches blob phrase); cbn [negb]; [|left; split; reflexivity].
  destruct (whitelisted blob wlist); [right; left; split; reflexivity|].
  destruct (gk_in_window blob mterms ctx phrase) eqn:Ew; cbn [andb];
    [|right; right; right; split; reflexivity].
  destruct (Qltb (dict_get weights level 0.0) 0) eqn:El;
    [|right; right; right; split; reflexivity].
  right; right; left. apply Qltb_true in El. repeat split; assumption.
Qed.

(** A hard knockout phrase followed by a mitigating term. *)
Definition blob_mitigated : str := u "เคยโกง แต่ปรับปรุงแล้ว".

(** Every merged configuration has the mitigation factor of
    [DEFAULT_RULES], 0.5. *)
Lemma merged_factor (d : Department) : gk_factor (merged_cfg d) = 0.5.
Proof. reflexivity. Qed.

(** C6. An iteration of the scan records a mitigated hit only for a
    negative tier weight and a mitigating term in the window around the
    first occurrence, and then applies the weight times the configured
    factor; an iteration that records no mitigated hit applies the full
    tier weight or nothing; a non-negative tier weight is never scaled.
    With a factor that scales down, one in [0, 1] as the factor 0.5 of
    every merged configuration is, what is applied for a negative weight
    lies between the tier weight and zero: the sign is not flipped and
    the penalty not amplified. *)
Theorem mitigation_scales_toward_zero (blob : str) (wlist mterms : list str)
    (factor : Q) (ctx : Z) (weights : Level -> option Q) (level : Level)
    (acc : Q * list Hit) (phrase : str) :
  let p := normalize_text (Str phrase) in
  let weight := dict_get weights level 0.0 in
  let acc' := gk_phrase blob wlist mterms factor ctx weights level acc phrase in
  let applied := fst acc' - fst acc in
  (snd acc' = snd acc ++ [HitMitigated p level factor] ->
     gk_in_window blob mterms ctx phrase = true /\ weight < 0
     /\ applied == weight * factor)
  /\ (snd acc' <> snd acc ++ [HitMitigated p level factor] ->
      applied == 0 \/ applied == weight)
  /\ (0 <= weight -> snd acc' <> snd acc ++ [HitMitigated p level factor])
  /\ (0 <= factor <= 1 -> weight < 0 -> weight <= applied /\ applied <= 0)
  /\ (forall d : Department, 0 <= gk_factor (merged_cfg d) <= 1).
Proof.
  cbv zeta.
  destruct (gk_phrase_spec blob wlist mterms factor ctx weights level acc phrase)
    as [Hp Hh].
  cbv zeta in Hp, Hh. rewrite Hh.
  set (d := fst (gk_phrase blob wlist mterms factor ctx weights level acc phrase)
            - fst acc).
  assert (Hd : d == gk_applied blob wlist mterms factor ctx weights level phrase)
    by (unfold d; rewrite Hp; ring).
  assert (Hshipped : forall dep : Department, 0 <= gk_factor (merged_cfg dep) <= 1).
  { intro dep. rewrite merged_factor. split; lra. }
  destruct (gk_outcome_cases blob wlist mterms factor ctx weights level phrase)
    as [[Ha Ht] | [[Ha Ht] | [[Hw [Hn [Ha Ht]]] | [Ha Ht]]]];
    cbv zeta in *; rewrite Ht; rewrite Ha in Hd.
  - split; [|split; [|split; [|split; [|exact Hshipped]]]].
    + intro E. apply app_inv_head in E. discriminate.
    + intros _. left. exact Hd.
    + intros _ E. apply app_inv_head in E. discriminate.
    + intros _ ?. split; lra.
  - split; [|split; [|split; [|split; [|exact Hshipped]]]].
    + intro E. apply app_inv_head in E. discriminate.
    + intros _. left. exact Hd.
    + intros _ E. apply app_inv_head in E. discriminate.
    + intros _ ?. split; lra.
  - set (wt := dict_get weights level 0.0) in *.
    split; [|split; [|split; [|split; [|exact Hshipped]]]].
    + intros _. repeat split; assumption.
    + intro E. exfalso. apply E. reflexivity.
    + intro. lra.
    + intros [F0 F1] _.
      assert (M1 : 0 <= (- wt) * (1 - factor))
        by (apply Qmult_le_0_compat; lra).
      assert (M2 : 0 <= (- wt) * factor)
        by (apply Qmult_le_0_compat; lra).
      split; lra.
  - split; [|split; [|split; [|split; [|exact Hshipped]]]].
    + intro E. apply app_inv_head in E. discriminate.
    + intros _. right. exact Hd.
    + intros _ E. apply app_inv_head in E. discriminate.
    + intros _ ?. split; lra.
Qed.

(** At the Programmer configuration the hard phrase of [blob_mitigated] is
    mitigated: half the hard weight is applied, -1 for -2. *)
Example mitigated_hard_phrase :
  let cfg := merged_cfg DEPARTMENTS_CFG.Programmer in
  gk_phrase blob_mitigated (gk_wlist cfg) (gk_mterms cfg) (gk_factor cfg) (gk_ctx cfg)
            (gk_weights cfg) hard (0.0, []) (u "โกง")
  = (0.0 + -2.0 * 0.5, [HitMitigated (u "โกง") hard 0.5]).
Proof. vm_compute. reflexivity. Qed.

(** *** One contribution per configured phrase *)



(** A blob with a hard knockout phrase and a whitelist phrase. *)
Definition blob_whitelisted : str := u "เคยโกง ยอมรับข้อผิดพลาดและปรับปรุง".

(** At the shipped configuration: the hard phrase is neutralized. *)
Lemma whitelist_suppression_is_total_witness :
  (exists x, In x (get (whitelist_phrases
                          (gk_mitig (merged_cfg DEPARTMENTS_CFG.Programmer))) [])
             /\ str_in (normalize_text (Str x)) blob_whitelisted = true)
  /\ fst (gk_scan blob_whitelisted (merged_cfg DEPARTMENTS_CFG.Programmer)) = 0.0.
Proof.
  assert (H : exists x,
             In x (get (whitelist_phrases
                          (gk_mitig (merged_cfg DEPARTMENTS_CFG.Programmer))) [])
             /\ str_in (normalize_text (Str x)) blob_whitelisted = true).
  { exists (u "ยอมรับข้อผิดพลาดและปรับปรุง"). split.
    - vm_compute. do 4 right. left. reflexivity.
    - vm_compute. reflexivity. }
  split; [exact H|].
  exact (proj1 (proj2 (whitelist_suppression_is_total
                         blob_whitelisted (merged_cfg DEPARTMENTS_CFG.Programmer) H))).
Defined.

(* ================================================================== *)
(** ** The rule engine: every rule adds to the score and appends *)

Definition zero_state : State := (0, []).

(** What a rule adds to the score and appends to the reasons. *)
Definition delta_of (f : State -> State) : Q := fst (f zero_state).
Definition reasons_of (f : State -> State) : list Reason := snd (f zero_state).

(** A rule that only adds to the score and appends to the reasons,
    whatever the state it starts from. *)
Definition additive (f : State -> State) : Prop :=
  forall st, fst (f st) == fst st + delta_of f /\ snd (f st) = snd st ++ reasons_of f.

Lemma additive_id : additive (fun st => st).
Proof.
  intro st. unfold delta_of, reasons_of, zero_state. cbn [fst snd].
  split; [ring | symmetry; apply app_nil_r].
Qed.

Lemma additive_emit (r : Reason) (d : Q) : additive (fun st => emit st r d).
Proof.
  intro st. unfold delta_of, reasons_of, zero_state, emit. cbn [fst snd app].
  split; [ring | reflexivity].
Qed.

Lemma additive_note (r : Reason) : additive (fun st => note st r).
Proof.
  intro st. unfold delta_of, reasons_of, zero_state, note. cbn [fst snd app].
  split; [ring | reflexivity].
Qed.

Lemma additive_compose (f g : State -> State) :
  additive f -> additive g ->
  additive (fun st => g (f st))
  /\ delta_of (fun st => g (f st)) == delta_of f + delta_of g
  /\ reasons_of (fun st => g (f st)) = reasons_of f ++ reasons_of g.
Proof.
  intros Hf Hg.
  assert (D : delta_of (fun st => g (f st)) == delta_of f + delta_of g).
  { unfold delta_of at 1. rewrite (proj1 (Hg (f zero_state))). reflexivity. }
  assert (R : reasons_of (fun st => g (f st)) = reasons_of f ++ reasons_of g).
  { unfold reasons_of at 1. rewrite (proj2 (Hg (f zero_state))). reflexivity. }
  split; [|split; assumption].
  intro st. rewrite D, R.
  destruct (Hg (f st)) as [G1 G2]. destruct (Hf st) as [F1 F2].
  split.
  - rewrite G1, F1. ring.
  - rewrite G2, F2. symmetry. apply app_assoc.
Qed.

(** A loop whose body is additive is additive. *)
Lemma additive_fold {A : Type} (step : State -> A -> State) (l : list A) :
  (forall a, additive (fun st => step st a)) ->
  additive (fun st => fold_left step l st).
Proof.
  intro H. induction l as [|a l IH]; cbn [fold_left]; [apply additive_id|].
  exact (proj1 (additive_compose (H a) IH)).
Qed.

(** ** The age rule and [int(age_val)] *)

(** The age rule raises on the rows whose age is the infinity, whatever
    the configuration and the state. *)
Lemma age_rule_raises (row : Row) (cfg : Cfg) (w : WeightKey -> option Q) (st : State) :
  age_rule row cfg w st = None <-> row_age row = infinity.
Proof.
  unfold age_rule. cbv zeta. split.
  - destruct (0 <=? row_age row)%float eqn:L; [|discriminate].
    destruct (py_int (row_age row)) eqn:P.
    + destruct (negb _); discriminate.
    + intros _. apply py_int_raises; assumption.
  - intros ->.
    replace (0 <=? infinity)%float with true by reflexivity.
    replace (py_int infinity) with (@None Z) by reflexivity.
    destruct (negb _); reflexivity.
Qed.

(** What the age rule does to the state when it returns. *)
Definition age_step (row : Row) (cfg : Cfg) (w : WeightKey -> option Q)
    (st : State) : State :=
  match age_rule row cfg w st with Some st' => st' | None => st end.

Lemma age_rule_returns (row : Row) (cfg : Cfg) (w : WeightKey -> option Q) (st : State) :
  row_age row <> infinity -> age_rule row cfg w st = Some (age_step row cfg w st).
Proof.
  intro H. unfold age_step.
  destruct (age_rule row cfg w st) eqn:E; [reflexivity|].
  apply age_rule_raises in E. contradiction.
Qed.

Section RulesAdditive.

Variable row : Row.
Variable cfg : Cfg.
Variable w : WeightKey -> option Q.
Variable total : float.
Variable skill_set : list str.
Variable blob : str.

Lemma additive_exp_rule : additive (exp_rule cfg w total).
Proof.
  unfold exp_rule. destruct (total <? min_years_experience cfg)%float;
    apply additive_emit.
Qed.

Lemma additive_edu_rule : additive (edu_rule row cfg w).
Proof.
  unfold edu_rule. destruct (_ <? _)%nat; [apply additive_emit | apply additive_id].
Qed.

Lemma additive_must_rule : additive (must_rule cfg w skill_set).
Proof.
  unfold must_rule. cbv zeta. destruct (nonempty_list _); apply additive_emit.
Qed.

Lemma additive_gk_rule : additive (gk_rule cfg blob).
Proof.
  intro st. unfold delta_of, reasons_of, zero_state, gk_rule.
  destruct (_apply_global_knockout blob cfg) as [gk_pen gk_hits].
  destruct (nonempty_list gk_hits); cbn [fst snd app].
  - split; [ring | reflexivity].
  - split; [ring | symmetry; apply app_nil_r].
Qed.

Lemma additive_dept_rule : additive (dept_rule cfg w blob).
Proof.
  unfold dept_rule. apply additive_fold. intro phrase.
  destruct (str_in _ blob); [apply additive_emit | apply additive_id].
Qed.

Lemma additive_training_rule : additive (training_rule cfg w blob).
Proof.
  unfold training_rule. cbv zeta. apply additive_fold. intro s.
  destruct (_ || _); [apply additive_emit | apply additive_id].
Qed.

Lemma additive_nice_rule : additive (nice_rule cfg w skill_set).
Proof.
  unfold nice_rule. cbv zeta.
  destruct (nonempty_list _); [apply additive_emit | apply additive_id].
Qed.

Lemma additive_low_exp_rule : additive (low_exp_rule cfg w total skill_set).
Proof.
  unfold low_exp_rule. cbv zeta. apply additive_fold. intro s.
  destruct (_ && _); [apply additive_emit | apply additive_id].
Qed.

Lemma additive_age_step : additive (age_step row cfg w).
Proof.
  assert (E : age_step row cfg w
              = fun st => match age_rule row cfg w st with Some st' => st' | None => st end)
    by reflexivity.
  rewrite E. unfold age_rule. cbv zeta.
  destruct (0 <=? row_age row)%float; [|apply additive_note].
  destruct (negb _); destruct (py_int (row_age row));
    solve [apply additive_emit | apply additive_id].
Qed.

Lemma additive_activity_rule : additive (activity_rule row cfg).
Proof.
  unfold activity_rule. cbv zeta.
  destruct (activity_scan _ _) as [bonus hits].
  destruct (Qltb 0 bonus); [|apply additive_id].
  destruct (existsb _ _); [apply additive_note | apply additive_emit].
Qed.

End RulesAdditive.

(** The ten rules of [rule_score], as it instantiates them; the age rule
    stands in the list as the step it takes when it returns. *)
Section Pipeline.

Variable row : Row.
Variable cfg : Cfg.

Let w := get (rule_weights cfg) DEFAULT_RULES.rule_weights.
Let total := total_years row.
Let skill_set := row_skills row.
Let blob := row_blob row cfg.

Definition rules : list (State -> State) :=
  [ exp_rule cfg w total; edu_rule row cfg w; must_rule cfg w skill_set;
    gk_rule cfg blob; dept_rule cfg w blob; training_rule cfg w blob;
    nice_rule cfg w skill_set; low_exp_rule cfg w total skill_set;
    age_step row cfg w; activity_rule row cfg ].

(** The ten rules one after the other, from score 0.0 and no reason. *)
Definition run_rules : State :=
  fold_left (fun st rule => rule st) rules (0.0, []).

Lemma rules_additive : Forall additive rules.
Proof.
  unfold rules. repeat apply Forall_cons; try apply Forall_nil.
  - apply additive_exp_rule.
  - apply additive_edu_rule.
  - apply additive_must_rule.
  - apply additive_gk_rule.
  - apply additive_dept_rule.
  - apply additive_training_rule.
  - apply additive_nice_rule.
  - apply additive_low_exp_rule.
  - apply additive_age_step.
  - apply additive_activity_rule.
Qed.

(** [rule_score] runs the ten rules in this order, and returns unless the
    age rule raises. *)
Lemma rule_score_returns :
  row_age row <> infinity -> rule_score row cfg = Some run_rules.
Proof.
  intro H. unfold rule_score. cbv zeta.
  rewrite (@age_rule_returns _ _ _ _ H). reflexivity.
Qed.

Lemma rule_score_raises :
  rule_score row cfg = None <-> row_age row = infinity.
Proof.
  split.
  - unfold rule_score. cbv zeta.
    destruct (age_rule _ _ _ _) eqn:E; [discriminate|].
    intros _. exact (proj1 (@age_rule_raises _ _ _ _) E).
  - intro H. unfold rule_score. cbv zeta.
    rewrite (proj2 (@age_rule_raises _ _ _ _) H). reflexivity.
Qed.

Lemma rule_score_Some (st : State) :
  rule_score row cfg = Some st -> st = run_rules /\ row_age row <> infinity.
Proof.
  intro H.
  assert (N : row_age row <> infinity).
  { intro E. apply rule_score_raises in E. congruence. }
  split; [|exact N].
  rewrite (rule_score_returns N) in H. congruence.
Qed.

End Pipeline.

Lemma fold_rules (fs : list (State -> State)) (st : State) :
  Forall additive fs ->
  let st' := fold_left (fun st rule => rule st) fs st in
  fst st' == fst st + Qsum (map delta_of fs)
  /\ snd st' = snd st ++ concat (map reasons_of fs).
Proof.
  intro H. revert st. induction H as [|f fs Hf Hfs IH]; intro st; cbv zeta.
  - cbn. split; [ring | symmetry; apply app_nil_r].
  - cbn [fold_left map Qsum concat].
    destruct (IH (f st)) as [I1 I2]. cbv zeta in I1, I2.
    destruct (Hf st) as [F1 F2].
    split.
    + rewrite I1, F1. ring.
    + rewrite I2, F2. symmetry. apply app_assoc.
Qed.

(** The score is the sum of the ten deltas, the reasons are the ten
    segments in the order of the rules. *)
Lemma run_rules_decomposition (row : Row) (cfg : Cfg) :
  fst (run_rules row cfg) == Qsum (map delta_of (rules row cfg))
  /\ snd (run_rules row cfg) = concat (map reasons_of (rules row cfg)).
Proof.
  unfold run_rules.
  destruct (fold_rules (0.0, []) (rules_additive row cfg)) as [H1 H2].
  cbv zeta in H1, H2. split.
  - rewrite H1. cbn [fst]. ring.
  - rewrite H2. reflexivity.
Qed.

Lemma rule_score_decomposition (row : Row) (cfg : Cfg) (st : State) :
  rule_score row cfg = Some st ->
  fst st == Qsum (map delta_of (rules row cfg))
  /\ snd st = concat (map reasons_of (rules row cfg)).
Proof.
  intro H. apply rule_score_Some in H as [-> _]. apply run_rules_decomposition.
Qed.

(* ================================================================== *)
(** ** Rows and runs of the engine *)

(** An applicant with no experience and no skill, and the same applicant
    with the must-have skill php. *)
Definition row_no_skill : Row :=
  fun c =>
    match c with
    | years_experience => Some (Number 0 (u "0"))
    | skills => Some (Str (u ""))
    | resume_text | cover_letter_text | activities => Some (Str (u ""))
    | _ => None
    end.

Definition row_php : Row :=
  fun c =>
    match c with
    | skills => Some (Str (u "php"))
    | _ => row_no_skill c
    end.

(** An applicant of two years with five of the six must-have skills of the
    Programmer department, and the same applicant with the sixth. *)
Definition row_five_skills : Row :=
  fun c =>
    match c with
    | years_experience => Some (Number 2 (u "2"))
    | skills => Some (Str (u "python,sql,debugging,agile,php"))
    | resume_text | cover_letter_text | activities => Some (Str (u ""))
    | _ => None
    end.

Definition row_six_skills : Row :=
  fun c =>
    match c with
    | skills => Some (Str (u "python,sql,debugging,agile,php,javascript"))
    | _ => row_five_skills c
    end.

(** The applicant of the specification's first end-to-end example. *)
Definition row_full_programmer : Row :=
  fun c =>
    match c with
    | skills => Some (Str (u "python,sql,debugging,agile,php,javascript"))
    | years_experience => Some (Number 2 (u "2"))
    | education_level => Some (Str (u "ปริญญาตรี"))
    | age => Some (Number 24 (u "24"))
    | activities => Some (Str (u "github project hackathon"))
    | _ => None
    end.

(** The same applicant with the age cell inf, which [float] reads as the
    infinity, and with an empty cell of years, which is NaN. *)
Definition row_infinite_age : Row :=
  fun c =>
    match c with
    | age => Some (Number infinity (u "inf"))
    | _ => row_full_programmer c
    end.

Definition row_no_years : Row :=
  fun c =>
    match c with
    | years_experience => Some (Number nan (u "nan"))
    | _ => row_full_programmer c
    end.

(** A row with no column at all. *)
Definition empty_row : Row := fun _ => None.

(** For the Programmer department: exp_meet, must_all, age_in and the
    activity bonus capped at 1.2 give the score 2.1. *)
Example programmer_end_to_end :
  exists score,
    rule_score row_full_programmer (merged_cfg DEPARTMENTS_CFG.Programmer)
    = Some (score,
            [ ReasonExpMeet 2; ReasonMustAll; ReasonAgeIn 24;
              ReasonActivity [(u "project", 0.6); (u "hackathon", 0.6); (u "github", 0.5)]
                             1.2 ])
    /\ score == 2.1.
Proof.
  eexists. split.
  - vm_compute. reflexivity.
  - apply Qeq_bool_iff. vm_compute. reflexivity.
Qed.

(** A blob with the hard phrase alone: the full hard weight, above the
    cap, is the penalty. *)
Example hard_knockout_alone :
  _apply_global_knockout (u "เคยโกง") (merged_cfg DEPARTMENTS_CFG.Programmer)
  = (0.0 + -2.0, [HitPlain (u "โกง") hard]).
Proof. vm_compute. reflexivity. Qed.

(* ================================================================== *)
(** ** The order of the reasons *)

(** The rule a reason comes from. *)
Inductive RuleKind :=
| Experience | Education | MustHave | GlobalKnockout | DeptKnockout
| TrainingContext | NiceToHave | LowExperience | AgeFit | ActivityBonus.

Definition kind (r : Reason) : RuleKind :=
  match r with
  | ReasonExpUnder _ _ | ReasonExpMeet _ => Experience
  | ReasonEduUnder _ => Education
  | ReasonMustMissing _ | ReasonMustAll => MustHave
  | ReasonGlobalKnockout _ => GlobalKnockout
  | ReasonDeptKnockout _ => DeptKnockout
  | ReasonTrainingCtx _ => TrainingContext
  | ReasonNice _ => NiceToHave
  | ReasonLowExpSkill _ _ => LowExperience
  | ReasonAgeOut _ _ | ReasonAgeIn _ | ReasonAgeUnspecified => AgeFit
  | ReasonActivityTraining | ReasonActivity _ _ => ActivityBonus
  end.

(** The fixed evaluation order of the specification. *)
Definition evaluation_order : list RuleKind :=
  [ Experience; Education; MustHave; GlobalKnockout; DeptKnockout;
    TrainingContext; NiceToHave; LowExperience; AgeFit; ActivityBonus ].

(** The position of a kind in the evaluation order. *)
Definition rank (k : RuleKind) : nat :=
  match k with
  | Experience => 0 | Education => 1 | MustHave => 2 | GlobalKnockout => 3
  | DeptKnockout => 4 | TrainingContext => 5 | NiceToHave => 6
  | LowExperience => 7 | AgeFit => 8 | ActivityBonus => 9
  end.

Definition kind_eqb (a b : RuleKind) : bool := (rank a =? rank b)%nat.

(** [r1] may stand before [r2] in the reasons list. *)
Definition precedes (r1 r2 : Reason) : Prop := (rank (kind r1) <= rank (kind r2))%nat.

(** The reasons of kind [k] in a list. *)
Definition of_kind (k : RuleKind) (rs : list Reason) : list Reason :=
  filter (fun r => kind_eqb (kind r) k) rs.

Lemma kind_eqb_eq (a b : RuleKind) : kind_eqb a b = true <-> a = b.
Proof.
  unfold kind_eqb. rewrite Nat.eqb_eq.
  split; [|intros ->; reflexivity].
  destruct a, b; cbn; intro H; try reflexivity; discriminate.
Qed.

Lemma rank_order : map rank evaluation_order = seq 0 10.
Proof. reflexivity. Qed.

(** All the reasons of a list have kind [k]. *)
Definition all_of_kind (k : RuleKind) (rs : list Reason) : Prop :=
  Forall (fun r => kind r = k) rs.

Lemma all_of_kind_fold {A : Type} (k : RuleKind) (step : State -> A -> State)
    (l : list A) :
  (forall a, additive (fun st => step st a)) ->
  (forall a, all_of_kind k (reasons_of (fun st => step st a))) ->
  all_of_kind k (reasons_of (fun st => fold_left step l st)).
Proof.
  intros Ha Hk. induction l as [|a l IH]; cbn [fold_left]; [constructor|].
  rewrite (proj2 (proj2 (additive_compose (Ha a) (additive_fold step l Ha)))).
  apply Forall_app. split; [apply Hk | exact IH].
Qed.

Ltac one_reason :=
  unfold all_of_kind, reasons_of, zero_state, emit, note; cbn [snd app];
  repeat constructor.

Section RulesKinds.

Variable row : Row.
Variable cfg : Cfg.
Variable w : WeightKey -> option Q.
Variable total : float.
Variable skill_set : list str.
Variable blob : str.

Lemma exp_rule_reasons :
  all_of_kind Experience (reasons_of (exp_rule cfg w total))
  /\ length (reasons_of (exp_rule cfg w total)) = 1%nat.
Proof.
  unfold exp_rule. destruct (total <? min_years_experience cfg)%float;
    split; solve [one_reason | reflexivity].
Qed.

Lemma edu_rule_reasons : all_of_kind Education (reasons_of (edu_rule row cfg w)).
Proof. unfold edu_rule. destruct (_ <? _)%nat; one_reason. Qed.

Lemma must_rule_reasons :
  all_of_kind MustHave (reasons_of (must_rule cfg w skill_set))
  /\ length (reasons_of (must_rule cfg w skill_set)) = 1%nat.
Proof.
  unfold must_rule. cbv zeta. destruct (nonempty_list _);
    split; solve [one_reason | reflexivity].
Qed.

Lemma gk_rule_reasons : all_of_kind GlobalKnockout (reasons_of (gk_rule cfg blob)).
Proof.
  unfold all_of_kind, reasons_of, zero_state, gk_rule.
  destruct (_apply_global_knockout blob cfg) as [gk_pen gk_hits].
  destruct (nonempty_list gk_hits); cbn [snd app]; repeat constructor.
Qed.

Lemma dept_rule_reasons : all_of_kind DeptKnockout (reasons_of (dept_rule cfg w blob)).
Proof.
  unfold dept_rule. apply all_of_kind_fold; intro phrase;
    destruct (str_in _ blob);
    solve [apply additive_emit | apply additive_id | one_reason].
Qed.

Lemma training_rule_reasons :
  all_of_kind TrainingContext (reasons_of (training_rule cfg w blob)).
Proof.
  unfold training_rule. cbv zeta. apply all_of_kind_fold; intro s;
    destruct (_ || _);
    solve [apply additive_emit | apply additive_id | one_reason].
Qed.

Lemma nice_rule_reasons : all_of_kind NiceToHave (reasons_of (nice_rule cfg w skill_set)).
Proof. unfold nice_rule. cbv zeta. destruct (nonempty_list _); one_reason. Qed.

Lemma low_exp_rule_reasons :
  all_of_kind LowExperience (reasons_of (low_exp_rule cfg w total skill_set)).
Proof.
  unfold low_exp_rule. cbv zeta. apply all_of_kind_fold; intro s;
    destruct (_ && _);
    solve [apply additive_emit | apply additive_id | one_reason].
Qed.

Lemma age_step_reasons :
  all_of_kind AgeFit (reasons_of (age_step row cfg w))
  /\ (row_age row <> infinity -> length (reasons_of (age_step row cfg w)) = 1%nat).
Proof.
  split.
  - unfold reasons_of, age_step, age_rule. cbv zeta.
    destruct (0 <=? row_age row)%float; [|one_reason].
    destruct (negb _); destruct (py_int (row_age row)); one_reason.
  - intro H. unfold reasons_of, age_step.
    destruct (age_rule row cfg w zero_state) as [st|] eqn:E.
    + revert E. unfold age_rule. cbv zeta.
      destruct (0 <=? row_age row)%float.
      * destruct (negb _); destruct (py_int (row_age row)); try discriminate;
          intro E; injection E as <-; reflexivity.
      * intro E. injection E as <-. reflexivity.
    + apply age_rule_raises in E. contradiction.
Qed.

Lemma activity_rule_reasons :
  all_of_kind ActivityBonus (reasons_of (activity_rule row cfg)).
Proof.
  unfold all_of_kind, reasons_of, zero_state, activity_rule. cbv zeta.
  destruct (activity_scan _ _) as [bonus hits].
  destruct (Qltb 0 bonus); [|constructor].
  destruct (existsb _ _); unfold note, emit; cbn [snd app]; repeat constructor.
Qed.

End RulesKinds.

(** The segment of every rule holds reasons of the rule's kind only. *)
Lemma rules_kinds (row : Row) (cfg : Cfg) :
  Forall2 (fun k f => all_of_kind k (reasons_of f)) evaluation_order (rules row cfg).
Proof.
  unfold evaluation_order, rules. repeat apply Forall2_cons; try apply Forall2_nil.
  - apply exp_rule_reasons.
  - apply edu_rule_reasons.
  - apply must_rule_reasons.
  - apply gk_rule_reasons.
  - apply dept_rule_reasons.
  - apply training_rule_reasons.
  - apply nice_rule_reasons.
  - apply low_exp_rule_reasons.
  - apply age_step_reasons.
  - apply activity_rule_reasons.
Qed.

Lemma StronglySorted_app {A : Type} (R : A -> A -> Prop) (l1 l2 : list A) :
  StronglySorted R l1 -> StronglySorted R l2 ->
  (forall x y, In x l1 -> In y l2 -> R x y) ->
  StronglySorted R (l1 ++ l2).
Proof.
  intros H1 H2 H. induction H1 as [|a l1 Hs IH Ha]; [exact H2|].
  cbn [app]. constructor.
  - apply IH. intros x y Hx Hy. apply H; [right; exact Hx | exact Hy].
  - apply Forall_app. split; [exact Ha|].
    apply Forall_forall. intros y Hy. apply H; [left; reflexivity | exact Hy].
Qed.

Lemma all_of_kind_sorted (k : RuleKind) (rs : list Reason) :
  all_of_kind k rs -> StronglySorted precedes rs.
Proof.
  induction 1 as [|r rs Hr Hrs IH]; constructor; [exact IH|].
  apply Forall_forall. intros y Hy.
  unfold precedes. rewrite Hr.
  rewrite (proj1 (Forall_forall _ _) Hrs y Hy). apply Nat.le_refl.
Qed.

(** Segments whose kinds come in non-decreasing rank make a sorted list. *)
Lemma segments_sorted (ks : list RuleKind) (fs : list (State -> State)) :
  Forall2 (fun k f => all_of_kind k (reasons_of f)) ks fs ->
  StronglySorted le (map rank ks) ->
  StronglySorted precedes (concat (map reasons_of fs))
  /\ forall r, In r (concat (map reasons_of fs)) -> In (kind r) ks.
Proof.
  induction 1 as [|k f ks fs Hk Hrest IH]; intro Hs.
  - split; [constructor | intros r []].
  - cbn [map concat]. inversion Hs as [|? ? Hs' Hle]; subst.
    destruct (IH Hs') as [IH1 IH2]. split.
    + apply StronglySorted_app; [apply (all_of_kind_sorted Hk) | exact IH1|].
      intros x y Hx Hy. unfold precedes.
      rewrite (proj1 (Forall_forall _ _) Hk x Hx).
      apply (proj1 (Forall_forall _ _) Hle). apply in_map, IH2, Hy.
    + intros r Hr. apply in_app_or in Hr as [Hr|Hr].
      * left. symmetry. exact (proj1 (Forall_forall _ _) Hk r Hr).
      * right. apply IH2, Hr.
Qed.

(** C7. The reasons [rule_score] returns are in the evaluation order:
    experience, education, must-have skills, global knockouts, department
    knockouts, training context, nice-to-have, low experience, age,
    activity bonus.  Of any two reasons of the list the earlier one comes
    from the same rule as the later one or from a rule before it.  (The
    function returns for every row whose age is not the infinity,
    [rule_score_returns].) *)
Theorem reasons_follow_evaluation_order (row : Row) (cfg : Cfg)
    (score : Q) (reasons : list Reason) :
  rule_score row cfg = Some (score, reasons) ->
  StronglySorted precedes reasons.
Proof.
  intro H. apply rule_score_decomposition in H as [_ H]. cbn [snd] in H.
  rewrite H.
  apply (segments_sorted (rules_kinds row cfg)).
  rewrite rank_order. cbn [seq]. repeat constructor.
Qed.

(** The four reasons of the end-to-end example. *)
Lemma reasons_follow_evaluation_order_witness :
  exists score reasons,
    rule_score row_full_programmer (merged_cfg DEPARTMENTS_CFG.Programmer)
    = Some (score, reasons)
    /\ StronglySorted precedes reasons.
Proof.
  do 2 eexists. split.
  - vm_compute. reflexivity.
  - refine (@reasons_follow_evaluation_order row_full_programmer
              (merged_cfg DEPARTMENTS_CFG.Programmer) _ _ _).
    vm_compute. reflexivity.
Defined.

(** ** The three reasons every row gets *)

Lemma of_kind_same (k : RuleKind) (rs : list Reason) :
  all_of_kind k rs -> of_kind k rs = rs.
Proof.
  induction 1 as [|r rs Hr Hrs IH]; [reflexivity|].
  unfold of_kind in *. cbn [filter]. rewrite IH.
  rewrite (proj2 (kind_eqb_eq (kind r) k) Hr). reflexivity.
Qed.

Lemma of_kind_other (k k' : RuleKind) (rs : list Reason) :
  all_of_kind k' rs -> k' <> k -> of_kind k rs = [].
Proof.
  intros H Hne. induction H as [|r rs Hr Hrs IH]; [reflexivity|].
  unfold of_kind in *. cbn [filter]. rewrite IH.
  destruct (kind_eqb (kind r) k) eqn:E; [|reflexivity].
  apply kind_eqb_eq in E. congruence.
Qed.

(** The reasons of kind [k] of the whole list are those of the segments
    whose rule has kind [k]. *)
Lemma of_kind_segments (k : RuleKind) (ks : list RuleKind) (fs : list (State -> State)) :
  Forall2 (fun k f => all_of_kind k (reasons_of f)) ks fs ->
  of_kind k (concat (map reasons_of fs))
  = concat (map (fun kf => if kind_eqb (fst kf) k then reasons_of (snd kf) else [])
                (combine ks fs)).
Proof.
  induction 1 as [|k' f ks fs Hk Hrest IH]; [reflexivity|].
  cbn [map concat combine fst snd].
  unfold of_kind in *. rewrite filter_app. fold (of_kind k (reasons_of f)).
  rewrite IH. f_equal.
  destruct (kind_eqb k' k) eqn:E.
  - apply kind_eqb_eq in E. subst k'. apply of_kind_same, Hk.
  - apply (of_kind_other Hk). intro Heq. subst k'.
    rewrite (proj2 (kind_eqb_eq k k) eq_refl) in E. discriminate.
Qed.

(** On a row whose age is not the infinity the ten rules leave at least
    three reasons: one of the experience rule, one of the must-have rule
    and one of the age rule. *)
Lemma three_reasons (row : Row) (cfg : Cfg) :
  row_age row <> infinity ->
  let reasons := snd (run_rules row cfg) in
  (3 <= length reasons)%nat
  /\ length (of_kind Experience reasons) = 1%nat
  /\ length (of_kind MustHave reasons) = 1%nat
  /\ length (of_kind AgeFit reasons) = 1%nat.
Proof.
  intro Hage. cbv zeta.
  set (w := get (rule_weights cfg) DEFAULT_RULES.rule_weights).
  pose proof (proj2 (exp_rule_reasons cfg w (total_years row))) as L1.
  pose proof (proj2 (must_rule_reasons cfg w (row_skills row))) as L2.
  pose proof (proj2 (age_step_reasons row cfg w) Hage) as L3.
  assert (C : forall k,
             of_kind k (snd (run_rules row cfg))
             = concat (map (fun kf => if kind_eqb (fst kf) k
                                      then reasons_of (snd kf) else [])
                           (combine evaluation_order (rules row cfg)))).
  { intro k. rewrite (proj2 (run_rules_decomposition row cfg)).
    apply of_kind_segments, rules_kinds. }
  split.
  - rewrite (proj2 (run_rules_decomposition row cfg)).
    unfold rules. cbn [map concat]. fold w.
    rewrite !length_app. rewrite L1, L2, L3. lia.
  - rewrite !C. unfold evaluation_order, rules. fold w.
    cbn [combine map concat fst snd kind_eqb rank Nat.eqb app].
    rewrite !app_nil_r. auto.
Qed.

Lemma finite_age_is_not_infinite (x : float) :
  (x <? infinity)%float = true -> x <> infinity.
Proof. intros H ->. discriminate H. Qed.

(** C10. [rule_score] does not return on every row: on a row whose age
    cell is read as the infinity the test [age_val >= 0] holds and
    [int(age_val)], which the two f-strings of the age rule call, raises
    before the age reason is appended; so does the whole function, and no
    reasons list comes back.  These rows are the only ones on which
    [rule_score] raises. *)
Theorem rule_score_raises_on_infinite_age :
  row_age row_infinite_age = infinity
  /\ (0 <=? row_age row_infinite_age)%float = true
  /\ py_int (row_age row_infinite_age) = None
  /\ rule_score row_infinite_age (merged_cfg DEPARTMENTS_CFG.Programmer) = None
  /\ (forall row cfg, rule_score row cfg = None <-> row_age row = infinity).
Proof.
  assert (A : row_age row_infinite_age = infinity) by reflexivity.
  split; [exact A|]. split; [reflexivity|]. split; [reflexivity|]. split.
  - apply rule_score_raises. exact A.
  - intros row cfg. apply rule_score_raises.
Qed.

(** On every other row [rule_score] returns at least three reasons:
    exactly one from the experience rule, exactly one from the
    must-have-skills rule and exactly one from the age rule. *)
Theorem reasons_at_least_three (row : Row) (cfg : Cfg) :
  row_age row <> infinity ->
  exists score reasons,
    rule_score row cfg = Some (score, reasons)
    /\ (3 <= length reasons)%nat
    /\ reasons <> []
    /\ length (of_kind Experience reasons) = 1%nat
    /\ length (of_kind MustHave reasons) = 1%nat
    /\ length (of_kind AgeFit reasons) = 1%nat.
Proof.
  intro Hage.
  destruct (@three_reasons row cfg Hage) as [Len [E [M A]]]. cbv zeta in *.
  exists (fst (run_rules row cfg)), (snd (run_rules row cfg)).
  split; [rewrite <- surjective_pairing; apply rule_score_returns, Hage|].
  split; [exact Len|]. split; [|auto].
  intro N. rewrite N in Len. cbn in Len. lia.
Qed.

(** The applicant of the end-to-end example, of age 24. *)
Lemma reasons_at_least_three_witness :
  row_age row_full_programmer <> infinity
  /\ exists score reasons,
       rule_score row_full_programmer (merged_cfg DEPARTMENTS_CFG.Programmer)
       = Some (score, reasons)
       /\ (3 <= length reasons)%nat.
Proof.
  assert (H : row_age row_full_programmer <> infinity)
    by (apply finite_age_is_not_infinite; reflexivity).
  split; [exact H|].
  destruct (@reasons_at_least_three row_full_programmer
              (merged_cfg DEPARTMENTS_CFG.Programmer) H)
    as [score [reasons [E [L _]]]].
  exists score, reasons. split; assumption.
Defined.

(* ================================================================== *)
(** ** The activity bonus *)

(** The state [rule_score] has reached when it comes to the activity
    bonus. *)
Definition before_activity (row : Row) (cfg : Cfg) : State :=
  fold_left (fun st rule => rule st) (removelast (rules row cfg)) (0.0, []).

(** The bonus the activity rule adds to the score. *)
Definition activity_bonus (row : Row) (cfg : Cfg) : Q :=
  delta_of (activity_rule row cfg).

Lemma activity_bonus_cases (row : Row) (cfg : Cfg) :
  let max_bonus := get (max_activity_bonus cfg) DEFAULT_RULES.max_activity_bonus in
  let acts := normalize_text (Str (py_str (row_get row activities (Str [])))) in
  activity_bonus row cfg == 0
  \/ (activity_bonus row cfg <= max_bonus
      /\ existsb (fun ind => str_in (normalize_text (Str ind)) acts)
           (get (training_indicators cfg) DEFAULT_RULES.training_indicators)
         = false).
Proof.
  cbv zeta. unfold activity_bonus, delta_of, zero_state, activity_rule. cbv zeta.
  destruct (activity_scan _ _) as [bonus hits].
  destruct (Qltb 0 bonus); [|left; reflexivity].
  destruct (existsb _ _); [left; reflexivity|].
  right. split; [|reflexivity].
  unfold emit. cbn [fst]. rewrite Qplus_0_l. apply py_min_le_r.
Qed.

(** C4. The bonus the activity rule adds to the score [rule_score] returns
    is at most max_activity_bonus, for every cap that is not negative (a
    negative cap is out of the range of the configuration), and whenever a
    bonus other than zero is applied; it is zero whenever the normalized
    activities text contains a normalized training indicator. *)
Theorem activity_bonus_capped (row : Row) (cfg : Cfg) :
  let max_bonus := get (max_activity_bonus cfg) DEFAULT_RULES.max_activity_bonus in
  let acts := normalize_text (Str (py_str (row_get row activities (Str [])))) in
  let applied := activity_bonus row cfg in
  (forall st, rule_score row cfg = Some st ->
     st = activity_rule row cfg (before_activity row cfg)
     /\ fst st == fst (before_activity row cfg) + applied)
  /\ (0 <= max_bonus -> applied <= max_bonus)
  /\ (~ applied == 0 -> applied <= max_bonus)
  /\ applied <= py_max 0 max_bonus
  /\ ((exists ind,
         In ind (get (training_indicators cfg) DEFAULT_RULES.training_indicators)
         /\ str_in (normalize_text (Str ind)) acts = true) ->
      applied == 0).
Proof.
  cbv zeta. split.
  { intros st H. apply rule_score_Some in H as [-> _].
    assert (Hrun : run_rules row cfg = activity_rule row cfg (before_activity row cfg))
      by reflexivity.
    split; [exact Hrun|]. rewrite Hrun. apply additive_activity_rule. }
  set (mb := get (max_activity_bonus cfg) DEFAULT_RULES.max_activity_bonus).
  pose proof (activity_bonus_cases row cfg) as Cases. cbv zeta in Cases. fold mb in Cases.
  pose proof (py_max_ge_l 0 mb) as M0.
  pose proof (py_max_ge_r 0 mb) as M1.
  split; [|split; [|split]].
  - intro Hmb. destruct Cases as [Z | [B _]]; [rewrite Z; exact Hmb | exact B].
  - intro Hnz. destruct Cases as [Z | [B _]]; [contradiction | exact B].
  - destruct Cases as [Z | [B _]]; [rewrite Z; exact M0|].
    apply Qle_trans with mb; assumption.
  - intros [ind [Hin Hs]]. destruct Cases as [Z | [_ T]]; [exact Z|].
    exfalso.
    assert (Hex : existsb (fun ind => str_in (normalize_text (Str ind))
                     (normalize_text (Str (py_str (row_get row activities (Str []))))))
             (get (training_indicators cfg) DEFAULT_RULES.training_indicators)
           = true)
      by (apply existsb_exists; exists ind; split; assumption).
    congruence.
Qed.

(** The cap at work: the three matched activities of the end-to-end
    example sum to 1.7 and the Programmer department applies 1.2. *)
Example activity_bonus_of_the_example :
  fst (activity_scan (u "github project hackathon")
         (dept_activity_weights DEPARTMENTS_CFG.Programmer)) == 1.7
  /\ activity_bonus row_full_programmer (merged_cfg DEPARTMENTS_CFG.Programmer) == 1.2.
Proof.
  split; apply Qeq_bool_iff; vm_compute; reflexivity.
Qed.

(* ================================================================== *)
(** ** Adding a must-have skill *)

Lemma str_eqb_eq (a b : str) : str_eqb a b = true <-> a = b.
Proof.
  unfold str_eqb. destruct (list_eq_dec N.eq_dec a b); split; congruence.
Qed.

Lemma mem_In (s : str) (l : list str) : mem s l = true <-> In s l.
Proof.
  unfold mem. rewrite existsb_exists. split.
  - intros [x [Hx E]]. apply str_eqb_eq in E. subst x. exact Hx.
  - intro H. exists s. split; [exact H | apply str_eqb_eq; reflexivity].
Qed.

(** [miss]: the must-have skills the skill set lacks. *)
Definition missing (cfg : Cfg) (skill_set : list str) : list str :=
  filter (fun s => negb (mem s skill_set)) (must_have_skills cfg).

(** [row'] is [row] with the skill [s] added to its skill set: the other
    columns are the same. *)
Definition adds_skill (row row' : Row) (s : str) : Prop :=
  (forall c, c <> skills -> row' c = row c)
  /\ (forall x, In x (row_skills row') <-> x = s \/ In x (row_skills row)).

(** The three rules that read the blob. *)
Definition text_rules (cfg : Cfg) (w : WeightKey -> option Q) (blob : str)
    (st : State) : State :=
  training_rule cfg w blob (dept_rule cfg w blob (gk_rule cfg blob st)).

Definition text_delta (cfg : Cfg) (w : WeightKey -> option Q) (blob : str) : Q :=
  delta_of (text_rules cfg w blob).

(** The claim as the specification words it. *)
Definition must_have_monotone : Prop :=
  forall (row row' : Row) (cfg : Cfg) (s : str) (st st' : State),
    adds_skill row row' s ->
    In s (must_have_skills cfg) ->
    ~ In s (row_skills row) ->
    rule_score row cfg = Some st ->
    rule_score row' cfg = Some st' ->
    fst st <= fst st'.

(** For the Programmer department the score falls from -2.3 to -2.6: php
    is present with less than half a year of experience, and the
    low-experience rule charges it. *)
Lemma must_have_skill_can_lower_score : ~ must_have_monotone.
Proof.
  intro H.
  specialize (H row_no_skill row_php (merged_cfg DEPARTMENTS_CFG.Programmer) (u "php")
                (run_rules row_no_skill (merged_cfg DEPARTMENTS_CFG.Programmer))
                (run_rules row_php (merged_cfg DEPARTMENTS_CFG.Programmer))).
  assert (A : adds_skill row_no_skill row_php (u "php")).
  { split.
    - intros c Hc. destruct c; try (exfalso; apply Hc; reflexivity); reflexivity.
    - intro x. change (row_skills row_php) with [u "php"].
      change (row_skills row_no_skill) with (@nil str).
      cbn [In]. split; intros [E|[]]; left; congruence. }
  assert (I : In (u "php") (must_have_skills (merged_cfg DEPARTMENTS_CFG.Programmer)))
    by (left; reflexivity).
  assert (N : ~ In (u "php") (row_skills row_no_skill)) by (intros []).
  assert (R1 : rule_score row_no_skill (merged_cfg DEPARTMENTS_CFG.Programmer)
               = Some (run_rules row_no_skill (merged_cfg DEPARTMENTS_CFG.Programmer)))
    by (apply rule_score_returns, finite_age_is_not_infinite; reflexivity).
  assert (R2 : rule_score row_php (merged_cfg DEPARTMENTS_CFG.Programmer)
               = Some (run_rules row_php (merged_cfg DEPARTMENTS_CFG.Programmer)))
    by (apply rule_score_returns, finite_age_is_not_infinite; reflexivity).
  specialize (H A I N R1 R2).
  assert (E1 : fst (run_rules row_no_skill (merged_cfg DEPARTMENTS_CFG.Programmer))
               == -2.3) by (vm_compute; reflexivity).
  assert (E2 : fst (run_rules row_php (merged_cfg DEPARTMENTS_CFG.Programmer))
               == -2.6) by (vm_compute; reflexivity).
  rewrite E1, E2 in H. lra.
Qed.

Lemma filter_length_mono {A : Type} (p q : A -> bool) (l : list A) :
  (forall x, p x = true -> q x = true) ->
  (length (filter p l) <= length (filter q l))%nat.
Proof.
  intro H. induction l as [|a l IH]; [apply Nat.le_refl|].
  cbn [filter]. destruct (p a) eqn:E.
  - rewrite (H a E). cbn [length]. lia.
  - destruct (q a); cbn [length]; lia.
Qed.

Section RuleDeltas.

Variable cfg : Cfg.
Variable w : WeightKey -> option Q.

Lemma must_delta_missing (skill_set : list str) :
  (exists m, In m (must_have_skills cfg) /\ ~ In m skill_set) ->
  delta_of (must_rule cfg w skill_set) == dict_get w must_missing (-1.5).
Proof.
  intros [m [Hm Hn]].
  unfold delta_of, zero_state, must_rule. cbv zeta.
  destruct (filter _ _) as [|x l] eqn:E.
  - exfalso.
    assert (Hin : In m (filter (fun s => negb (mem s skill_set)) (must_have_skills cfg))).
    { apply filter_In. split; [exact Hm|].
      apply negb_true_iff. destruct (mem m skill_set) eqn:M; [|reflexivity].
      apply mem_In in M. contradiction. }
    rewrite E in Hin. destruct Hin.
  - cbn [nonempty_list emit fst]. ring.
Qed.

Lemma must_delta_all (skill_set : list str) :
  (forall m, In m (must_have_skills cfg) -> In m skill_set) ->
  delta_of (must_rule cfg w skill_set) == dict_get w must_all 0.5.
Proof.
  intro H.
  unfold delta_of, zero_state, must_rule. cbv zeta.
  destruct (filter _ _) as [|x l] eqn:E.
  - cbn [nonempty_list emit fst]. ring.
  - exfalso.
    assert (Hin : In x (filter (fun s => negb (mem s skill_set)) (must_have_skills cfg)))
      by (rewrite E; left; reflexivity).
    apply filter_In in Hin as [Hx Hm].
    apply negb_true_iff in Hm.
    rewrite (proj2 (mem_In x skill_set) (H x Hx)) in Hm. discriminate.
Qed.

Lemma nice_delta (skill_set : list str) :
  delta_of (nice_rule cfg w skill_set)
  == dict_get w nice_each 0.3
     * inject_Z (Z.of_nat (length (filter (fun s => mem s skill_set)
                                          (get (nice_to_have_skills cfg) [])))).
Proof.
  unfold delta_of, zero_state, nice_rule. cbv zeta.
  destruct (filter _ _) as [|x l].
  - cbn [nonempty_list fst length Z.of_nat]. unfold inject_Z. ring.
  - cbn [nonempty_list emit fst]. ring.
Qed.

Lemma low_exp_inactive (total : float) (skill_set : list str) :
  (low_exp_threshold cfg <=? total)%float = true ->
  delta_of (low_exp_rule cfg w total skill_set) == 0.
Proof.
  intro H. apply float_leb_not_ltb in H.
  unfold delta_of, low_exp_rule. cbv zeta. rewrite H.
  generalize (must_have_skills cfg). intro l.
  induction l as [|a l IH]; [reflexivity|].
  cbn [fold_left]. rewrite andb_false_r. exact IH.
Qed.

Lemma text_delta_sum (blob : str) :
  text_delta cfg w blob
  == delta_of (gk_rule cfg blob) + delta_of (dept_rule cfg w blob)
     + delta_of (training_rule cfg w blob).
Proof.
  unfold text_delta, text_rules.
  destruct (additive_compose (additive_gk_rule cfg blob) (additive_dept_rule cfg w blob))
    as [A1 [D1 _]].
  destruct (additive_compose A1 (additive_training_rule cfg w blob)) as [_ [D2 _]].
  rewrite D2, D1. reflexivity.
Qed.

End RuleDeltas.

(** The rules that do not read the skills give the same result on two
    rows that differ in the skills column only. *)
Lemma same_columns (row row' : Row) (cfg : Cfg) (w : WeightKey -> option Q) :
  (forall c, c <> skills -> row' c = row c) ->
  total_years row' = total_years row
  /\ edu_rule row' cfg w = edu_rule row cfg w
  /\ age_step row' cfg w = age_step row cfg w
  /\ activity_rule row' cfg = activity_rule row cfg.
Proof.
  intro H.
  assert (G : forall c d, c <> skills -> row_get row' c d = row_get row c d).
  { intros c d Hc. unfold row_get. rewrite (H c Hc). reflexivity. }
  repeat split.
  - unfold total_years. rewrite !G by discriminate. reflexivity.
  - unfold edu_rule. rewrite !G by discriminate. reflexivity.
  - unfold age_step, age_rule, row_age. rewrite !G by discriminate. reflexivity.
  - unfold activity_rule. rewrite !G by discriminate. reflexivity.
Qed.

(** C1 (amended). Adding a missing must-have skill to the skill set never
    lowers what the must-have-skills rule adds to the score, when the
    weights have must_missing <= must_all: the rule adds the fixed
    must_missing delta as long as a must-have skill is missing and the
    must_all delta once every must-have skill is present.  The score
    [rule_score] returns does not fall either when, besides, the total
    experience is at least the low-experience threshold, nice_each is not
    negative and the rules that read the blob charge the new text no more
    than the old one. *)
Theorem must_have_skill_added (row row' : Row) (cfg : Cfg) (s : str) :
  let w := get (rule_weights cfg) DEFAULT_RULES.rule_weights in
  let must_before := delta_of (must_rule cfg w (row_skills row)) in
  let must_after := delta_of (must_rule cfg w (row_skills row')) in
  adds_skill row row' s ->
  In s (must_have_skills cfg) ->
  ~ In s (row_skills row) ->
  dict_get w must_missing (-1.5) <= dict_get w must_all 0.5 ->
  must_before == dict_get w must_missing (-1.5)
  /\ ((exists m, In m (must_have_skills cfg) /\ ~ In m (row_skills row')) ->
      must_after == dict_get w must_missing (-1.5))
  /\ ((forall m, In m (must_have_skills cfg) -> In m (row_skills row')) ->
      must_after == dict_get w must_all 0.5)
  /\ must_before <= must_after
  /\ ((low_exp_threshold cfg <=? total_years row)%float = true ->
      0 <= dict_get w nice_each 0.3 ->
      text_delta cfg w (row_blob row cfg) <= text_delta cfg w (row_blob row' cfg) ->
      forall st st',
        rule_score row cfg = Some st ->
        rule_score row' cfg = Some st' ->
        fst st <= fst st').
Proof.
  cbv zeta. intros [Hcols Hset] Hs Hnot Hw.
  set (w := get (rule_weights cfg) DEFAULT_RULES.rule_weights) in *.
  assert (Hbefore : delta_of (must_rule cfg w (row_skills row))
                    == dict_get w must_missing (-1.5)).
  { apply must_delta_missing. exists s. split; assumption. }
  assert (Hmono : delta_of (must_rule cfg w (row_skills row))
                  <= delta_of (must_rule cfg w (row_skills row'))).
  { rewrite Hbefore.
    destruct (nonempty_list (missing cfg (row_skills row'))) eqn:E.
    - rewrite must_delta_missing; [apply Qle_refl|].
      unfold missing in E.
      destruct (filter _ _) as [|m l] eqn:F; [discriminate|].
      assert (Hin : In m (filter (fun s => negb (mem s (row_skills row')))
                                 (must_have_skills cfg)))
        by (rewrite F; left; reflexivity).
      apply filter_In in Hin as [Hm Hn]. exists m. split; [exact Hm|].
      intro Hi. apply mem_In in Hi. rewrite Hi in Hn. discriminate.
    - rewrite must_delta_all; [exact Hw|].
      intros m Hm. unfold missing in E.
      destruct (mem m (row_skills row')) eqn:M; [apply mem_In, M|].
      exfalso.
      assert (Hin : In m (filter (fun s => negb (mem s (row_skills row')))
                                 (must_have_skills cfg)))
        by (apply filter_In; split; [exact Hm | rewrite M; reflexivity]).
      destruct (filter _ _); [destruct Hin | discriminate]. }
  split; [exact Hbefore|].
  split; [apply must_delta_missing|].
  split; [apply must_delta_all|].
  split; [exact Hmono|].
  intros Hlow Hnice Htext st st' Hst Hst'.
  destruct (@same_columns row row' cfg w Hcols) as [Etot [Eedu [Eage Eact]]].
  rewrite (proj1 (@rule_score_decomposition _ _ _ Hst)).
  rewrite (proj1 (@rule_score_decomposition _ _ _ Hst')).
  unfold rules. fold w. cbn [map Qsum].
  rewrite Etot, Eedu, Eage, Eact.
  rewrite !(@low_exp_inactive cfg w (total_years row) _ Hlow).
  rewrite !text_delta_sum in Htext.
  rewrite !nice_delta.
  assert (Hlen : inject_Z (Z.of_nat (length (filter (fun x => mem x (row_skills row))
                                               (get (nice_to_have_skills cfg) []))))
                 <= inject_Z (Z.of_nat (length (filter (fun x => mem x (row_skills row'))
                                                  (get (nice_to_have_skills cfg) []))))).
  { rewrite <- Zle_Qle. apply Nat2Z.inj_le. apply filter_length_mono.
    intros x Hx. apply mem_In. apply Hset. right. apply mem_In, Hx. }
  set (n := inject_Z (Z.of_nat (length (filter (fun x => mem x (row_skills row))
                                          (get (nice_to_have_skills cfg) []))))) in *.
  set (n' := inject_Z (Z.of_nat (length (filter (fun x => mem x (row_skills row'))
                                           (get (nice_to_have_skills cfg) []))))) in *.
  assert (Hn : dict_get w nice_each 0.3 * n <= dict_get w nice_each 0.3 * n').
  { rewrite (Qmult_comm _ n), (Qmult_comm _ n').
    apply Qmult_le_compat_r; assumption. }
  lra.
Qed.

Lemma skill_appended (row row' : Row) (s : str) :
  row_skills row' = row_skills row ++ [s] ->
  forall x, In x (row_skills row') <-> x = s \/ In x (row_skills row).
Proof.
  intros E x. rewrite E, in_app_iff. cbn [In].
  split; [intros [H|[H|[]]] | intros [H|H]]; auto.
Qed.

(** For the Programmer department: with javascript added the must_missing
    delta -1.5 gives way to the must_all delta 0.5, and the score rises
    from -2.3 to -0.3. *)
Lemma must_have_skill_added_witness :
  adds_skill row_five_skills row_six_skills (u "javascript")
  /\ In (u "javascript") (must_have_skills (merged_cfg DEPARTMENTS_CFG.Programmer))
  /\ ~ In (u "javascript") (row_skills row_five_skills)
  /\ exists st st',
       rule_score row_five_skills (merged_cfg DEPARTMENTS_CFG.Programmer) = Some st
       /\ rule_score row_six_skills (merged_cfg DEPARTMENTS_CFG.Programmer) = Some st'
       /\ fst st <= fst st'.
Proof.
  assert (A : adds_skill row_five_skills row_six_skills (u "javascript")).
  { split.
    - intros c Hc. destruct c; try (exfalso; apply Hc; reflexivity); reflexivity.
    - apply skill_appended. vm_compute. reflexivity. }
  assert (I : In (u "javascript")
                 (must_have_skills (merged_cfg DEPARTMENTS_CFG.Programmer)))
    by (apply mem_In; vm_compute; reflexivity).
  assert (N : ~ In (u "javascript") (row_skills row_five_skills))
    by (intro H; apply mem_In in H; vm_compute in H; discriminate).
  split; [exact A|]. split; [exact I|]. split; [exact N|].
  assert (R1 : rule_score row_five_skills (merged_cfg DEPARTMENTS_CFG.Programmer)
               = Some (run_rules row_five_skills (merged_cfg DEPARTMENTS_CFG.Programmer)))
    by (apply rule_score_returns, finite_age_is_not_infinite; reflexivity).
  assert (R2 : rule_score row_six_skills (merged_cfg DEPARTMENTS_CFG.Programmer)
               = Some (run_rules row_six_skills (merged_cfg DEPARTMENTS_CFG.Programmer)))
    by (apply rule_score_returns, finite_age_is_not_infinite; reflexivity).
  do 2 eexists. split; [exact R1|]. split; [exact R2|].
  refine (proj2 (proj2 (proj2 (proj2
            (must_have_skill_added (merged_cfg DEPARTMENTS_CFG.Programmer) A I N _))))
            _ _ _ _ _ R1 R2);
    [apply Qle_bool_imp_le; vm_compute; reflexivity
    | vm_compute; reflexivity
    | apply Qle_bool_imp_le; vm_compute; reflexivity
    | apply Qle_bool_imp_le; vm_compute; reflexivity].
Defined.

(* ================================================================== *)
(** ** The score blender *)

Module BlenderFacts.
Import Blender.

(** The label is the pass label when the cut is at most the priority in
    the order of the floats. *)
Lemma bucket_level_Pass (final pass_cut : float) :
  bucket_level final pass_cut = Pass <-> (pass_cut <=? final)%float = true.
Proof.
  unfold bucket_level. destruct (pass_cut <=? final)%float; split; congruence.
Qed.

(** C5. The final priority is 0.7 times the probability plus 0.3 times the
    sigmoid of the rule score, in the arithmetic of the floats and with
    the exponential of numpy; the label is the pass label exactly when
    [final >= pass_cut] holds of the two floats, a tie passes, and the
    label is the fail label exactly when the priority is below the cut or
    one of the two is NaN.  On finite floats the test is the order of the
    numbers the two floats stand for. *)
Theorem blend_and_bucket (np_exp : float -> float) (proba rscore pass_cut : float) :
  let sigmoid := (1 / (1 + np_exp (- rscore)))%float in
  let final := final_priority np_exp proba rscore in
  final = (0.7 * proba + 0.3 * sigmoid)%float
  /\ (bucket_level final pass_cut = Pass <-> (pass_cut <=? final)%float = true)
  /\ ((final =? pass_cut)%float = true -> bucket_level final pass_cut = Pass)
  /\ (bucket_level final pass_cut = NotPass <->
      (final <? pass_cut)%float = true
      \/ is_nan final = true \/ is_nan pass_cut = true)
  /\ (forall vf vc : Q,
        float_value final = Some vf -> float_value pass_cut = Some vc ->
        (bucket_level final pass_cut = Pass <-> vc <= vf)).
Proof.
  cbv zeta. split; [reflexivity|].
  set (final := final_priority np_exp proba rscore).
  split; [apply bucket_level_Pass|]. split; [|split].
  - intro E. apply bucket_level_Pass, float_eqb_leb, E.
  - unfold bucket_level. rewrite (float_trichotomy final pass_cut).
    destruct (final <? pass_cut)%float, (is_nan final), (is_nan pass_cut);
      cbn; split; intro H; try discriminate; auto;
      destruct H as [H|[H|H]]; discriminate.
  - intros vf vc Ef Ec. rewrite bucket_level_Pass.
    exact (@float_leb_value pass_cut final vc vf Ec Ef).
Qed.

(** A probability of 0.4 and a rule score of 0: the floats give
    0.42999999999999994, which fails the cut 0.43. *)
Example blend_below_the_cut (np_exp : float -> float) :
  np_exp (- 0)%float = 1%float ->
  final_priority np_exp 0.4 0 = 0.42999999999999994%float
  /\ bucket_level (final_priority np_exp 0.4 0) 0.43 = NotPass.
Proof.
  intro H. unfold final_priority. rewrite H. split; reflexivity.
Qed.

End BlenderFacts.

(* ================================================================== *)
(** * Further properties of the text helpers *)

(** ** The education ordinal *)

Lemma assoc_In {V : Type} (d : list (str * V)) (k : str) (v : V) :
  assoc d k = Some v -> In (k, v) d.
Proof.
  induction d as [|[k' v'] d IH]; cbn [assoc]; [discriminate|].
  destruct (str_eqb k k') eqn:E.
  - intro H. injection H as ->. apply str_eqb_eq in E. subst k'.
    left. reflexivity.
  - intro H. right. apply IH, H.
Qed.

(** The characters of the keys of the mapping. *)
Definition key_chars : list N := concat (map fst education_mapping).
Definition in_keys (c : N) : bool := existsb (N.eqb c) key_chars.

(** Every key of the mapping is made of these, and no value is above 3. *)
Lemma education_mapping_keys :
  Forall (fun kv => forallb in_keys (fst kv) = true /\ (snd kv <= 3)%nat)
         education_mapping.
Proof.
  unfold education_mapping.
  repeat (apply Forall_cons; [split; [vm_compute; reflexivity | cbn; lia]|]).
  apply Forall_nil.
Qed.

Lemma special_lookup_In (c : N) (l : list N) (tbl : list (N * list N)) :
  special_lookup c tbl = Some l -> In (c, l) tbl.
Proof.
  induction tbl as [|[k v] tbl IH]; [discriminate|].
  cbn [special_lookup]. destruct (c =? k)%N eqn:E.
  - intro H. injection H as ->. apply N.eqb_eq in E. subst k. left. reflexivity.
  - intro H. right. exact (IH H).
Qed.

(** No title case of the tables is made of characters of the keys, and a
    character of the keys that the tables leave alone is not cased. *)
Lemma title_images_not_in_keys :
  forallb (fun p => negb (in_keys (snd p))) (expand Unicode.Titlecase_Mapping) = true
  /\ forallb (fun e => negb (forallb in_keys (snd e))) Unicode.Titlecase_Special = true
  /\ forallb (fun k => match map_lookup k Unicode.Titlecase_Mapping with
                       | Some _ => true
                       | None => negb (is_cased k)
                       end) key_chars = true.
Proof. repeat split; vm_compute; reflexivity. Qed.

(** A character whose title case is made of characters of the keys is its
    own title case, and is not cased. *)
Lemma title_full_in_keys (c : N) :
  forallb in_keys (title_full c) = true -> title_full c = [c] /\ is_cased c = false.
Proof.
  destruct title_images_not_in_keys as [F1 [F2 F3]].
  unfold title_full, title_char.
  destruct (special_lookup c Unicode.Titlecase_Special) as [l|] eqn:S.
  - intro H. exfalso. apply special_lookup_In in S.
    pose proof (proj1 (forallb_forall _ _) F2 _ S) as N. cbn [snd] in N.
    rewrite H in N. discriminate N.
  - destruct (map_lookup c Unicode.Titlecase_Mapping) as [v|] eqn:M.
    + intro H. exfalso. apply map_lookup_In in M.
      pose proof (proj1 (forallb_forall _ _) F1 _ M) as N. cbn [snd] in N.
      cbn [forallb] in H. rewrite andb_true_r in H. rewrite H in N. discriminate N.
    + intro H. split; [reflexivity|].
      cbn [forallb] in H. rewrite andb_true_r in H.
      unfold in_keys in H. apply existsb_exists in H as [k [Hk E]].
      apply N.eqb_eq in E. subst k.
      pose proof (proj1 (forallb_forall _ _) F3 _ Hk) as N. cbv beta in N.
      rewrite M in N. apply negb_true_iff in N. exact N.
Qed.

(** A title-cased string made of characters of the keys has no cased
    letter: [title] has left it as it was. *)
Lemma title_in_keys (s : str) :
  forallb in_keys (title s) = true -> title s = s.
Proof.
  unfold title. generalize (@nil N) as before.
  induction s as [|c r IH]; intros before; [reflexivity|].
  cbn [title_from]. rewrite forallb_app. intro H.
  apply andb_true_iff in H as [Hc Hr].
  destruct (title_full_in_keys c Hc) as [E C].
  rewrite C in *. rewrite E, (IH _ Hr). reflexivity.
Qed.

Lemma encode_education_ignores_title (level : pyobj) :
  encode_education level
  = dict_get (assoc education_mapping) (normalize_text level) 0%nat.
Proof.
  unfold encode_education. destruct (is_str level) eqn:S; cbn [negb].
  - cbv zeta. unfold dict_get.
    destruct (assoc education_mapping (normalize_text level)) as [v|] eqn:A;
      [reflexivity|].
    destruct (assoc education_mapping (title (normalize_text level))) as [v|] eqn:T;
      [|reflexivity].
    exfalso. apply assoc_In in T.
    pose proof (proj1 (Forall_forall _ _) education_mapping_keys _ T) as [K _].
    cbn [fst] in K. rewrite (title_in_keys _ K) in T.
    revert A T. generalize (normalize_text level) as s.
    generalize education_mapping as d. clear.
    induction d as [|[k' v'] d IH]; intros s A T; [destruct T|].
    cbn [assoc] in A. destruct (str_eqb s k') eqn:E; [discriminate|].
    destruct T as [T|T].
    + injection T as -> ->.
      rewrite (proj2 (str_eqb_eq s s) eq_refl) in E. discriminate.
    + exact (IH s A T).
  - unfold normalize_text. rewrite S. reflexivity.
Qed.

(** The fall-back on [s.title()] never changes the result: the ordinal is
    the mapping's value at the normalized label, and 0 when the mapping
    has no such key or the label is not a [str]. *)
Theorem education_title_fallback_is_dead (level : pyobj) :
  encode_education level
  = dict_get (assoc education_mapping) (normalize_text level) 0%nat
  /\ (assoc education_mapping (normalize_text level) = None ->
      encode_education level = 0%nat).
Proof.
  split; [apply encode_education_ignores_title|].
  intro H. rewrite encode_education_ignores_title.
  unfold dict_get. rewrite H. reflexivity.
Qed.

(** The ordinal is one of 0, 1, 2, 3, and two labels with the same
    normalized text (the same up to case and white space) get the same
    ordinal. *)
Theorem education_ordinal_range (level level' : pyobj) :
  (encode_education level <= 3)%nat
  /\ (normalize_text level = normalize_text level' ->
      encode_education level = encode_education level')
  /\ encode_education (Str (normalize_text level)) = encode_education level.
Proof.
  rewrite !encode_education_ignores_title.
  split; [|split].
  - unfold dict_get.
    destruct (assoc education_mapping (normalize_text level)) as [v|] eqn:A; [|lia].
    apply assoc_In in A.
    exact (proj2 (proj1 (Forall_forall _ _) education_mapping_keys _ A)).
  - intros ->. reflexivity.
  - rewrite normalize_text_idem. reflexivity.
Qed.

(** ** The skill list *)

(** [s] has no white space at either edge. *)
Definition stripped (s : str) : Prop := no_lead s /\ no_lead (rev s).

Lemma strip_stripped (s : str) : stripped (strip s).
Proof.
  unfold stripped, strip. split.
  - apply rstrip_no_lead, lstrip_no_lead.
  - unfold rstrip. rewrite rev_involutive. apply lstrip_no_lead.
Qed.

Lemma stripped_fixed (s : str) : stripped s -> strip s = s.
Proof.
  intros [H1 H2]. unfold strip, rstrip.
  rewrite (lstrip_fixed _ H1), (lstrip_fixed _ H2). apply rev_involutive.
Qed.

Lemma no_lead_app (x y : str) : x <> [] -> no_lead x -> no_lead (x ++ y).
Proof. destruct x; [contradiction | intros _ H; exact H]. Qed.

Lemma no_lead_app_inv (x y : str) : x <> [] -> no_lead (x ++ y) -> no_lead x.
Proof. destruct x; [contradiction | intros _ H; exact H]. Qed.

Lemma no_lead_forallb (s : str) :
  forallb (fun c => negb (is_space c)) s = true -> no_lead s.
Proof.
  destruct s as [|c r]; [intros _; exact I|].
  cbn [forallb no_lead]. intro H. apply andb_true_iff in H as [H _].
  apply negb_true_iff, H.
Qed.

(** No image of the lower-case mapping is white space or a separator of
    the skill list. *)
Lemma lower_images_solid :
  forallb (fun c => negb (is_space c)) lower_images = true
  /\ forallb (fun c => negb (is_skill_sep c)) lower_images = true.
Proof. split; vm_compute; reflexivity. Qed.

(** The lower case of a character that is not white space holds none. *)
Lemma lower_at_solid (before : str) (c : N) (after : str) :
  is_space c = false ->
  forallb (fun x => negb (is_space x)) (lower_at before c after) = true.
Proof.
  intro H. apply forallb_forall. intros x Hx.
  destruct (@lower_at_out _ _ _ _ Hx) as [[-> _] | Hi].
  - rewrite H. reflexivity.
  - exact (proj1 (forallb_forall _ _) (proj1 lower_images_solid) x Hi).
Qed.

Lemma lower_from_no_lead (before s : str) :
  no_lead s -> no_lead (lower_from before s).
Proof.
  destruct s as [|c r]; [intros _; exact I|].
  cbn [no_lead lower_from]. intro H.
  apply no_lead_app; [apply lower_at_not_nil|].
  apply no_lead_forallb, lower_at_solid, H.
Qed.

Lemma lower_from_no_trail (before s : str) :
  no_lead (rev s) -> no_lead (rev (lower_from before s)).
Proof.
  revert before. induction s as [|c r IH]; intros before; [intros _; exact I|].
  cbn [rev lower_from]. rewrite rev_app_distr. intro H.
  destruct r as [|d r'].
  - cbn [lower_from rev app] in *.
    apply no_lead_forallb, forallb_forall. intros x Hx. apply in_rev in Hx.
    exact (proj1 (forallb_forall _ _) (@lower_at_solid before c [] H) x Hx).
  - assert (Hr : rev (d :: r') <> []).
    { cbn [rev]. intro E. apply app_eq_nil in E as [_ E]. discriminate E. }
    apply no_lead_app.
    + intro E. apply (f_equal (@rev N)) in E. rewrite rev_involutive in E.
      cbn [rev] in E. revert E. apply lower_from_not_nil. discriminate.
    + apply IH. exact (no_lead_app_inv _ Hr H).
Qed.

(** The lower case of a string without white space at its edges has none
    at its edges. *)
Lemma lower_stripped (s : str) : stripped s -> stripped (lower s).
Proof.
  intros [H1 H2]. split; [apply lower_from_no_lead, H1 | apply lower_from_no_trail, H2].
Qed.

(** A skill as [split_skills] returns it: not empty, with no white space
    at its edges, in lower case and free of separators. *)
Definition clean_skill (t : str) : Prop :=
  nonempty t = true /\ strip t = t /\ lower t = t
  /\ forallb (fun c => negb (is_skill_sep c)) t = true.

Lemma re_split_pieces (s : str) :
  Forall (fun p => forallb (fun c => negb (is_skill_sep c)) p = true)
         (re_split is_skill_sep s).
Proof.
  induction s as [|c r IH]; cbn [re_split].
  - repeat constructor.
  - destruct (is_skill_sep c) eqn:E; [constructor; [reflexivity | exact IH]|].
    destruct (re_split is_skill_sep r) as [|h t].
    + constructor; [|constructor]. cbn [forallb]. rewrite E. reflexivity.
    + inversion IH as [|? ? Hh Ht]; subst.
      constructor; [|exact Ht]. cbn [forallb]. rewrite E, Hh. reflexivity.
Qed.

(** A piece without separator in front of a separator is split off. *)
Lemma re_split_piece (t : str) (c : N) (r : str) :
  forallb (fun c => negb (is_skill_sep c)) t = true -> is_skill_sep c = true ->
  re_split is_skill_sep (t ++ c :: r) = t :: re_split is_skill_sep r.
Proof.
  intros Ht Hc. induction t as [|a t IH]; cbn [app re_split].
  - rewrite Hc. reflexivity.
  - cbn [forallb] in Ht. apply andb_true_iff in Ht as [Ha Ht].
    apply negb_true_iff in Ha. rewrite Ha, (IH Ht). reflexivity.
Qed.

Lemma re_split_single (t : str) :
  forallb (fun c => negb (is_skill_sep c)) t = true ->
  re_split is_skill_sep t = [t].
Proof.
  induction t as [|a t IH]; cbn [re_split forallb]; [reflexivity|].
  intro H. apply andb_true_iff in H as [Ha Ht].
  apply negb_true_iff in Ha. rewrite Ha, (IH Ht). reflexivity.
Qed.

Lemma re_split_join (ts : list str) :
  Forall (fun p => forallb (fun c => negb (is_skill_sep c)) p = true) ts ->
  ts <> [] ->
  re_split is_skill_sep (join [44%N] ts) = ts.
Proof.
  induction 1 as [|t ts Ht Hts IH]; intro Hne; [contradiction|].
  destruct ts as [|t' ts'].
  - cbn [join]. apply re_split_single, Ht.
  - change (join [44%N] (t :: t' :: ts')) with (t ++ 44%N :: join [44%N] (t' :: ts')).
    rewrite (@re_split_piece t 44%N _ Ht eq_refl). rewrite IH by discriminate. reflexivity.
Qed.

Lemma split_skills_clean (skills : pyobj) :
  Forall clean_skill (split_skills skills).
Proof.
  unfold split_skills.
  destruct (is_str skills); cbn [negb]; [|constructor].
  apply Forall_forall. intros t Ht.
  apply in_map_iff in Ht as [p [<- Hp]].
  apply filter_In in Hp as [Hin Hne].
  pose proof (proj1 (Forall_forall _ _) (re_split_pieces (py_str skills)) p Hin) as Hsep.
  unfold clean_skill. split; [|split; [|split]].
  - destruct (lower (strip p)) eqn:E; [|reflexivity].
    exfalso. revert E. apply lower_from_not_nil.
    destruct (strip p); [discriminate Hne | discriminate].
  - apply stripped_fixed, lower_stripped, strip_stripped.
  - apply lower_idem.
  - apply lower_from_forallb; [exact (proj2 lower_images_solid)|].
    apply forallb_forall.
    assert (F : Forall (fun c => negb (is_skill_sep c) = true) (strip p)).
    { apply strip_Forall. apply Forall_forall. intros x Hx.
      exact (proj1 (forallb_forall _ _) Hsep x Hx). }
    exact (proj1 (Forall_forall _ _) F).
Qed.

Lemma split_skills_of_clean (ts : list str) :
  Forall clean_skill ts -> split_skills (Str (join [44%N] ts)) = ts.
Proof.
  intro H. unfold split_skills. cbn [is_str py_str Str negb].
  destruct ts as [|t ts]; [reflexivity|].
  rewrite re_split_join; [| |discriminate].
  - induction H as [|a l [Hn [Hs [Hl _]]] Hl' IH]; [reflexivity|].
    cbn [filter map]. rewrite Hs, Hn. cbn [map]. rewrite Hs, Hl. f_equal. exact IH.
  - apply Forall_forall. intros p Hp.
    exact (proj2 (proj2 (proj2 (proj1 (Forall_forall _ _) H p Hp)))).
Qed.

(** Every skill [split_skills] returns is not empty, has no white space at
    its edges, is in lower case and holds no separator, whatever the
    input; an input that is not a [str] gives no skill. *)
Theorem split_skills_are_clean (skills : pyobj) :
  Forall clean_skill (split_skills skills)
  /\ (is_str skills = false -> split_skills skills = []).
Proof.
  split; [apply split_skills_clean|].
  unfold split_skills. intros ->. reflexivity.
Qed.

(** Round trip: the skills joined by commas split into the same skills
    again, and so does every list of clean skills. *)
Theorem split_skills_round_trip (skills : pyobj) (ts : list str) :
  split_skills (Str (join [44%N] (split_skills skills))) = split_skills skills
  /\ (Forall clean_skill ts -> split_skills (Str (join [44%N] ts)) = ts).
Proof.
  split; [|apply split_skills_of_clean].
  apply split_skills_of_clean, split_skills_clean.
Qed.

(** ** The tokenizer *)

Lemma sub_ws_true_no_lead (s : str) : no_lead (sub_ws true s).
Proof.
  induction s as [|c r IH]; cbn [sub_ws]; [exact I|].
  destruct (is_space c) eqn:E; [exact IH | exact E].
Qed.

Lemma sub_ws_true_lstrip (s : str) : sub_ws true s = lstrip (sub_ws false s).
Proof.
  destruct s as [|c r]; [reflexivity|].
  cbn [sub_ws]. destruct (is_space c) eqn:E.
  - cbn [lstrip]. change (is_space 32) with true. cbn iota.
    symmetry. apply lstrip_fixed, sub_ws_true_no_lead.
  - cbn [lstrip]. rewrite E. reflexivity.
Qed.

(** The tokens of [split_ws] are not empty and hold no white space. *)
Definition solid (t : str) : Prop :=
  nonempty t = true /\ forallb (fun c => negb (is_space c)) t = true.

Lemma split_ws_solid (s : str) : Forall solid (split_ws s).
Proof.
  induction s as [|c r IH]; cbn [split_ws]; [constructor|].
  destruct (is_space c) eqn:E; [exact IH|].
  assert (Hc : solid [c]) by (split; [reflexivity | cbn; rewrite E; reflexivity]).
  destruct r as [|d r']; [constructor; [exact Hc | constructor]|].
  destruct (is_space d); [constructor; assumption|].
  destruct (split_ws (d :: r')) as [|w ws]; [constructor; [exact Hc | constructor]|].
  inversion IH as [|? ? [Hw1 Hw2] Hws]; subst.
  constructor; [|exact Hws].
  split; [reflexivity|]. cbn [forallb]. rewrite E, Hw2. reflexivity.
Qed.

Lemma split_ws_head (d : N) (r : str) :
  is_space d = false -> split_ws (d :: r) <> [].
Proof.
  intro E. cbn [split_ws]. rewrite E.
  destruct r as [|e r']; [discriminate|].
  destruct (is_space e); [discriminate|].
  destruct (split_ws (e :: r')); discriminate.
Qed.

Lemma join_head (sep : str) (c : N) (w : str) (ws : list str) :
  join sep ((c :: w) :: ws) = c :: join sep (w :: ws).
Proof. destruct ws; reflexivity. Qed.

Lemma join_solid_not_nil (sep : str) (w : str) (ws : list str) :
  nonempty w = true -> join sep (w :: ws) <> [].
Proof.
  destruct w as [|c w]; [discriminate|]. intros _.
  rewrite join_head. discriminate.
Qed.

(** The tokens joined by single spaces are the text with its white space
    collapsed and its edges stripped. *)
Lemma join_split_ws (s : str) : join [32%N] (split_ws s) = rstrip (sub_ws true s).
Proof.
  induction s as [|c r IH]; [reflexivity|].
  cbn [split_ws sub_ws]. destruct (is_space c) eqn:E; [exact IH|].
  rewrite rstrip_cons, E.
  destruct r as [|d r']; [reflexivity|].
  destruct (is_space d) eqn:D.
  - (* a word ends at [c] *)
    assert (X : rstrip (sub_ws false (d :: r'))
                = match join [32%N] (split_ws (d :: r')) with
                  | [] => []
                  | y => 32%N :: y
                  end).
    { cbn [sub_ws]. rewrite D. rewrite rstrip_cons.
      change (is_space 32) with true. cbn iota.
      rewrite IH. cbn [sub_ws]. rewrite D. reflexivity. }
    rewrite X.
    pose proof (split_ws_solid (d :: r')) as S.
    destruct (split_ws (d :: r')) as [|w ws] eqn:W; [reflexivity|].
    inversion S as [|? ? [Hw _] _]; subst.
    pose proof (@join_solid_not_nil [32%N] w ws Hw) as Hne.
    change (join [32%N] ([c] :: w :: ws)) with (c :: 32%N :: join [32%N] (w :: ws)).
    destruct (join [32%N] (w :: ws)); [contradiction | reflexivity].
  - (* the word goes on *)
    assert (X : rstrip (sub_ws false (d :: r')) = join [32%N] (split_ws (d :: r'))).
    { rewrite IH. cbn [sub_ws]. rewrite D. reflexivity. }
    rewrite X.
    pose proof (split_ws_solid (d :: r')) as S.
    pose proof (@split_ws_head d r' D) as Hne.
    destruct (split_ws (d :: r')) as [|w ws] eqn:W; [contradiction|].
    inversion S as [|? ? [Hw _] _]; subst.
    rewrite join_head.
    pose proof (@join_solid_not_nil [32%N] w ws Hw) as Hj.
    destruct (join [32%N] (w :: ws)); [contradiction | reflexivity].
Qed.

(** A normalized text is left as it is by collapsing and stripping. *)
Lemma normalize_text_fixed (x : pyobj) :
  strip (sub_ws false (normalize_text x)) = normalize_text x.
Proof.
  unfold normalize_text. destruct (is_str x); cbn [negb]; [|reflexivity].
  rewrite sub_ws_fixed; [apply strip_idem|].
  unfold strip. apply collapsed_rstrip, collapsed_lstrip, sub_ws_collapsed.
Qed.

Lemma solid_strip (t : str) : solid t -> nonempty (strip t) = true.
Proof.
  intros [Hn Hs]. destruct t as [|c t]; [discriminate|].
  cbn [forallb] in Hs. apply andb_true_iff in Hs as [Hc _].
  apply negb_true_iff in Hc.
  unfold strip. cbn [lstrip]. rewrite Hc. rewrite rstrip_cons, Hc.
  destruct (rstrip t); reflexivity.
Qed.

(** No token [thai_tokenize] returns is empty or made of white space only,
    with either tokenizer; a text that normalizes to the empty string (or
    is not a [str]) gives no token; without pythainlp no token holds white
    space. *)
Theorem thai_tokenize_tokens (word_tokenize : str -> option (list str))
    (text : pyobj) :
  Forall (fun t => nonempty (strip t) = true) (thai_tokenize word_tokenize text)
  /\ (normalize_text text = [] -> thai_tokenize word_tokenize text = [])
  /\ (word_tokenize (normalize_text text) = None ->
      Forall solid (thai_tokenize word_tokenize text)).
Proof.
  unfold thai_tokenize. cbv zeta.
  split; [|split].
  - destruct (nonempty (normalize_text text)); cbn [negb]; [|constructor].
    destruct (word_tokenize (normalize_text text)) as [tokens|].
    + apply Forall_forall. intros t Ht. apply filter_In in Ht as [_ Ht]. exact Ht.
    + apply Forall_forall. intros t Ht. apply solid_strip.
      exact (proj1 (Forall_forall _ _) (split_ws_solid _) t Ht).
  - intros ->. reflexivity.
  - intros ->. destruct (nonempty (normalize_text text)); cbn [negb];
      [apply split_ws_solid | constructor].
Qed.

(** Round trip, without pythainlp: the tokens joined by single spaces are
    the normalized text. *)
Theorem thai_tokenize_fallback_round_trip (word_tokenize : str -> option (list str))
    (text : pyobj) :
  word_tokenize (normalize_text text) = None ->
  join [32%N] (thai_tokenize word_tokenize text) = normalize_text text.
Proof.
  intro H. unfold thai_tokenize. cbv zeta. rewrite H.
  destruct (normalize_text text) as [|c r] eqn:E; [reflexivity|].
  cbn [nonempty nonempty_list negb]. rewrite <- E.
  rewrite join_split_ws, sub_ws_true_lstrip.
  exact (normalize_text_fixed text).
Qed.

(** With no tokenizer at all: three words of a text with mixed case and
    mixed white space. *)
Lemma thai_tokenize_fallback_round_trip_witness :
  (fun _ : str => @None (list str)) (normalize_text (Str (u "  Python   SQL  agile "))) = None
  /\ join [32%N] (thai_tokenize (fun _ => None) (Str (u "  Python   SQL  agile ")))
     = u "python sql agile".
Proof.
  split; [reflexivity|].
  rewrite (@thai_tokenize_fallback_round_trip (fun _ => None)
             (Str (u "  Python   SQL  agile ")) eq_refl).
  vm_compute. reflexivity.
Defined.

(* ================================================================== *)
(** * E-mail addresses *)

(** ** The matcher and the pattern *)

Lemma take_drop_while (p : N -> bool) (s : str) :
  s = take_while p s ++ drop_while p s
  /\ forallb p (take_while p s) = true
  /\ match drop_while p s with [] => True | c :: _ => p c = false end.
Proof.
  induction s as [|c r [IH1 [IH2 IH3]]]; cbn [take_while drop_while].
  - repeat split.
  - destruct (p c) eqn:E.
    + repeat split; [cbn [app]; f_equal; exact IH1 | cbn [forallb]; rewrite E; exact IH2
                    | exact IH3].
    + repeat split. exact E.
Qed.

Lemma take_while_app (p : N -> bool) (a : str) (c : N) (r : str) :
  forallb p a = true -> p c = false ->
  take_while p (a ++ c :: r) = a /\ drop_while p (a ++ c :: r) = c :: r.
Proof.
  intros Ha Hc. induction a as [|x a IH]; cbn [app take_while drop_while].
  - rewrite Hc. split; reflexivity.
  - cbn [forallb] in Ha. apply andb_true_iff in Ha as [Hx Ha].
    rewrite Hx. destruct (IH Ha) as [-> ->]. split; reflexivity.
Qed.

Lemma take_while_all (p : N -> bool) (a : str) :
  forallb p a = true -> take_while p a = a /\ drop_while p a = [].
Proof.
  induction a as [|x a IH]; cbn [forallb take_while drop_while]; [split; reflexivity|].
  intro H. apply andb_true_iff in H as [Hx Ha].
  rewrite Hx. destruct (IH Ha) as [-> ->]. split; reflexivity.
Qed.

Lemma forallb_rev (p : N -> bool) (a : str) : forallb p (rev a) = forallb p a.
Proof.
  induction a as [|x a IH]; [reflexivity|].
  cbn [rev forallb]. rewrite forallb_app, IH. cbn [forallb].
  rewrite andb_true_r. apply andb_comm.
Qed.

Lemma matcher_sound (s : str) : EMAIL_RE_match s = true -> EMAIL_RE_matches s.
Proof.
  unfold EMAIL_RE_match. intro H. apply andb_true_iff in H as [Hl H].
  destruct (take_drop_while is_local_char s) as [Es [Fl _]].
  destruct (drop_while is_local_char s) as [|c rest]; [discriminate|].
  apply andb_true_iff in H as [Ec H]. apply N.eqb_eq in Ec. subst c.
  cbv zeta in H.
  set (back := match rev rest with
               | x :: b => if (x =? 10)%N then b else x :: b
               | [] => []
               end) in *.
  assert (Hback : exists nl, rest = rev back ++ nl /\ (nl = [] \/ nl = [10%N])).
  { assert (Er : rest = rev (rev rest)) by (symmetry; apply rev_involutive).
    unfold back. destruct (rev rest) as [|x b] eqn:R.
    - exists []. split; [exact Er | left; reflexivity].
    - destruct (x =? 10)%N eqn:Ex.
      + apply N.eqb_eq in Ex. subst x. exists [10%N].
        split; [rewrite Er; reflexivity | right; reflexivity].
      + exists []. rewrite app_nil_r. split; [exact Er | left; reflexivity]. }
  destruct Hback as [nl [Erest Hnl]].
  apply andb_true_iff in H as [Hlen H]. apply Nat.leb_le in Hlen.
  destruct (take_drop_while is_alpha back) as [Eb [Ft _]].
  destruct (drop_while is_alpha back) as [|d dom]; [discriminate|].
  apply andb_true_iff in H as [H Hdom]. apply andb_true_iff in H as [Ed Hdn].
  apply N.eqb_eq in Ed. subst d.
  exists (take_while is_local_char s), (rev dom), (rev (take_while is_alpha back)), nl.
  repeat split.
  - rewrite Es at 1. f_equal. cbn [app]. f_equal.
    rewrite Erest, Eb at 1. rewrite rev_app_distr. cbn [rev].
    rewrite <- !app_assoc. reflexivity.
  - intro E. rewrite E in Hl. discriminate.
  - exact Fl.
  - intro E. destruct dom; [discriminate|].
    cbn [rev] in E. destruct (rev dom); discriminate.
  - rewrite forallb_rev. exact Hdom.
  - rewrite length_rev. exact Hlen.
  - rewrite forallb_rev. exact Ft.
  - exact Hnl.
Qed.

Lemma matcher_complete (s : str) : EMAIL_RE_matches s -> EMAIL_RE_match s = true.
Proof.
  intros [local [dom [tld [nl [Es [Hl [Fl [Hd [Fd [Ht [Ft Hnl]]]]]]]]]]].
  unfold EMAIL_RE_match. subst s. cbn [app].
  destruct (@take_while_app is_local_char local 64%N (dom ++ 46%N :: tld ++ nl) Fl eq_refl)
    as [-> ->].
  apply andb_true_iff. split; [destruct local; [contradiction | reflexivity]|].
  rewrite N.eqb_refl. cbn [andb]. cbv zeta.
  assert (Eback : match rev (dom ++ 46%N :: tld ++ nl) with
                  | x :: b => if (x =? 10)%N then b else x :: b
                  | [] => []
                  end
                  = rev tld ++ 46%N :: rev dom).
  { destruct Hnl as [-> | ->].
    - rewrite app_nil_r. rewrite rev_app_distr. cbn [rev]. rewrite <- app_assoc. cbn [app].
      destruct (rev tld) as [|x l] eqn:R.
      + apply (f_equal (@length N)) in R. rewrite length_rev in R. cbn in R. lia.
      + assert (Hx : is_alpha x = true).
        { assert (F : forallb is_alpha (rev tld) = true) by (rewrite forallb_rev; exact Ft).
          rewrite R in F. cbn [forallb] in F. apply andb_true_iff in F as [F _]. exact F. }
        cbn [app]. destruct (x =? 10)%N eqn:Ex; [|reflexivity].
        apply N.eqb_eq in Ex. subst x. discriminate.
    - replace (dom ++ 46%N :: tld ++ [10%N]) with ((dom ++ 46%N :: tld) ++ [10%N])
        by (rewrite <- app_assoc; reflexivity).
      rewrite rev_app_distr. cbn [rev app]. rewrite rev_app_distr. cbn [rev].
      rewrite <- app_assoc. reflexivity. }
  rewrite Eback.
  assert (Frt : forallb is_alpha (rev tld) = true) by (rewrite forallb_rev; exact Ft).
  destruct (@take_while_app is_alpha (rev tld) 46%N (rev dom) Frt eq_refl) as [-> ->].
  rewrite length_rev. apply andb_true_iff. split; [apply Nat.leb_le, Ht|].
  rewrite N.eqb_refl. cbn [andb].
  apply andb_true_iff. split.
  - destruct (rev dom) eqn:R; [|reflexivity].
    apply (f_equal (@length N)) in R. rewrite length_rev in R.
    destruct dom; [contradiction | discriminate].
  - rewrite forallb_rev. exact Fd.
Qed.

(** The matcher decides the pattern. *)
Lemma EMAIL_RE_match_iff (s : str) : EMAIL_RE_match s = true <-> EMAIL_RE_matches s.
Proof. split; [apply matcher_sound | apply matcher_complete]. Qed.

(** ** Valid addresses *)

(** Decides every comparison of a code point with a constant, given
    bounds on the code point. *)
Ltac decide_tests :=
  repeat match goal with
    | |- context [(?a <=? ?b)%N] =>
        first [ replace (a <=? b)%N with true by (symmetry; apply N.leb_le; lia)
              | replace (a <=? b)%N with false by (symmetry; apply N.leb_gt; lia) ]
    | |- context [(?a =? ?b)%N] =>
        first [ replace (a =? b)%N with true by (symmetry; apply N.eqb_eq; lia)
              | replace (a =? b)%N with false by (symmetry; apply N.eqb_neq; lia) ]
    end.

Lemma is_space_printable (c : N) : (33 <= c <= 132)%N -> is_space c = false.
Proof.
  intro H. unfold is_space, in_range. decide_tests. reflexivity.
Qed.

Lemma is_alnum_range (c : N) : is_alnum c = true -> (48 <= c <= 122)%N.
Proof.
  unfold is_alnum, is_upper, is_lower, in_range. intro H.
  repeat (apply orb_true_iff in H as [H|H]);
    apply andb_true_iff in H as [A B]; apply N.leb_le in A, B; lia.
Qed.

Lemma is_local_char_range (c : N) :
  is_local_char c = true -> (37 <= c <= 122)%N /\ c <> 64%N.
Proof.
  unfold is_local_char. intro H.
  assert (R : is_alnum c = true \/ In c [46; 95; 37; 43; 45]%N).
  { destruct (is_alnum c); [left; reflexivity|]. cbn [orb] in H. right.
    repeat (apply orb_true_iff in H as [H|H]);
      apply N.eqb_eq in H; subst c; cbn; tauto. }
  destruct R as [R|R].
  - pose proof (is_alnum_range c R) as B.
    split; [lia|]. intros ->. discriminate.
  - cbn [In] in R.
    repeat (destruct R as [<-|R]; [split; [lia | discriminate]|]). destruct R.
Qed.

Lemma is_domain_char_local (c : N) : is_domain_char c = true -> is_local_char c = true.
Proof.
  unfold is_domain_char, is_local_char. intro H.
  destruct (is_alnum c); [reflexivity|]. cbn [orb] in *.
  apply orb_true_iff in H as [H|H]; rewrite H;
    repeat rewrite orb_true_r; reflexivity.
Qed.

Lemma is_alpha_local (c : N) : is_alpha c = true -> is_local_char c = true.
Proof.
  unfold is_alpha, is_local_char, is_alnum. intro H.
  apply orb_true_iff in H as [H|H]; rewrite H;
    repeat rewrite orb_true_r; reflexivity.
Qed.

Lemma forallb_impl (p q : N -> bool) (a : str) :
  (forall c, p c = true -> q c = true) -> forallb p a = true -> forallb q a = true.
Proof.
  intros H Ha. apply forallb_forall. intros c Hc.
  apply H. exact (proj1 (forallb_forall _ _) Ha c Hc).
Qed.

Lemma rstrip_snoc_space (a : str) (c : N) :
  is_space c = true -> rstrip (a ++ [c]) = rstrip a.
Proof.
  intro H. unfold rstrip. rewrite rev_app_distr. cbn [rev app lstrip].
  rewrite H. reflexivity.
Qed.

Lemma lstrip_length (a : str) : (length (lstrip a) <= length a)%nat.
Proof.
  induction a as [|c a IH]; cbn [lstrip]; [lia|].
  destruct (is_space c); cbn [length]; lia.
Qed.

(** A stripped string does not end with a line feed. *)
Lemma strip_no_final_newline (s a : str) : strip s <> a ++ [10%N].
Proof.
  intro E.
  assert (F : rstrip (strip s) = strip s) by (unfold strip; apply rstrip_idem).
  rewrite E in F. rewrite rstrip_snoc_space in F by reflexivity.
  apply (f_equal (@length N)) in F.
  unfold rstrip in F. rewrite length_rev, length_app in F. cbn [length] in F.
  pose proof (lstrip_length (rev a)) as L. rewrite length_rev in L. lia.
Qed.

Lemma clean_email_stripped (x : pyobj) : exists s, clean_email x = strip s.
Proof.
  unfold clean_email. destruct (is_str x); cbn [negb].
  - eexists. reflexivity.
  - exists []. reflexivity.
Qed.

(** The parts of a string the pattern matches. *)
Lemma matched_after_last_at (local dom tld : str) :
  forallb is_domain_char dom = true -> forallb is_alpha tld = true ->
  after_last_at (local ++ [64%N] ++ dom ++ [46%N] ++ tld) = dom ++ [46%N] ++ tld.
Proof.
  intros Fd Ft. unfold after_last_at.
  assert (Er : rev (local ++ [64%N] ++ dom ++ [46%N] ++ tld)
               = rev (dom ++ [46%N] ++ tld) ++ 64%N :: rev local).
  { rewrite rev_app_distr. cbn [app]. cbn [rev]. rewrite <- app_assoc. reflexivity. }
  rewrite Er.
  assert (F : forallb (fun c => negb (c =? 64)%N) (rev (dom ++ [46%N] ++ tld)) = true).
  { rewrite forallb_rev, !forallb_app. cbn [forallb].
    rewrite (forallb_impl is_domain_char _ dom), (forallb_impl is_alpha _ tld);
      try assumption; try reflexivity.
    - intros c Hc. apply is_alpha_local, is_local_char_range in Hc as [_ Hc].
      apply negb_true_iff, N.eqb_neq, Hc.
    - intros c Hc. apply is_domain_char_local, is_local_char_range in Hc as [_ Hc].
      apply negb_true_iff, N.eqb_neq, Hc. }
  destruct (@take_while_app (fun c => negb (c =? 64)%N) _ 64%N (rev local) F eq_refl)
    as [-> _].
  apply rev_involutive.
Qed.

Lemma is_valid_email_shape (x : pyobj) :
  is_valid_email x = true ->
  exists local dom tld,
    clean_email x = local ++ [64%N] ++ dom ++ [46%N] ++ tld
    /\ local <> [] /\ forallb is_local_char local = true
    /\ dom <> [] /\ forallb is_domain_char dom = true
    /\ (2 <= length tld)%nat /\ forallb is_alpha tld = true
    /\ ~ In (lower (dom ++ [46%N] ++ tld)) BLOCKED_DEMO_DOMAINS.
Proof.
  unfold is_valid_email. cbv zeta. intro H.
  destruct (nonempty (clean_email x)); cbn [negb orb] in H; [|discriminate].
  destruct (EMAIL_RE_match (clean_email x)) eqn:M; cbn [negb] in H; [|discriminate].
  apply matcher_sound in M as [local [dom [tld [nl [Es [Hl [Fl [Hd [Fd [Ht [Ft Hnl]]]]]]]]]]].
  assert (nl = []) as ->.
  { destruct Hnl as [->| ->]; [reflexivity|]. exfalso.
    destruct (clean_email_stripped x) as [s0 E0]. rewrite E0 in Es.
    apply (@strip_no_final_newline s0 (local ++ [64%N] ++ dom ++ [46%N] ++ tld)).
    rewrite Es. rewrite <- !app_assoc. reflexivity. }
  rewrite app_nil_r in Es.
  exists local, dom, tld. repeat split; try assumption.
  intro Hin. apply mem_In in Hin.
  rewrite Es, (@matched_after_last_at local dom tld Fd Ft) in H.
  rewrite Hin in H. discriminate.
Qed.

(** A valid address, once cleaned, is a local part, one at sign, a domain,
    a dot and at least two letters, holds no white space, and what follows
    its at sign is, in lower case, none of the blocked demonstration
    domains. *)
Theorem valid_email_is_well_formed (x : pyobj) :
  is_valid_email x = true ->
  (exists local dom tld,
     clean_email x = local ++ [64%N] ++ dom ++ [46%N] ++ tld
     /\ local <> [] /\ forallb is_local_char local = true
     /\ dom <> [] /\ forallb is_domain_char dom = true
     /\ (2 <= length tld)%nat /\ forallb is_alpha tld = true
     /\ ~ In (lower (dom ++ [46%N] ++ tld)) BLOCKED_DEMO_DOMAINS)
  /\ forallb (fun c => negb (is_space c)) (clean_email x) = true
  /\ count_occ N.eq_dec (clean_email x) 64%N = 1%nat.
Proof.
  intro H.
  destruct (is_valid_email_shape x H)
    as [local [dom [tld [Es [Hl [Fl [Hd [Fd [Ht [Ft Hb]]]]]]]]]].
  split; [exists local, dom, tld; repeat split; assumption|].
  assert (Flocal : forallb is_local_char (dom ++ [46%N] ++ tld) = true).
  { rewrite !forallb_app. cbn [forallb].
    rewrite (forallb_impl _ _ dom is_domain_char_local Fd).
    rewrite (forallb_impl _ _ tld is_alpha_local Ft). reflexivity. }
  rewrite Es. split.
  - assert (S : forall a, forallb is_local_char a = true ->
                          forallb (fun c => negb (is_space c)) a = true).
    { intros a Fa. apply (@forallb_impl is_local_char _ a); [|exact Fa].
      intros c Hc. apply is_local_char_range in Hc as [B _].
      apply negb_true_iff, is_space_printable. lia. }
    rewrite forallb_app. cbn [app forallb].
    change (dom ++ 46%N :: tld) with (dom ++ [46%N] ++ tld).
    rewrite (S local Fl), (S _ Flocal). reflexivity.
  - rewrite count_occ_app. cbn [app].
    rewrite count_occ_cons_eq by reflexivity.
    change (dom ++ 46%N :: tld) with (dom ++ [46%N] ++ tld).
    assert (Z : forall a, forallb is_local_char a = true ->
                          count_occ N.eq_dec a 64%N = 0%nat).
    { intros a Fa. apply count_occ_not_In. intro Hin.
      pose proof (proj1 (forallb_forall _ _) Fa _ Hin) as Hc.
      apply is_local_char_range in Hc as [_ Hc]. congruence. }
    rewrite (Z local Fl), (Z _ Flocal). reflexivity.
Qed.

(** Validating a cleaned address is validating the address: the test
    does its own cleaning, and cleaning twice changes nothing. *)
Lemma is_valid_email_of_cleaned (x : pyobj) :
  is_valid_email (Str (clean_email x)) = is_valid_email x.
Proof.
  unfold is_valid_email. rewrite clean_email_idem. reflexivity.
Qed.

(** The entry "invalid" of the blocked domains never decides: the pattern
    asks for a dot after the at sign, so the test is the same with the
    four other entries alone. *)
Theorem blocked_entry_invalid_is_dead (x : pyobj) :
  is_valid_email x
  = nonempty (clean_email x) && EMAIL_RE_match (clean_email x)
    && negb (mem (lower (after_last_at (clean_email x)))
                 [u "example.com"; u "test.com"; u "example.org"; u "example.net"]).
Proof.
  unfold is_valid_email. cbv zeta.
  destruct (nonempty (clean_email x)); cbn [negb orb andb]; [|reflexivity].
  destruct (EMAIL_RE_match (clean_email x)) eqn:M; cbn [negb andb]; [|reflexivity].
  apply matcher_sound in M as [local [dom [tld [nl [Es [_ [_ [_ [Fd [_ [Ft Hnl]]]]]]]]]]].
  set (d := lower (after_last_at (clean_email x))).
  assert (Hd : str_eqb d (u "invalid") = false).
  { destruct (str_eqb d (u "invalid")) eqn:E; [|reflexivity]. exfalso.
    apply str_eqb_eq in E.
    assert (Hdot : In 46%N d).
    { unfold d, lower. apply lower_from_In; [vm_compute; reflexivity|].
      rewrite Es. unfold after_last_at. apply -> in_rev.
      assert (Er : rev (local ++ [64%N] ++ dom ++ [46%N] ++ tld ++ nl)
                   = rev (tld ++ nl) ++ 46%N :: rev dom ++ 64%N :: rev local).
      { rewrite rev_app_distr. cbn [app rev]. rewrite rev_app_distr. cbn [rev].
        rewrite <- !app_assoc. reflexivity. }
      rewrite Er.
      assert (F : forallb (fun c => negb (c =? 64)%N) (rev (tld ++ nl)) = true).
      { rewrite forallb_rev, forallb_app.
        rewrite (forallb_impl is_alpha _ tld); [|
          intros c Hc; apply is_alpha_local, is_local_char_range in Hc as [_ Hc];
          apply negb_true_iff, N.eqb_neq, Hc | exact Ft].
        destruct Hnl as [-> | ->]; reflexivity. }
      clear - F. induction (rev (tld ++ nl)) as [|a l IH]; cbn [app take_while].
      - left. reflexivity.
      - cbn [forallb] in F. apply andb_true_iff in F as [Fa Fl].
        rewrite Fa. right. apply IH, Fl. }
    rewrite E in Hdot. vm_compute in Hdot. intuition discriminate. }
  unfold mem, BLOCKED_DEMO_DOMAINS. fold d. cbn [existsb]. rewrite Hd. reflexivity.
Qed.

(** An address with white space around it and a two-part domain. *)
Lemma valid_email_is_well_formed_witness :
  is_valid_email (Str (u "  somchai.p@mail.co.th ")) = true
  /\ count_occ N.eq_dec (clean_email (Str (u "  somchai.p@mail.co.th "))) 64%N = 1%nat.
Proof.
  assert (H : is_valid_email (Str (u "  somchai.p@mail.co.th ")) = true)
    by (vm_compute; reflexivity).
  split; [exact H|].
  exact (proj2 (proj2 (valid_email_is_well_formed _ H))).
Defined.

(* ================================================================== *)
(** * The sending loop *)

(** The entries of a log with a given status. *)
Definition with_status (s : Status) (l : list LogEntry) : list LogEntry :=
  filter (fun e => match log_status e, s with
                   | SENT, SENT | FAILED, FAILED | SKIPPED, SKIPPED => true
                   | _, _ => false
                   end) l.

(** The counters count the entries of the log, status by status. *)
Definition consistent (t : Tally) : Prop :=
  sent t = length (with_status SENT (logs t))
  /\ failed t = length (with_status FAILED (logs t))
  /\ skipped t = length (with_status SKIPPED (logs t)).

(** What one turn of the loop adds to the log: one entry, of the row, to
    the cleaned address, skipped exactly when the address is not valid. *)
Definition entry_of (r : Row) (e : LogEntry) : Prop :=
  Some (log_candidate_id e) = r candidate_id
  /\ log_to e = clean_email (row_get r email (Str []))
  /\ (log_status e = SKIPPED <-> is_valid_email (Str (log_to e)) = false).

Section SendingFacts.

Variable mk_message : Row -> str * str.
Variable send_email : str -> str -> str -> option (bool * str).

Lemma with_status_app (s : Status) (a b : list LogEntry) :
  with_status s (a ++ b) = with_status s a ++ with_status s b.
Proof. apply filter_app. Qed.

Lemma send_one_spec (t : Tally) (r : Row) (t' : Tally) :
  send_one mk_message send_email t r = Some t' ->
  exists e, logs t' = logs t ++ [e] /\ entry_of r e
            /\ (consistent t -> consistent t').
Proof.
  unfold send_one. cbv zeta.
  destruct (is_valid_email (Str (clean_email (row_get r email (Str []))))) eqn:V;
    cbn [negb].
  - destruct (mk_message r) as [subj body].
    destruct (send_email _ subj body) as [[ok info]|]; [|discriminate].
    destruct (r candidate_id) as [cid|] eqn:C; [|discriminate].
    destruct ok; intro H; injection H as <-; cbn [logs sent failed skipped];
      eexists; (split; [reflexivity|]); (split; [|]).
    + unfold entry_of. cbn [log_candidate_id log_to log_status].
      split; [symmetry; exact C|]. split; [reflexivity|].
      split; [discriminate | intro K; rewrite V in K; discriminate K].
    + intros [A [B D]]. unfold consistent. cbn [logs sent failed skipped].
      rewrite !with_status_app, !length_app. cbn. lia.
    + unfold entry_of. cbn [log_candidate_id log_to log_status].
      split; [symmetry; exact C|]. split; [reflexivity|].
      split; [discriminate | intro K; rewrite V in K; discriminate K].
    + intros [A [B D]]. unfold consistent. cbn [logs sent failed skipped].
      rewrite !with_status_app, !length_app. cbn. lia.
  - destruct (r candidate_id) as [cid|] eqn:C; [|discriminate].
    intro H; injection H as <-; cbn [logs sent failed skipped].
    eexists; (split; [reflexivity|]); split.
    + unfold entry_of. cbn [log_candidate_id log_to log_status].
      split; [symmetry; exact C|]. split; [reflexivity|].
      split; [intros _; exact V | reflexivity].
    + intros [A [B D]]. unfold consistent. cbn [logs sent failed skipped].
      rewrite !with_status_app, !length_app. cbn. lia.
Qed.

Lemma send_all_spec (rows : list Row) (t t' : Tally) :
  send_all mk_message send_email t rows = Some t' ->
  exists es, logs t' = logs t ++ es /\ Forall2 entry_of rows es
             /\ (consistent t -> consistent t').
Proof.
  revert t. induction rows as [|r rows IH]; intros t; cbn [send_all].
  - intro H. injection H as <-. exists []. rewrite app_nil_r.
    split; [reflexivity | split; [constructor | exact (fun K => K)]].
  - destruct (send_one mk_message send_email t r) as [t1|] eqn:E1; [|discriminate].
    intro H. destruct (send_one_spec _ _ E1) as [e [L1 [He C1]]].
    destruct (IH _ H) as [es [L [Hes C]]].
    exists (e :: es). split; [|split].
    + rewrite L, L1, <- app_assoc. reflexivity.
    + constructor; assumption.
    + intro K. apply C, C1, K.
Qed.

Lemma send_all_total (rows : list Row) (t : Tally) :
  (forall to subj body, send_email to subj body <> None) ->
  (forall r, In r rows -> r candidate_id <> None) ->
  exists t', send_all mk_message send_email t rows = Some t'.
Proof.
  intros Hs Hc. revert t. induction rows as [|r rows IH]; intro t; cbn [send_all].
  - exists t. reflexivity.
  - assert (E : exists t1, send_one mk_message send_email t r = Some t1).
    { unfold send_one. cbv zeta.
      pose proof (Hc r (or_introl eq_refl)) as Hr.
      destruct (r candidate_id) as [cid|]; [|contradiction].
      destruct (negb _); [eexists; reflexivity|].
      destruct (mk_message r) as [subj body].
      pose proof (Hs (clean_email (row_get r email (Str []))) subj body) as Hn.
      destruct (send_email _ subj body) as [[ok info]|]; [|contradiction].
      destruct ok; eexists; reflexivity. }
    destruct E as [t1 ->]. apply IH. intros r' Hr'. apply Hc. right. exact Hr'.
Qed.

End SendingFacts.


(** When the sender never raises and every row has its candidate id, the
    loop ends with one log entry per row, in the order of the rows, each
    to the cleaned address of its row and skipped exactly when that
    address is not valid; the three counters count the entries by status
    and add up to the number of rows. *)
Theorem send_all_accounts_for_every_row (mk_message : Row -> str * str)
    (send_email : str -> str -> str -> option (bool * str)) (rows : list Row) :
  (forall to subj body, send_email to subj body <> None) ->
  (forall r, In r rows -> r candidate_id <> None) ->
  exists t,
    send_all mk_message send_email no_tally rows = Some t
    /\ Forall2 entry_of rows (logs t)
    /\ length (logs t) = length rows
    /\ consistent t
    /\ (sent t + failed t + skipped t = length rows)%nat.
Proof.
  intros Hs Hc.
  destruct (send_all_total mk_message send_email rows no_tally Hs Hc) as [t E].
  exists t. split; [exact E|].
  destruct (send_all_spec _ _ _ _ E) as [es [L [Hes C]]].
  cbn [logs no_tally app] in L. subst es.
  assert (K : consistent t) by (apply C; repeat split).
  assert (Len : length (logs t) = length rows)
    by (symmetry; exact (Forall2_length Hes)).
  repeat split; try assumption; try apply K.
  destruct K as [A [B D]]. rewrite A, B, D, <- Len.
  clear. induction (logs t) as [|e l IH]; [reflexivity|].
  unfold with_status in *. cbn [filter length].
  destruct (log_status e); cbn [length]; lia.
Qed.

(** The sender is never asked to deliver to an address that is not valid:
    two senders that agree on the valid addresses give the same run. *)
Theorem invalid_addresses_are_never_sent_to (mk_message : Row -> str * str)
    (send_email send_email' : str -> str -> str -> option (bool * str))
    (rows : list Row) (t : Tally) :
  (forall to subj body,
     is_valid_email (Str to) = true -> send_email to subj body = send_email' to subj body) ->
  send_all mk_message send_email t rows = send_all mk_message send_email' t rows.
Proof.
  intro H. revert t. induction rows as [|r rows IH]; intro t; [reflexivity|].
  cbn [send_all].
  assert (E : send_one mk_message send_email t r = send_one mk_message send_email' t r).
  { unfold send_one. cbv zeta.
    destruct (is_valid_email (Str (clean_email (row_get r email (Str []))))) eqn:V;
      cbn [negb]; [|reflexivity].
    destruct (mk_message r) as [subj body]. rewrite (H _ subj body V). reflexivity. }
  rewrite E. destruct (send_one mk_message send_email' t r); [apply IH | reflexivity].
Qed.

Lemma entry_of_skipped (r : Row) (e : LogEntry) :
  entry_of r e ->
  match log_status e with SKIPPED => true | _ => false end
  = negb (is_valid_email (row_get r email (Str []))).
Proof.
  intros [_ [Hto Hs]]. rewrite Hto, is_valid_email_of_cleaned in Hs.
  destruct (is_valid_email (row_get r email (Str []))); cbn [negb].
  - destruct (log_status e); try reflexivity.
    pose proof (proj1 Hs eq_refl) as K. discriminate K.
  - rewrite (proj2 Hs eq_refl). reflexivity.
Qed.

Lemma skipped_entries (rows : list Row) (es : list LogEntry) :
  Forall2 entry_of rows es ->
  Forall2 entry_of (bad_rows rows) (with_status SKIPPED es).
Proof.
  induction 1 as [|r e rows es He Hes IH]; [constructor|].
  unfold bad_rows, with_status in *. cbn [filter].
  pose proof (entry_of_skipped He) as K.
  destruct (log_status e), (negb (is_valid_email (row_get r email (Str []))));
    cbv beta iota in *; try discriminate K; try constructor; assumption.
Qed.

(** The rows the loop skips are the rows announced beforehand as not ready:
    the count is the same, and the skipped entries of the log are those
    rows, in their order, each with its cleaned address. *)
Theorem skipped_rows_are_the_announced_bad_rows (mk_message : Row -> str * str)
    (send_email : str -> str -> str -> option (bool * str))
    (rows : list Row) (t : Tally) :
  send_all mk_message send_email no_tally rows = Some t ->
  skipped t = length (bad_rows rows)
  /\ Forall2 entry_of (bad_rows rows) (with_status SKIPPED (logs t))
  /\ map log_to (with_status SKIPPED (logs t))
     = map (fun r => clean_email (row_get r email (Str []))) (bad_rows rows).
Proof.
  intro E.
  destruct (send_all_spec _ _ _ _ E) as [es [L [Hes C]]].
  cbn [logs no_tally app] in L. subst es.
  assert (K : consistent no_tally) by (repeat split).
  destruct (C K) as [_ [_ D]].
  pose proof (skipped_entries Hes) as S.
  split; [rewrite D; symmetry; exact (Forall2_length S)|].
  split; [exact S|].
  clear - S. induction S as [|r e rs es He _ IH]; [reflexivity|].
  cbn [map]. rewrite IH. destruct He as [_ [-> _]]. reflexivity.
Qed.

(** A run over three rows: a valid address, a demonstration domain and a
    row without address, with a sender that refuses everything. *)
Definition demo_rows : list Row :=
  [ (fun c => match c with
              | candidate_id => Some (Str (u "c-001"))
              | email => Some (Str (u "  somchai.p@mail.co.th "))
              | _ => None
              end);
    (fun c => match c with
              | candidate_id => Some (Str (u "c-002"))
              | email => Some (Str (u "demo@example.com"))
              | _ => None
              end);
    (fun c => match c with
              | candidate_id => Some (Str (u "c-003"))
              | _ => None
              end) ].

Definition demo_mk_message (r : Row) : str * str := (u "result", u "hello").

Definition demo_sender (to subj body : str) : option (bool * str) :=
  Some (false, u "550").

Definition demo_tally : Tally :=
  Eval vm_compute in
    match send_all demo_mk_message demo_sender no_tally demo_rows with
    | Some t => t
    | None => no_tally
    end.

Lemma demo_run :
  send_all demo_mk_message demo_sender no_tally demo_rows = Some demo_tally.
Proof. vm_compute. reflexivity. Qed.

Lemma send_all_accounts_for_every_row_witness :
  exists t,
    send_all demo_mk_message demo_sender no_tally demo_rows = Some t
    /\ (sent t + failed t + skipped t = 3)%nat.
Proof.
  destruct (@send_all_accounts_for_every_row demo_mk_message demo_sender demo_rows)
    as [t [E [_ [_ [_ S]]]]].
  - intros to subj body. discriminate.
  - intros r [<- | [<- | [<- | []]]]; discriminate.
  - exists t. split; [exact E | exact S].
Defined.

Lemma invalid_addresses_are_never_sent_to_witness :
  send_all demo_mk_message
           (fun to subj body =>
              if is_valid_email (Str to) then demo_sender to subj body else None)
           no_tally demo_rows
  = send_all demo_mk_message demo_sender no_tally demo_rows.
Proof.
  apply invalid_addresses_are_never_sent_to.
  intros to subj body H. rewrite H. reflexivity.
Defined.

Lemma skipped_rows_are_the_announced_bad_rows_witness :
  send_all demo_mk_message demo_sender no_tally demo_rows = Some demo_tally
  /\ skipped demo_tally = 2%nat.
Proof.
  split; [exact demo_run|].
  rewrite (proj1 (skipped_rows_are_the_announced_bad_rows _ _ _ demo_run)).
  vm_compute. reflexivity.
Defined.

(* ================================================================== *)
(** * Further properties of the rule engine *)

(** ** The columns the engine reads *)

(** [rule_score] reads the experience, education, skills, age and
    activities columns and the text fields of the configuration, and
    nothing else of the row. *)
Theorem rule_score_reads_only_its_columns (row row' : Row) (cfg : Cfg) :
  (forall c, In c [years_experience; months_experience; education_level;
                   skills; age; activities] -> row' c = row c) ->
  (forall c, In c (text_fields cfg) -> row' c = row c) ->
  rule_score row' cfg = rule_score row cfg.
Proof.
  intros H Ht.
  assert (G : forall c d,
             In c [years_experience; months_experience; education_level;
                   skills; age; activities] ->
             row_get row' c d = row_get row c d).
  { intros c d Hc. unfold row_get. rewrite (H c Hc). reflexivity. }
  assert (Etot : total_years row' = total_years row).
  { unfold total_years. rewrite !G by (cbn; tauto). reflexivity. }
  assert (Eedu : forall w, edu_rule row' cfg w = edu_rule row cfg w).
  { intro w. unfold edu_rule. rewrite !G by (cbn; tauto). reflexivity. }
  assert (Eage : forall w, age_rule row' cfg w = age_rule row cfg w).
  { intro w. unfold age_rule, row_age. rewrite !G by (cbn; tauto). reflexivity. }
  assert (Eact : activity_rule row' cfg = activity_rule row cfg).
  { unfold activity_rule. rewrite !G by (cbn; tauto). reflexivity. }
  assert (Esk : row_skills row' = row_skills row).
  { unfold row_skills. rewrite !G by (cbn; tauto). reflexivity. }
  assert (Eblob : row_blob row' cfg = row_blob row cfg).
  { unfold row_blob. f_equal. apply map_ext_in. intros c Hc.
    unfold row_get. rewrite (Ht c Hc). reflexivity. }
  unfold rule_score. cbv zeta.
  rewrite Etot, Eedu, Eage, Eact, Esk, Eblob. reflexivity.
Qed.

(** A row with other names and addresses scores the same. *)
Lemma rule_score_reads_only_its_columns_witness :
  (forall c, In c [years_experience; months_experience; education_level;
                   skills; age; activities] ->
             (fun c => match c with
                       | name => Some (Str (u "somchai"))
                       | email => Some (Str (u "somchai@mail.co.th"))
                       | _ => row_full_programmer c
                       end) c = row_full_programmer c)
  /\ rule_score (fun c => match c with
                          | name => Some (Str (u "somchai"))
                          | email => Some (Str (u "somchai@mail.co.th"))
                          | _ => row_full_programmer c
                          end) (merged_cfg DEPARTMENTS_CFG.Programmer)
     = rule_score row_full_programmer (merged_cfg DEPARTMENTS_CFG.Programmer).
Proof.
  assert (H : forall c, In c [years_experience; months_experience; education_level;
                              skills; age; activities] ->
             (fun c => match c with
                       | name => Some (Str (u "somchai"))
                       | email => Some (Str (u "somchai@mail.co.th"))
                       | _ => row_full_programmer c
                       end) c = row_full_programmer c).
  { intros c Hc. cbn [In] in Hc.
    repeat (destruct Hc as [<-|Hc]; [reflexivity|]). destruct Hc. }
  split; [exact H|].
  apply rule_score_reads_only_its_columns; [exact H|].
  intros c Hc. cbn in Hc.
  repeat (destruct Hc as [<-|Hc]; [reflexivity|]). destruct Hc.
Defined.

(** ** The rules are independent *)

(** Every rule adds the same delta and appends the same reasons whatever
    the rules before it did, the age rule wherever it returns; the score
    [rule_score] returns is 0.0 plus the ten deltas and the reasons are
    the ten segments in the order of the rules. *)
Theorem rules_are_independent (row : Row) (cfg : Cfg) :
  Forall (fun rule => forall st,
            fst (rule st) == fst st + delta_of rule
            /\ snd (rule st) = snd st ++ reasons_of rule)
         (rules row cfg)
  /\ (forall w st st',
        age_rule row cfg w st = Some st' -> st' = age_step row cfg w st)
  /\ (forall st,
        rule_score row cfg = Some st ->
        fst st == Qsum (map delta_of (rules row cfg))
        /\ snd st = concat (map reasons_of (rules row cfg))).
Proof.
  split; [exact (rules_additive row cfg)|]. split.
  - intros w st st' H. unfold age_step. rewrite H. reflexivity.
  - intros st H. exact (@rule_score_decomposition row cfg st H).
Qed.

(** ** The experience reason *)

(** Of the two experience reasons exactly one stands in the reasons, as
    the first one: "under" when the test [total < min_years_experience]
    holds of the two floats, "meets" otherwise, that is when the total is
    at least the minimum and also when the total is NaN, as it is for an
    empty cell of years. *)
Theorem experience_reason_is_exclusive (row : Row) (cfg : Cfg)
    (score : Q) (reasons : list Reason) :
  let total := total_years row in
  let minimum := min_years_experience cfg in
  let reason := if (total <? minimum)%float
                then ReasonExpUnder total minimum else ReasonExpMeet total in
  rule_score row cfg = Some (score, reasons) ->
  of_kind Experience reasons = [reason]
  /\ hd_error reasons = Some reason
  /\ ((minimum <=? total)%float = true -> hd_error reasons = Some (ReasonExpMeet total))
  /\ (is_nan total = true -> hd_error reasons = Some (ReasonExpMeet total)).
Proof.
  cbv zeta. intro H.
  apply rule_score_decomposition in H as [_ H]. cbn [snd] in H.
  set (w := get (rule_weights cfg) DEFAULT_RULES.rule_weights).
  assert (Seg : reasons_of (exp_rule cfg w (total_years row))
                = [if (total_years row <? min_years_experience cfg)%float
                   then ReasonExpUnder (total_years row) (min_years_experience cfg)
                   else ReasonExpMeet (total_years row)]).
  { unfold reasons_of, exp_rule, zero_state.
    destruct (total_years row <? min_years_experience cfg)%float; reflexivity. }
  assert (Hd : hd_error reasons
               = Some (if (total_years row <? min_years_experience cfg)%float
                       then ReasonExpUnder (total_years row) (min_years_experience cfg)
                       else ReasonExpMeet (total_years row))).
  { rewrite H. unfold rules. fold w. cbn [map concat]. rewrite Seg. reflexivity. }
  split; [|split; [exact Hd|split]].
  - rewrite H.
    rewrite (of_kind_segments Experience (rules_kinds row cfg)).
    unfold evaluation_order, rules. fold w.
    cbn [combine map concat fst snd kind_eqb rank Nat.eqb app].
    rewrite app_nil_r. exact Seg.
  - intro L. apply float_leb_not_ltb in L. rewrite L in Hd. exact Hd.
  - intro N. rewrite (@float_nan_not_ltb _ (min_years_experience cfg) N) in Hd. exact Hd.
Qed.

(** The applicant of the end-to-end example with an empty cell of years:
    the total is NaN and the reason says that it meets the minimum. *)
Lemma experience_reason_is_exclusive_witness :
  is_nan (total_years row_no_years) = true
  /\ exists score reasons,
       rule_score row_no_years (merged_cfg DEPARTMENTS_CFG.Programmer)
       = Some (score, reasons)
       /\ hd_error reasons = Some (ReasonExpMeet (total_years row_no_years)).
Proof.
  assert (N : is_nan (total_years row_no_years) = true) by reflexivity.
  split; [exact N|].
  do 2 eexists. split.
  - vm_compute. reflexivity.
  - refine (proj2 (proj2 (proj2
              (@experience_reason_is_exclusive row_no_years
                 (merged_cfg DEPARTMENTS_CFG.Programmer) _ _ _))) N).
    vm_compute. reflexivity.
Defined.

(** ** Empty phrases *)

Lemma reasons_of_fold {A : Type} (step : State -> A -> State) (l : list A) :
  (forall a, additive (fun st => step st a)) ->
  reasons_of (fun st => fold_left step l st)
  = flat_map (fun a => reasons_of (fun st => step st a)) l.
Proof.
  intro Ha. induction l as [|a l IH]; cbn [fold_left flat_map]; [reflexivity|].
  rewrite (proj2 (proj2 (additive_compose (Ha a) (additive_fold step l Ha)))).
  rewrite IH. reflexivity.
Qed.

Lemma delta_of_fold {A : Type} (step : State -> A -> State) (l : list A) :
  (forall a, additive (fun st => step st a)) ->
  delta_of (fun st => fold_left step l st)
  == Qsum (map (fun a => delta_of (fun st => step st a)) l).
Proof.
  intro Ha. induction l as [|a l IH]; cbn [fold_left map Qsum]; [reflexivity|].
  rewrite (proj1 (proj2 (additive_compose (Ha a) (additive_fold step l Ha)))).
  rewrite IH. reflexivity.
Qed.

Lemma str_in_empty (blob : str) : str_in [] blob = true.
Proof. destruct blob; reflexivity. Qed.

(** A phrase that is empty once normalized is skipped by the global
    evaluator, but as a department knockout phrase it is found in every
    blob: every applicant gets its reason and the knockout weight. *)
Theorem empty_phrase_skipped_globally_but_not_per_department
    (row : Row) (cfg : Cfg) (phrase : str) :
  normalize_text (Str phrase) = [] ->
  (forall blob wlist mterms factor ctx weights level acc,
     gk_phrase blob wlist mterms factor ctx weights level acc phrase = acc)
  /\ (In phrase (get (knockout_phrases cfg) []) ->
      forall score reasons,
        rule_score row cfg = Some (score, reasons) ->
        In (ReasonDeptKnockout phrase) reasons).
Proof.
  intro E. split.
  - intros blob wlist mterms factor ctx weights level [penalty hits].
    unfold gk_phrase. rewrite E. reflexivity.
  - intros Hin score reasons H.
    apply rule_score_decomposition in H as [_ H]. cbn [snd] in H. rewrite H.
    apply in_concat. eexists. split.
    + apply in_map. unfold rules. do 4 right. left. reflexivity.
    + unfold dept_rule. rewrite reasons_of_fold.
      * apply in_flat_map. exists phrase. split; [exact Hin|].
        rewrite E, str_in_empty. left. reflexivity.
      * intro a. destruct (str_in _ _); [apply additive_emit | apply additive_id].
Qed.

(** A phrase of two blanks. *)
Lemma empty_phrase_skipped_globally_but_not_per_department_witness :
  normalize_text (Str (u "  ")) = []
  /\ (forall blob wlist mterms factor ctx weights level acc,
        gk_phrase blob wlist mterms factor ctx weights level acc (u "  ") = acc).
Proof.
  assert (H : normalize_text (Str (u "  ")) = []) by (vm_compute; reflexivity).
  split; [exact H|].
  exact (proj1 (@empty_phrase_skipped_globally_but_not_per_department
                  empty_row (merged_cfg DEPARTMENTS_CFG.Programmer) (u "  ") H)).
Defined.

(** ** Skills that can never be present *)

(** A configured skill that is not clean (one that is empty, has white
    space at an edge, is not its own lower case or holds a separator) is
    in no applicant's skill set: as a must-have skill it is always missing, as a
    nice-to-have skill it is never counted. *)
Theorem unclean_skill_is_never_present (row : Row) (cfg : Cfg) (s : str) :
  ~ clean_skill s ->
  mem s (row_skills row) = false
  /\ (In s (must_have_skills cfg) ->
      forall w, delta_of (must_rule cfg w (row_skills row))
                == dict_get w must_missing (-1.5))
  /\ ~ In s (filter (fun x => mem x (row_skills row))
                    (get (nice_to_have_skills cfg) [])).
Proof.
  intro Hs.
  assert (M : mem s (row_skills row) = false).
  { destruct (mem s (row_skills row)) eqn:E; [|reflexivity]. exfalso.
    apply mem_In in E. apply Hs.
    exact (proj1 (Forall_forall _ _) (split_skills_clean _) s E). }
  split; [exact M|]. split.
  - intros Hin w. apply must_delta_missing. exists s. split; [exact Hin|].
    intro Hi. apply mem_In in Hi. congruence.
  - intro Hf. apply filter_In in Hf as [_ Hf]. congruence.
Qed.

(** The nice-to-have skill "ux/ui" of the Programmer department holds a
    separator. *)
Lemma unclean_skill_is_never_present_witness :
  ~ clean_skill (u "ux/ui")
  /\ In (u "ux/ui") (get (nice_to_have_skills (merged_cfg DEPARTMENTS_CFG.Programmer)) [])
  /\ mem (u "ux/ui") (row_skills row_full_programmer) = false.
Proof.
  assert (H : ~ clean_skill (u "ux/ui")).
  { intros [_ [_ [_ F]]]. vm_compute in F. discriminate F. }
  split; [exact H|]. split; [left; reflexivity|].
  exact (proj1 (unclean_skill_is_never_present row_full_programmer
                  (merged_cfg DEPARTMENTS_CFG.Programmer) H)).
Defined.

(** ** The range of the penalty *)

Lemma gk_contribution_nonpositive (blob : str) (cfg : Cfg) (lp : Level * str) :
  (forall level, dict_get (gk_weights cfg) level 0.0 <= 0) ->
  0 <= gk_factor cfg ->
  gk_contribution blob cfg lp <= 0.
Proof.
  intros Hw Hf. destruct lp as [level phrase]. unfold gk_contribution. cbn [fst snd].
  destruct (gk_outcome_cases blob (gk_wlist cfg) (gk_mterms cfg) (gk_factor cfg)
              (gk_ctx cfg) (gk_weights cfg) level phrase)
    as [[Ha _] | [[Ha _] | [[_ [Hn [Ha _]]] | [Ha _]]]]; cbv zeta in *; rewrite Ha.
  - lra.
  - lra.
  - assert (M : 0 <= (- dict_get (gk_weights cfg) level 0.0) * gk_factor cfg)
      by (apply Qmult_le_0_compat; lra).
    lra.
  - apply Hw.
Qed.

Lemma global_knockout_penalty_range_aux (blob : str) (cfg : Cfg) :
  (forall level, dict_get (gk_weights cfg) level 0.0 <= 0) ->
  0 <= gk_factor cfg ->
  gk_cap cfg <= 0 ->
  gk_cap cfg <= fst (_apply_global_knockout blob cfg)
  /\ fst (_apply_global_knockout blob cfg) <= 0.
Proof.
  intros Hw Hf Hc.
  assert (Hs : fst (gk_scan blob cfg) <= 0).
  { rewrite (proj1 (gk_scan_spec blob cfg)).
    induction (gk_entries cfg) as [|lp l IH]; cbn [map Qsum]; [lra|].
    pose proof (@gk_contribution_nonpositive blob cfg lp Hw Hf). lra. }
  unfold _apply_global_knockout.
  destruct (gk_scan blob cfg) as [penalty hits]. cbn [fst] in *.
  destruct (Qltb penalty (gk_cap cfg)) eqn:E.
  - split; [apply Qle_refl | exact Hc].
  - apply Qltb_false in E. split; assumption.
Qed.

(** With tier weights that are not positive, a factor that is not
    negative and a cap that is not positive, the knockout penalty lies
    between the cap and zero: the evaluator never rewards. *)
Theorem global_knockout_penalty_is_never_a_reward (blob : str) (cfg : Cfg) :
  (forall level, dict_get (gk_weights cfg) level 0.0 <= 0) ->
  0 <= gk_factor cfg ->
  gk_cap cfg <= 0 ->
  gk_cap cfg <= fst (_apply_global_knockout blob cfg)
  /\ fst (_apply_global_knockout blob cfg) <= 0.
Proof. apply global_knockout_penalty_range_aux. Qed.

(** The shipped weights, factor and cap. *)
Lemma global_knockout_penalty_is_never_a_reward_witness :
  (forall level,
     dict_get (gk_weights (merged_cfg DEPARTMENTS_CFG.Programmer)) level 0.0 <= 0)
  /\ fst (_apply_global_knockout blob_mitigated (merged_cfg DEPARTMENTS_CFG.Programmer))
     <= 0.
Proof.
  assert (Hw : forall level,
             dict_get (gk_weights (merged_cfg DEPARTMENTS_CFG.Programmer)) level 0.0 <= 0).
  { intros []; apply Qle_bool_imp_le; vm_compute; reflexivity. }
  split; [exact Hw|].
  refine (proj2 (global_knockout_penalty_is_never_a_reward blob_mitigated _ Hw _ _));
    apply Qle_bool_imp_le; vm_compute; reflexivity.
Defined.

(* ================================================================== *)
(** * The notification message *)

Lemma prefix_app_self (p b : str) : prefix p (p ++ b) = true.
Proof.
  induction p as [|c p IH]; [reflexivity|].
  cbn [app prefix]. rewrite N.eqb_refl. exact IH.
Qed.

Lemma prefix_split (p s : str) : prefix p s = true -> exists b, s = p ++ b.
Proof.
  revert s. induction p as [|c p IH]; intros s H; [exists s; reflexivity|].
  destruct s as [|d s]; [discriminate|].
  cbn [prefix] in H. apply andb_true_iff in H as [E H].
  apply N.eqb_eq in E. subst d.
  destruct (IH s H) as [b ->]. exists b. reflexivity.
Qed.

Lemma replace_from_skip (old new a b : str) :
  replace_from old new (length a) (a ++ b) = replace_from old new 0 b.
Proof.
  induction a as [|c a IH]; [reflexivity|]. exact IH.
Qed.

Lemma replace_from_absent (old new s : str) :
  str_in old s = false -> replace_from old new 0 s = s.
Proof.
  induction s as [|c r IH]; [reflexivity|].
  intro H. cbn [str_in] in H. apply orb_false_iff in H as [P R].
  cbn [replace_from]. rewrite P, (IH R). reflexivity.
Qed.

Lemma replace_from_here (old new b : str) :
  old <> [] ->
  replace_from old new 0 (old ++ b) = new ++ replace_from old new 0 b.
Proof.
  destruct old as [|c old]; [contradiction|]. intros _.
  pose proof (prefix_app_self (c :: old) b) as P.
  cbn [app replace_from] in *. rewrite P.
  cbn [length]. rewrite Nat.sub_1_r. cbn [Nat.pred].
  rewrite replace_from_skip. reflexivity.
Qed.

Lemma placeholder_not_nil (k : str) : placeholder k <> [].
Proof. discriminate. Qed.

Lemma render_absent (tpl : str) (ctx : list (str * str)) :
  Forall (fun kv => str_in (placeholder (fst kv)) tpl = false) ctx ->
  _render_template tpl ctx = tpl.
Proof.
  unfold _render_template.
  induction 1 as [|kv ctx H _ IH]; [reflexivity|].
  cbn [fold_left]. unfold py_replace at 2.
  rewrite (@replace_from_absent _ _ tpl H). exact IH.
Qed.

(** A template that holds none of the placeholders of the context is
    returned as it is. *)
Theorem render_template_without_placeholders (tpl : str) (ctx : list (str * str)) :
  Forall (fun kv => str_in (placeholder (fst kv)) tpl = false) ctx ->
  _render_template tpl ctx = tpl.
Proof. apply render_absent. Qed.

(** A subject without any placeholder, under the keys of [_mk_message]. *)
Lemma render_template_without_placeholders_witness :
  _render_template (u "Interview result")
    [(u "name", u "Somchai"); (u "candidate_id", u "c-001");
     (u "department", u "Programmer"); (u "score", u "0.71");
     (u "reasons", [])]
  = u "Interview result".
Proof.
  apply render_template_without_placeholders.
  repeat apply Forall_cons; try apply Forall_nil; vm_compute; reflexivity.
Defined.

(** Where the template holds the placeholder of the first key, after a
    text without opening brace, the value stands in its place; the rest of
    the template and the value itself are then open to the keys that
    follow. *)
Theorem render_template_substitutes (a b k v : str) (ctx : list (str * str)) :
  forallb (fun c => negb (c =? 123)%N) a = true ->
  _render_template (a ++ placeholder k ++ b) ((k, v) :: ctx)
  = _render_template (a ++ v ++ py_replace b (placeholder k) v) ctx.
Proof.
  intro Ha. unfold _render_template at 1. cbn [fold_left fst snd].
  fold (_render_template (py_replace (a ++ placeholder k ++ b) (placeholder k) v) ctx).
  f_equal. unfold py_replace.
  induction a as [|c a IH].
  - cbn [app]. apply replace_from_here, placeholder_not_nil.
  - cbn [forallb] in Ha. apply andb_true_iff in Ha as [Hc Ha].
    apply negb_true_iff in Hc.
    cbn [app replace_from]. unfold placeholder at 1. cbn [app prefix].
    rewrite N.eqb_sym, Hc. cbn [andb]. rewrite (IH Ha). reflexivity.
Qed.

(** The greeting of a message. *)
Lemma render_template_substitutes_witness :
  _render_template (u "Dear {{name}}, your score is {{score}}.")
    [(u "name", u "Somchai"); (u "score", u "0.71")]
  = u "Dear Somchai, your score is 0.71.".
Proof.
  assert (Ha : forallb (fun c => negb (c =? 123)%N) (u "Dear ") = true)
    by (vm_compute; reflexivity).
  refine (eq_trans _ (eq_trans
            (@render_template_substitutes (u "Dear ") (u ", your score is {{score}}.")
               (u "name") (u "Somchai") [(u "score", u "0.71")] Ha) _));
    vm_compute; reflexivity.
Defined.

Lemma split_from_skip (sep a b : str) :
  split_from sep (length a) (a ++ b) = split_from sep 0 b.
Proof.
  induction a as [|c a IH]; [reflexivity|]. exact IH.
Qed.

Lemma split_from_not_nil (sep : str) (s : str) (k : nat) : split_from sep k s <> [].
Proof.
  revert k. induction s as [|c r IH]; intro k; [discriminate|].
  cbn [split_from]. destruct k as [|k]; [|apply IH].
  destruct (prefix sep (c :: r)); [discriminate|].
  destruct (split_from sep 0 r); discriminate.
Qed.

(** Round trip: the pieces joined by the separator are the string. *)
Lemma join_str_split (sep s : str) : sep <> [] -> join sep (str_split s sep) = s.
Proof.
  intro Hsep. unfold str_split.
  assert (G : forall n s, (length s <= n)%nat -> join sep (split_from sep 0 s) = s).
  { clear s. induction n as [|n IH]; intros s Hn.
    - destruct s; [reflexivity | cbn in Hn; lia].
    - destruct s as [|c r]; [reflexivity|].
      cbn [split_from]. destruct (prefix sep (c :: r)) eqn:P.
      + destruct (prefix_split _ _ P) as [b E].
        destruct sep as [|c0 sep']; [contradiction|].
        cbn [app] in E. injection E as -> ->.
        cbn [length]. rewrite Nat.sub_1_r. cbn [Nat.pred].
        rewrite split_from_skip.
        pose proof (@split_from_not_nil (c0 :: sep') b 0) as Hne.
        assert (Hb : join (c0 :: sep') (split_from (c0 :: sep') 0 b) = b).
        { apply IH. cbn [length] in Hn. rewrite length_app in Hn. lia. }
        destruct (split_from (c0 :: sep') 0 b) as [|h t]; [contradiction|].
        change (join (c0 :: sep') ([] :: h :: t))
          with ((c0 :: sep') ++ join (c0 :: sep') (h :: t)).
        rewrite Hb. reflexivity.
      + pose proof (@split_from_not_nil sep r 0) as Hne.
        assert (Hr : join sep (split_from sep 0 r) = r)
          by (apply IH; cbn [length] in Hn; lia).
        destruct (split_from sep 0 r) as [|h t]; [contradiction|].
        rewrite join_head, Hr. reflexivity. }
  exact (G (length s) s (Nat.le_refl _)).
Qed.

Lemma join_firstn_prefix (sep : str) (l : list str) (n : nat) :
  exists rest, join sep l = join sep (firstn n l) ++ rest.
Proof.
  revert n. induction l as [|p l IH]; intro n.
  - exists []. destruct n; reflexivity.
  - destruct n as [|n]; [exists (join sep (p :: l)); reflexivity|].
    cbn [firstn]. destruct l as [|q l'].
    + exists []. destruct n; cbn [firstn join]; rewrite app_nil_r; reflexivity.
    + destruct (IH n) as [rest E].
      change (join sep (p :: q :: l')) with (p ++ sep ++ join sep (q :: l')).
      rewrite E. destruct n as [|n].
      * cbn [firstn join app]. exists (sep ++ rest). reflexivity.
      * cbn [firstn].
        change (join sep (p :: q :: firstn n l'))
          with (p ++ sep ++ join sep (q :: firstn n l')).
        exists rest. rewrite <- !app_assoc. reflexivity.
Qed.

(** The reasons a message quotes are a prefix of the reasons of the row:
    the whole string when it has no more than [max_reasons] pieces, and
    never more than that many pieces. *)
Theorem limited_reasons_are_a_prefix (max_reasons : nat) (reasons : pyobj) :
  (exists rest, py_str reasons = limit_reasons max_reasons reasons ++ rest)
  /\ ((length (str_split (py_str reasons) (u "; ")) <= max_reasons)%nat ->
      limit_reasons max_reasons reasons = py_str reasons)
  /\ str_split (py_str reasons) (u "; ") <> [].
Proof.
  assert (Hsep : u "; " <> []) by (vm_compute; discriminate).
  unfold limit_reasons. split; [|split].
  - destruct (join_firstn_prefix (u "; ") (str_split (py_str reasons) (u "; "))
                max_reasons) as [rest E].
    exists rest. rewrite <- E. symmetry. apply join_str_split. exact Hsep.
  - intro H. rewrite firstn_all2 by exact H. apply join_str_split. exact Hsep.
  - apply split_from_not_nil.
Qed.

(** The name a message greets is never empty and has no white space at its
    edges. *)
Theorem message_name_is_never_empty (cell : option pyobj) :
  nonempty (message_name cell) = true
  /\ strip (message_name cell) = message_name cell.
Proof.
  unfold message_name. cbv zeta.
  destruct (nonempty (strip _)) eqn:E.
  - split; [exact E | apply strip_idem].
  - split; vm_compute; reflexivity.
Qed.
